(** * HydraDashboard: the gRPC-Web transport client, its event streams and
      the cache invalidation hooks

    A shallow embedding of [src/store/index.ts] (class [HydraGrpcWebClient])
    and of the event hooks of [src/hooks/useRealHydraData.ts].

    Conventions of the embedding.
    - A [Uint8Array] / [ArrayBuffer] is a [list byte]; a JS string is a
      [string]; a thrown exception is the [Throw] branch of [Result].
    - An [async] method is a computation of the monad [M]: it threads the
      client's view of the outside world (how many requests were issued,
      which frames were sent, what was printed on the console).  The server
      is a parameter: a function from the request number and the request to
      the outcome of [fetch].
    - The generated protobuf code ([@/proto/...]) is not part of the sources;
      it is the class [Proto] of encoders and decoders.
    - A JS object used as a record keyed by strings is an association list
      with the insertion order of JS and one entry per key.
    - [console.log] lines that only trace progress are left out; the lines
      printed by [catch] blocks are kept as [LogEntry] values. *)

From Stdlib Require Import ZArith NArith List String Ascii Bool Lia Arith.
From Stdlib.Strings Require Import Byte.
From Stdlib Require Import DecimalString.
Import ListNotations.
Set Warnings "-register-all".
Local Open Scope string_scope.
Local Open Scope list_scope.
Local Open Scope nat_scope.

(* ===================================================================== *)
(** ** JavaScript values shared by all components                        *)
(* ===================================================================== *)

Module JS.

(** The constructors of the exceptions the client meets. *)
Inductive ErrorName := ErrorK | TypeErrorK | RangeErrorK | GrpcCallErrorK.

(** [new Error(message)], with the optional [cause] the client attaches. *)
Inductive Error := MkError (name : ErrorName) (message : string) (cause : option Error).

Definition name (e : Error) : ErrorName := let 'MkError n _ _ := e in n.
Definition message (e : Error) : string := let 'MkError _ m _ := e in m.
Definition cause (e : Error) : option Error := let 'MkError _ _ c := e in c.

(** Outcome of an expression that may throw. *)
Inductive Result (A : Type) := Ok (a : A) | Throw (e : Error).
Arguments Ok {A} a.
Arguments Throw {A} e.

Definition isOk {A} (r : Result A) : bool :=
  match r with Ok _ => true | Throw _ => false end.

Definition ErrorName_eqb (a b : ErrorName) : bool :=
  match a, b with
  | ErrorK, ErrorK | TypeErrorK, TypeErrorK
  | RangeErrorK, RangeErrorK | GrpcCallErrorK, GrpcCallErrorK => true
  | _, _ => false
  end.

(** [hay.includes(needle)]. *)
Fixpoint includes (hay needle : string) : bool :=
  String.prefix needle hay ||
  match hay with
  | EmptyString => false
  | String _ rest => includes rest needle
  end.

(** [list.includes(x)] on strings. *)
Definition arrayIncludes (l : list string) (x : string) : bool :=
  existsb (String.eqb x) l.

Definition isDigit (c : ascii) : bool :=
  let n := nat_of_ascii c in (48 <=? n) && (n <=? 57).

(** [[0-9a-f]] under the [i] flag. *)
Definition isHex (c : ascii) : bool :=
  let n := nat_of_ascii c in
  isDigit c || ((97 <=? n) && (n <=? 102)) || ((65 <=? n) && (n <=? 70)).

(** The longest prefix whose characters satisfy [p], and the rest. *)
Fixpoint span (p : ascii -> bool) (s : string) : string * string :=
  match s with
  | EmptyString => (EmptyString, EmptyString)
  | String c rest =>
      if p c then let '(a, b) := span p rest in (String c a, b)
      else (EmptyString, s)
  end.

(** Exactly [n] leading characters satisfying [p]. *)
Fixpoint takeExact (n : nat) (p : ascii -> bool) (s : string) : option string :=
  match n with
  | O => Some EmptyString
  | S k =>
      match s with
      | EmptyString => None
      | String c rest =>
          if p c then option_map (String c) (takeExact k p rest) else None
      end
  end.

(** All matches of a pattern, left to right and non overlapping, as the
    [g] flag finds them.  [matchAt s] is the match of the pattern anchored
    at the start of [s] (never empty); [skip] counts the characters of the
    previous match still to be passed over. *)
Fixpoint matchAllFrom (matchAt : string -> option string) (skip : nat)
         (s : string) : list string :=
  match s with
  | EmptyString => []
  | String _ rest =>
      match skip with
      | S k => matchAllFrom matchAt k rest
      | O =>
          match matchAt s with
          | Some m => m :: matchAllFrom matchAt (String.length m - 1) rest
          | None => matchAllFrom matchAt 0 rest
          end
      end
  end.

Definition matchAll (matchAt : string -> option string) (s : string) : list string :=
  matchAllFrom matchAt 0 s.

(** [s.match(re)] without the [g] flag: the first match. *)
Fixpoint matchFirst (matchAt : string -> option string) (s : string) : option string :=
  match matchAt s with
  | Some m => Some m
  | None =>
      match s with
      | EmptyString => None
      | String _ rest => matchFirst matchAt rest
      end
  end.

(** [/0x[0-9a-f]{64}/i] anchored at the start of the string. *)
Definition assetIdPattern (s : string) : option string :=
  match s with
  | String z (String x rest) =>
      if (Ascii.eqb z "0" && (Ascii.eqb x "x" || Ascii.eqb x "X"))%bool
      then option_map (fun h => String z (String x h)) (takeExact 64 isHex rest)
      else None
  | _ => None
  end.

(** [/\d+\.\d+/] anchored at the start of the string.  Both digit runs are
    greedy; giving back digits of the first run cannot help, since the
    next character would again be a digit and not the dot. *)
Definition decimalPattern (s : string) : option string :=
  let '(int, r) := span isDigit s in
  match int, r with
  | String _ _, String dot r' =>
      if Ascii.eqb dot "." then
        match span isDigit r' with
        | (String c frac, _) => Some (int ++ "." ++ String c frac)%string
        | _ => None
        end
      else None
  | _, _ => None
  end.

(** [/[a-f0-9]{8}/i] anchored at the start of the string. *)
Definition hex8Pattern (s : string) : option string := takeExact 8 isHex s.

(** [/(\d{6,8})/] anchored at the start of the string: greedy, at most 8. *)
Definition digits6to8Pattern (s : string) : option string :=
  let '(run, _) := span isDigit s in
  if 6 <=? String.length run
  then Some (String.substring 0 (Nat.min 8 (String.length run)) run)
  else None.

(** [parseInt] of a string of decimal digits. *)
Fixpoint parseDigits (acc : N) (s : string) : N :=
  match s with
  | EmptyString => acc
  | String c rest => parseDigits (10 * acc + N.of_nat (nat_of_ascii c - 48))%N rest
  end.
Definition parseInt (s : string) : N := parseDigits 0 s.

(** [[...new Set(l)]]: first occurrences, in order. *)
Fixpoint dedupe (seen l : list string) : list string :=
  match l with
  | [] => []
  | x :: rest =>
      if arrayIncludes seen x then dedupe seen rest
      else x :: dedupe (x :: seen) rest
  end.

Definition isSpace (c : ascii) : bool :=
  let n := nat_of_ascii c in
  (n =? 32) || ((9 <=? n) && (n <=? 13)).

Fixpoint trimStart (s : string) : string :=
  match s with
  | String c rest => if isSpace c then trimStart rest else s
  | EmptyString => EmptyString
  end.

(** [s] without trailing white space; [None] when [s] is all white space. *)
Fixpoint trimEndAux (s : string) : option string :=
  match s with
  | EmptyString => None
  | String c rest =>
      match trimEndAux rest with
      | Some r => Some (String c r)
      | None => if isSpace c then None else Some (String c EmptyString)
      end
  end.

(** [s.trim()] (ASCII white space; the strings trimmed by the client are
    regular expression matches made of digits and hex letters). *)
Definition trim (s : string) : string :=
  match trimEndAux (trimStart s) with Some r => r | None => EmptyString end.

(** Template literal [${n}] of a non negative integer. *)
Definition numberToString (n : N) : string :=
  NilZero.string_of_uint (N.to_uint n).

(** [${x}] of a value that may be [null]. *)
Definition nullable (o : option string) : string :=
  match o with Some s => s | None => "null" end.

(** [await response.text()]: the body read as text.  The patterns the
    client looks for are ASCII, which UTF-8 decoding leaves in place, so
    the text is taken byte by byte. *)
Definition text (body : list byte) : string := string_of_list_byte body.

(** *** Objects keyed by strings

    [Record<string, V>]: own enumerable properties in insertion order. *)
Definition Obj (V : Type) := list (string * V).

Fixpoint get {V} (o : Obj V) (k : string) : option V :=
  match o with
  | [] => None
  | (k', v) :: rest => if String.eqb k' k then Some v else get rest k
  end.

(** [o[k] = v]: overwrite in place, or append a new property. *)
Fixpoint set {V} (o : Obj V) (k : string) (v : V) : Obj V :=
  match o with
  | [] => [(k, v)]
  | (k', v') :: rest =>
      if String.eqb k' k then (k', v) :: rest else (k', v') :: set rest k v
  end.

(** [Object.assign(target, source)]: every property of [source], in
    order, is set on [target]. *)
Definition assign {V} (target source : Obj V) : Obj V :=
  fold_left (fun t kv => set t (fst kv) (snd kv)) source target.

Definition keys {V} (o : Obj V) : list string := map fst o.

End JS.

Import JS.

(* ===================================================================== *)
(** ** Frame codec                                                       *)
(* ===================================================================== *)

Module Frame.

Definition byteOfN (n : N) : byte :=
  match Byte.of_N (n mod 256)%N with Some b => b | None => x00 end.

(** [view.setUint32(offset, n, false)]: the four bytes written, most
    significant first, of [n] reduced modulo 2^32. *)
Definition setUint32 (n : N) : list byte :=
  let m := (n mod 2 ^ 32)%N in
  [ byteOfN (N.shiftr m 24); byteOfN (N.shiftr m 16);
    byteOfN (N.shiftr m 8); byteOfN m ].

(** [view.getUint32(0, false)] of four bytes. *)
Definition getUint32 (bs : list byte) : option N :=
  match bs with
  | [b3; b2; b1; b0] =>
      Some (N.lor (N.shiftl (Byte.to_N b3) 24)
           (N.lor (N.shiftl (Byte.to_N b2) 16)
           (N.lor (N.shiftl (Byte.to_N b1) 8) (Byte.to_N b0))))
  | _ => None
  end.

(** The framing of [grpcCall]: a zeroed array of [5 + length] bytes, the
    compression flag 0 at offset 0, the length at offset 1, the message
    at offset 5. *)
Definition encodeFrame (messageBytes : list byte) : list byte :=
  x00 :: setUint32 (N.of_nat (List.length messageBytes)) ++ messageBytes.

(** [new Uint8Array(buffer, byteOffset)] on an [ArrayBuffer]: the view of
    the bytes from [byteOffset] to the end; a [RangeError] when the offset
    lies beyond the end of the buffer. *)
Definition Uint8Array_ofBuffer (buffer : list byte) (byteOffset : nat)
  : Result (list byte) :=
  if byteOffset <=? List.length buffer
  then Ok (skipn byteOffset buffer)
  else Throw (MkError RangeErrorK "Start offset is outside the bounds of the buffer" None).

(** [new Uint8Array(typedArray, byteOffset)] on a [Uint8Array]: the
    constructor copies the elements of a typed array argument and does not
    read its second argument (ECMAScript, TypedArray constructor, case
    "firstArgument has a TypedArrayName slot"). *)
Definition Uint8Array_ofTypedArray (chunk : list byte) (byteOffset : nat)
  : Result (list byte) := Ok chunk.

(** The frame stripping of [grpcCall]:
    [new Uint8Array(responseData, 5)] with [responseData] the
    [ArrayBuffer] of the response body. *)
Definition decodeFrame (responseData : list byte) : Result (list byte) :=
  Uint8Array_ofBuffer responseData 5.

(** The frame stripping of the stream readers:
    [new Uint8Array(value, 5)] with [value] a chunk of the body stream,
    which is a [Uint8Array]. *)
Definition decodeStreamFrame (value : list byte) : Result (list byte) :=
  Uint8Array_ofTypedArray value 5.

End Frame.

(* ===================================================================== *)
(** ** Data model                                                        *)
(* ===================================================================== *)

(** Modelled from the spec: the enumeration [Protocol] of [@/proto/models],
    which is not among the sources ("enumerated family, e.g. ledger-type A
    vs ledger-type B").  The client tests [=== Protocol.BITCOIN] and
    nothing else, so every other member behaves as [EVM] does. *)
Inductive Protocol := BITCOIN | EVM.

(** Modelled from the spec: the message [Network] of [@/proto/models]
    ("[protocol] (enumerated family), [id] (opaque string)"). *)
Record Network := { protocol : Protocol; id : string }.

(** [FeeRate] objects as the client writes them in [getFeeEstimates]:
    three decimal strings, each held in a [{ value }] wrapper. *)
Record FeeRate := {
  baseFeePerUnit : string;
  maxTipFeePerUnit : string;
  maxPricePerUnit : string }.

(** [feeEstimate] of a decoded [GetFeeEstimatesResponse]: each level may be
    missing. *)
Record FeeEstimate := {
  low : option FeeRate;
  medium : option FeeRate;
  high : option FeeRate }.

(** The result of [convertFeeRateToFeeOption]: [{ low: {} }],
    [{ medium: {} }] or [{ high: {} }]. *)
Inductive FeeOption := FeeLow | FeeMedium | FeeHigh.

(** What [amount.exact.amount] may be: a string, or a [DecimalString]
    object [{ value }]. *)
Inductive AmountValue :=
| AString (s : string)
| ADecimalString (value : string).

(** [SendAmount] as the client builds it: [{ exact: { amount: { value } } }],
    with whatever was stored under [value]. *)
Record SendAmount := { exact_amount_value : AmountValue }.

(** What [assetAmounts] may hold for one asset, as the guard
    [amount && typeof amount === 'object' && 'exact' in amount && amount.exact]
    tells the cases apart. *)
Inductive AmountInput :=
| Exact (amount : AmountValue)        (* { exact: { amount } } *)
| NotAnAmount.                        (* anything the guard rejects *)

(** The response types of the generated code that [grpcCall] decodes. *)
Inductive MessageType :=
| GetInitializedMarketsResponse | GetMarketsInfoResponse
| GetRentalNodeInfoResponse | GetRentableAssetInfoResponse
| EstimateRentChannelFeeResponse | RentChannelResponse
| GetNetworksResponse | GetFeeEstimatesResponse | GetDepositAddressResponse
| GetBalancesResponse | GetAssetFiatPriceResponse | GetAssetsResponse
| GetTransactionsResponse | GetChannelsResponse | GetConnectedPeersResponse
| EstimateOpenChannelFeeResponse | OpenChannelResponse | GetAssetResponse.

(** The request objects the operations build. *)
Inductive Request :=
| GetNetworksRequest
| GetBalancesRequest (network : Network)
| GetChannelsRequest (network : Network)
| GetFeeEstimatesRequest (network : Network)
| ConnectToPeerRequest (network : Network) (peerUrl : string)
| OpenChannelRequest (network : Network) (nodeId : string)
    (assetAmounts : Obj SendAmount) (feeOption : FeeOption)
| EstimateOpenChannelFeeRequest (network : Network) (nodeId : string)
    (assetAmounts : Obj SendAmount) (feeOption : FeeOption)
| DepositChannelRequest (network : Network) (channelId : string)
    (assetAmounts : Obj SendAmount) (feeOption : FeeOption)
| EstimateDepositChannelFeeRequest (network : Network) (channelId : string)
    (assetAmounts : Obj AmountInput) (feeOption : FeeOption)
| WithdrawChannelRequest (network : Network) (channelId : string)
    (assetAmounts : Obj AmountInput) (feeOption : FeeOption)
| EstimateWithdrawChannelFeeRequest (network : Network) (channelId : string)
    (assetAmounts : Obj AmountInput) (feeOption : FeeOption)
| CloseChannelRequest (network : Network) (channelId : string)
    (assetIds : list string) (feeOption : FeeOption)
| EstimateCloseChannelFeeRequest (network : Network) (channelId : string)
    (assetIds : list string) (feeOption : FeeOption)
| ForceCloseChannelRequest (network : Network) (channelId : string)
    (assetIds : list string) (feeOption : FeeOption)
| EstimateForceCloseChannelFeeRequest (network : Network) (channelId : string)
    (assetIds : list string) (feeOption : FeeOption)
| InitMarketRequest (firstCurrency otherCurrency : string)
| SubscribeNodeEventsRequest (network : Network)
| SubscribeClientEventsRequest (network : Network).

(** Modelled from the spec: a decoded [NodeEvent] of [@/proto/models] ("one
    of several payload variants: channel updated, channel closed,
    asset-channel updated, payment updated").  The handler tests the four
    payload fields one by one, so each is kept as present or [undefined],
    with the identifier the handler prints. *)
Record NodeEvent := {
  channelUpdate : option string;        (* channelUpdate.channel?.id *)
  channelClosed : option string;        (* channelClosed.channelId *)
  assetChannelUpdate : option string;   (* assetChannelUpdate.channelId *)
  paymentUpdate : option string }.      (* paymentUpdate.payment?.id *)

(** The generated protobuf code the client imports from [@/proto/...].
    It is not among the sources, so the client is verified for every
    implementation of this interface.  A decoder returns [None] where the
    generated code throws. *)
Class Proto := {
  (** value of one entry of [GetBalancesResponse.balances] *)
  Balance : Type;
  (** element of [GetChannelsResponse.channels] *)
  Channel : Type;
  (** a decoded message whose fields the client does not read *)
  Opaque : Type;
  (** a decoded [ClientEvent] *)
  ClientEvent : Type;
  (** [X.encode(request).finish()] *)
  encode : Request -> Result (list byte);
  decodeGetNetworksResponse : list byte -> option (list Network);
  decodeGetBalancesResponse : list byte -> option (Obj Balance);
  decodeGetChannelsResponse : list byte -> option (list Channel);
  decodeGetFeeEstimatesResponse : list byte -> option (option FeeEstimate);
  (** the decoders of the other response types *)
  decodeOpaque : MessageType -> list byte -> option Opaque;
  decodeNodeEvent : list byte -> option NodeEvent;
  decodeClientEvent : list byte -> option ClientEvent;
  (** [{ onChain: parseFloat(a) || 0, offChain: parseFloat(b) || 0 }] for
      two matches [a], [b] of [/\d+\.\d+/] *)
  textBalance : string -> string -> Balance }.

Section Client.

Context {proto : Proto}.

(** A message produced by [T.decode(reader)]. *)
Inductive Message :=
| MNetworks (networks : list Network)
| MBalances (balances : Obj Balance)
| MChannels (channels : list Channel)
| MFeeEstimates (feeEstimate : option FeeEstimate)
| MOpaque (type : MessageType) (payload : Opaque).

(** [T.decode(new BinaryReader(bytes))] for the response type [T]. *)
Definition decode (T : MessageType) (bytes : list byte) : option Message :=
  match T with
  | GetNetworksResponse => option_map MNetworks (decodeGetNetworksResponse bytes)
  | GetBalancesResponse => option_map MBalances (decodeGetBalancesResponse bytes)
  | GetChannelsResponse => option_map MChannels (decodeGetChannelsResponse bytes)
  | GetFeeEstimatesResponse => option_map MFeeEstimates (decodeGetFeeEstimatesResponse bytes)
  | _ => option_map (MOpaque T) (decodeOpaque T bytes)
  end.

(** The values [grpcCall] returns as [TResponse]. *)
Inductive Response :=
| Decoded (m : Message)
| MarketsNone                              (* { markets: [] } *)
| InitMarketSuccess                        (* { success: true, message: ... } *)
| TextBalances (balances : Obj Balance)    (* { balances } read from text *)
| TextNetworks (networks : list Network)   (* { networks } read from text *)
| EmptyObject                              (* {} *)
| TransactionsNone                         (* { transactions: [] } *)
| ChannelsNone                             (* { channels: [] } *)
| NodeIdsNone                              (* { nodeIds: [] } *)
| ZeroPrice                                (* { price: { value: '0' } } *)
| AssetsNone                               (* { assets: [] } *)
| AssetNull.                               (* { asset: null } *)

(** [result.networks] *)
Definition result_networks (result : Response) : option (list Network) :=
  match result with
  | Decoded (MNetworks l) | TextNetworks l => Some l
  | _ => None
  end.

(** [result.balances] *)
Definition result_balances (result : Response) : option (Obj Balance) :=
  match result with
  | Decoded (MBalances b) | TextBalances b => Some b
  | _ => None
  end.

(** [result.channels] *)
Definition result_channels (result : Response) : option (list Channel) :=
  match result with
  | Decoded (MChannels l) => Some l
  | ChannelsNone => Some []
  | _ => None
  end.

(** [result.feeEstimate] *)
Definition result_feeEstimate (result : Response) : option FeeEstimate :=
  match result with
  | Decoded (MFeeEstimates f) => f
  | _ => None
  end.

(** *** The outside world *)

Record HttpResponse := {
  status : nat;                    (* response.status *)
  grpcStatus : option string;      (* response.headers.get('grpc-status') *)
  grpcMessage : option string;     (* response.headers.get('grpc-message') *)
  body : list byte }.              (* the body, delivered in full *)

(** [await fetch(...)] resolves with a response or rejects. *)
Inductive FetchOutcome := Responded (response : HttpResponse) | Rejected (e : Error).

Record Sent := { url : string; frame : list byte }.

(** The lines the [catch] blocks print. *)
Inductive LogEntry :=
| GrpcCallFailed (servicePath method : string) (originalError : string)
| NetworksFailed (message : string)
| NoWalletConfigured (networkName : string)
| BalancesFailed (networkName message : string)
| ChannelsFailedFor (networkName message : string)
| ChannelsFailed (message : string)
| OperationFailed (operation message : string).

(** What the client has done so far: the requests issued, oldest first,
    and the console. *)
Record World := { requests : list Sent; console : list LogEntry }.

Definition initialWorld : World := {| requests := []; console := [] |}.

(** The environment of the client: its base URL, and the server, which
    answers the [n]-th request of a run as it pleases. *)
Class Env := {
  baseUrl : string;
  server : nat -> Sent -> FetchOutcome }.

Context {env : Env}.

(** *** Asynchronous computations *)

Definition M (A : Type) := World -> Result A * World.

Definition ret {A} (a : A) : M A := fun w => (Ok a, w).
Definition throw {A} (e : Error) : M A := fun w => (Throw e, w).
Definition bind {A B} (m : M A) (k : A -> M B) : M B :=
  fun w => match m w with
           | (Ok a, w') => k a w'
           | (Throw e, w') => (Throw e, w')
           end.
(** [try { m } catch (error) { handler }] *)
Definition tryCatch {A} (m : M A) (handler : Error -> M A) : M A :=
  fun w => match m w with
           | (Ok a, w') => (Ok a, w')
           | (Throw e, w') => handler e w'
           end.
Definition lift {A} (r : Result A) : M A := fun w => (r, w).
Definition log (l : LogEntry) : M unit :=
  fun w => (Ok tt, {| requests := requests w; console := console w ++ [l] |}).
(** [await fetch(url, { method: 'POST', headers, body })] *)
Definition fetch (url : string) (body : list byte) : M HttpResponse :=
  fun w =>
    let sent := {| url := url; frame := body |} in
    let w' := {| requests := requests w ++ [sent]; console := console w |} in
    match server (List.length (requests w)) sent with
    | Responded r => (Ok r, w')
    | Rejected e => (Throw e, w')
    end.

End Client.

Declare Scope M_scope.
Delimit Scope M_scope with M.
Notation "x <- m ;; k" := (bind m (fun x => k))
  (at level 61, m at next level, right associativity) : M_scope.
Notation "m ;; k" := (bind m (fun _ => k))
  (at level 61, right associativity) : M_scope.

(* ===================================================================== *)
(** ** Call executor: [HydraGrpcWebClient.grpcCall]                       *)
(* ===================================================================== *)

(** A block of statements either returns from the enclosing function,
    throws, or runs to its end. *)
Inductive Flow (A : Type) := Return (a : A) | Raise (e : Error) | Fallthrough.
Arguments Return {A} a.
Arguments Raise {A} e.
Arguments Fallthrough {A}.

(** [first; second] *)
Definition seq {A} (first second : Flow A) : Flow A :=
  match first with
  | Fallthrough => second
  | _ => first
  end.

(** [if (c) { block }] *)
Definition when {A} (c : bool) (block : Flow A) : Flow A :=
  if c then block else Fallthrough.

(** A function body that ends with [return last]. *)
Definition endWith {A} (f : Flow A) (last : A) : Result A :=
  match f with
  | Return a => Ok a
  | Raise e => Throw e
  | Fallthrough => Ok last
  end.

(** A function body that ends with [throw last]. *)
Definition endThrowing {A} (f : Flow A) (last : Error) : Result A :=
  match f with
  | Return a => Ok a
  | Raise e => Throw e
  | Fallthrough => Throw last
  end.

Infix ">>>" := seq (at level 62, right associativity).

Definition nl : string := String (ascii_of_nat 10) EmptyString.

Section Executor.

Context {proto : Proto} {env : Env}.

(** The body of each [try] that decodes a response:
    [responseBytes = new Uint8Array(responseData, 5)], then
    [T.decode(new BinaryReader(responseBytes))].  [None] when either
    statement throws. *)
Definition decodeFramed (T : MessageType) (responseData : list byte) : option Message :=
  match Frame.decodeFrame responseData with
  | Ok responseBytes => decode T responseBytes
  | Throw _ => None
  end.

(** [try { return decoded } catch { /* fall back below */ }] *)
Definition tryDecode (T : MessageType) (responseData : list byte) : Flow Response :=
  match decodeFramed T responseData with
  | Some decoded => Return (Decoded decoded)
  | None => Fallthrough
  end.

(** [try { return decoded } catch { return fallback }] *)
Definition tryDecodeOr (T : MessageType) (responseData : list byte)
           (fallback : Response) : Flow Response :=
  match decodeFramed T responseData with
  | Some decoded => Return (Decoded decoded)
  | None => Return fallback
  end.

Definition failedToDecode (method : string) : Error :=
  MkError ErrorK ("Failed to decode " ++ method ++ " response")%string None.

(** [try { return decoded } catch { throw new Error(`Failed to decode ...`) }] *)
Definition tryDecodeOrThrow (T : MessageType) (responseData : list byte)
           (method : string) : Flow Response :=
  match decodeFramed T responseData with
  | Some decoded => Return (Decoded decoded)
  | None => Raise (failedToDecode method)
  end.

(** [servicePath === s && method === m] *)
Definition isCall (servicePath method s m : string) : bool :=
  String.eqb servicePath s && String.eqb method m.

(** The second [await response.arrayBuffer()] on a response whose body
    was read already rejects with a [TypeError]. *)
Definition bodyAlreadyRead : Error :=
  MkError TypeErrorK "body stream already read" None.

(** The block of the rental service: one [try] around the frame strip and
    the four decoders. *)
Definition rentalBlock (method : string) (responseData : list byte) : Flow Response :=
  match Frame.decodeFrame responseData with
  | Throw _ => Raise (failedToDecode method)
  | Ok responseBytes =>
      let decodeOrThrow T :=
        match decode T responseBytes with
        | Some decoded => Return (Decoded decoded)
        | None => Raise (failedToDecode method)
        end in
      when (String.eqb method "GetRentalNodeInfo") (decodeOrThrow GetRentalNodeInfoResponse)
      >>> when (String.eqb method "GetRentableAssetInfo") (decodeOrThrow GetRentableAssetInfoResponse)
      >>> when (String.eqb method "EstimateRentChannelFee") (decodeOrThrow EstimateRentChannelFeeResponse)
      >>> when (String.eqb method "RentChannel") (decodeOrThrow RentChannelResponse)
  end.

(** The first [if (response.status === 200) { ... }] of the branch without
    a [grpc-status] header: structured decoding per method. *)
Definition decodeWithoutStatus (servicePath method : string)
           (responseData : list byte) : Flow Response :=
  when (String.eqb servicePath "hydra_app.OrderbookService"
        && arrayIncludes ["GetMarketsInfo"; "GetInitializedMarkets"] method)
    (when (String.eqb method "GetInitializedMarkets")
       (tryDecodeOr GetInitializedMarketsResponse responseData MarketsNone)
     >>> when (String.eqb method "GetMarketsInfo")
       (tryDecodeOr GetMarketsInfoResponse responseData MarketsNone))
  >>> when (String.eqb servicePath "hydra_app.RentalService")
    (rentalBlock method responseData >>> Raise bodyAlreadyRead)
  >>> when (isCall servicePath method "hydra_app.AppService" "GetNetworks")
    (tryDecode GetNetworksResponse responseData)
  >>> when (isCall servicePath method "hydra_app.BlockchainService" "GetFeeEstimates")
    (tryDecode GetFeeEstimatesResponse responseData)
  >>> when (isCall servicePath method "hydra_app.ClientService" "GetDepositAddress")
    (tryDecodeOrThrow GetDepositAddressResponse responseData method)
  >>> when (isCall servicePath method "hydra_app.WalletService" "GetBalances")
    (tryDecode GetBalancesResponse responseData)
  >>> when (isCall servicePath method "hydra_app.PricingService" "GetAssetFiatPrice")
    (tryDecode GetAssetFiatPriceResponse responseData)
  >>> when (isCall servicePath method "hydra_app.AssetService" "GetAssets")
    (tryDecode GetAssetsResponse responseData)
  >>> when (isCall servicePath method "hydra_app.WalletService" "GetTransactions")
    (tryDecode GetTransactionsResponse responseData)
  >>> when (isCall servicePath method "hydra_app.WatchOnlyNodeService" "GetChannels")
    (tryDecode GetChannelsResponse responseData)
  >>> when (isCall servicePath method "hydra_app.NodeService" "GetConnectedPeers")
    (tryDecode GetConnectedPeersResponse responseData)
  >>> when (isCall servicePath method "hydra_app.NodeService" "EstimateOpenChannelFee")
    (tryDecode EstimateOpenChannelFeeResponse responseData)
  >>> when (isCall servicePath method "hydra_app.NodeService" "OpenChannel")
    (tryDecode OpenChannelResponse responseData).

(** The balances read from the text of a [GetBalances] response. *)
Definition parseBalancesText (responseText : string) : Obj Balance :=
  match matchFirst assetIdPattern responseText with
  | Some assetId =>
      match matchAll decimalPattern responseText with
      | a0 :: a1 :: _ => [(assetId, textBalance a0 a1)]
      | _ => []
      end
  | None => []
  end.

(** [/^[a-f0-9]{8}$/i.test(s)] *)
Definition isHex8 (s : string) : bool :=
  match hex8Pattern s with
  | Some m => String.eqb m s
  | None => false
  end.

(** The networks read from the text of a [GetNetworks] response. *)
Definition parseNetworksText (responseText : string) : list Network :=
  let bitcoin :=
    match matchFirst hex8Pattern responseText with
    | Some m => [m]
    | None => []
    end in
  let evm :=
    filter (fun id => (0 <? parseInt id)%N && (parseInt id <? 100000000)%N)
           (matchAll digits6to8Pattern responseText) in
  let networkIds := bitcoin ++ evm in
  let networkIdMatches := dedupe [] networkIds in
  filter (fun network => 0 <? String.length (id network))
    (map (fun networkId =>
            let cleanId := trim networkId in
            let isBitcoin := (String.length cleanId =? 8) && isHex8 cleanId in
            let isKnownEvm :=
              arrayIncludes ["1"; "11155111"; "421614"; "42161"; "137"; "56"; "10"; "43114"]
                            cleanId in
            {| protocol := if isKnownEvm then EVM else if isBitcoin then BITCOIN else EVM;
               id := cleanId |})
         networkIdMatches).

(** The second [if (response.status === 200) { ... }] of the branch
    without a [grpc-status] header: the text workarounds. *)
Definition textWorkarounds (servicePath method responseText : string) : Flow Response :=
  (if isCall servicePath method "hydra_app.WalletService" "GetBalances"
      || isCall servicePath method "hydra_app.OrderbookService" "InitMarket"
   then
     when (includes responseText "grpc-status:0")
       (when (isCall servicePath method "hydra_app.OrderbookService" "InitMarket")
          (Return InitMarketSuccess)
        >>> Return (TextBalances (parseBalancesText responseText)))
   else
     when (String.eqb servicePath "hydra_app.OrderbookService"
           && (String.eqb method "GetMarketsInfo" || String.eqb method "GetInitializedMarkets"))
       (Return MarketsNone))
  >>> when (isCall servicePath method "hydra_app.NodeService" "ConnectToPeer"
            && includes responseText "grpc-status:0")
    (Return EmptyObject)
  >>> when (isCall servicePath method "hydra_app.AppService" "GetNetworks"
            && includes responseText "grpc-status:0")
    (Return (TextNetworks (parseNetworksText responseText))).

Definition noGrpcHeaders (response : HttpResponse) : Error :=
  MkError ErrorK
    ("No gRPC headers in response. HTTP status: "
     ++ numberToString (N.of_nat (status response))
     ++ ". This suggests the server isn't handling gRPC-Web properly.")%string
    None.

(** The branch [if (grpcStatus === null) { ... }]. *)
Definition withoutStatus (servicePath method : string) (response : HttpResponse)
  : Result Response :=
  endThrowing
    (when (status response =? 200)
       (decodeWithoutStatus servicePath method (body response))
     >>> let responseText := text (body response) in
         when (status response =? 200)
           (textWorkarounds servicePath method responseText))
    (noGrpcHeaders response).

(** The branch [if (grpcStatus === '0') { ... }]. *)
Definition withStatusZero (servicePath method : string) (responseData : list byte)
  : Result Response :=
  endWith
    (when (isCall servicePath method "hydra_app.AppService" "GetNetworks")
       (tryDecode GetNetworksResponse responseData)
     >>> when (isCall servicePath method "hydra_app.WalletService" "GetBalances")
       (tryDecode GetBalancesResponse responseData)
     >>> when (isCall servicePath method "hydra_app.BlockchainService" "GetFeeEstimates")
       (tryDecode GetFeeEstimatesResponse responseData)
     >>> when (isCall servicePath method "hydra_app.WalletService" "GetTransactions")
       (tryDecodeOr GetTransactionsResponse responseData TransactionsNone)
     >>> when (isCall servicePath method "hydra_app.WatchOnlyNodeService" "GetChannels")
       (tryDecodeOr GetChannelsResponse responseData ChannelsNone)
     >>> when (isCall servicePath method "hydra_app.NodeService" "GetConnectedPeers")
       (tryDecodeOr GetConnectedPeersResponse responseData NodeIdsNone)
     >>> when (isCall servicePath method "hydra_app.PricingService" "GetAssetFiatPrice")
       (tryDecodeOr GetAssetFiatPriceResponse responseData ZeroPrice)
     >>> when (isCall servicePath method "hydra_app.AssetService" "GetAssets")
       (tryDecodeOr GetAssetsResponse responseData AssetsNone)
     >>> when (isCall servicePath method "hydra_app.AssetService" "GetAsset")
       (tryDecodeOr GetAssetResponse responseData AssetNull))
    EmptyObject.

Definition grpcError (response : HttpResponse) : Error :=
  MkError ErrorK
    ("gRPC error: status=" ++ nullable (grpcStatus response)
     ++ ", message=" ++ nullable (grpcMessage response))%string
    None.

(** What [grpcCall] does with the response of [fetch]. *)
Definition handleResponse (servicePath method : string) (response : HttpResponse)
  : Result Response :=
  match grpcStatus response with
  | None => withoutStatus servicePath method response
  | Some s =>
      if String.eqb s "0" then withStatusZero servicePath method (body response)
      else Throw (grpcError response)
  end.

(** The diagnosis the [catch] block of [grpcCall] attaches. *)
Inductive Diagnosis :=
| NetworkConnectionFailed | CorsError | RequestTimeout
| ConnectionRefused | UnexpectedError.

Definition diagnose (error : Error) : Diagnosis :=
  if ErrorName_eqb (name error) TypeErrorK && String.eqb (message error) "Failed to fetch"
  then NetworkConnectionFailed
  else if includes (message error) "CORS" then CorsError
  else if includes (message error) "timeout" then RequestTimeout
  else if includes (message error) "refused" then ConnectionRefused
  else UnexpectedError.

(** [[...].join('\n')] of the lines of each diagnosis. *)
Definition diagnosisText (d : Diagnosis) : string :=
  String.concat nl
    match d with
    | NetworkConnectionFailed =>
        [ ("🔌 Network connection failed to " ++ baseUrl)%string;
          "• Check if Hydra backend is running on port 5001";
          "• Verify CORS is enabled for gRPC-Web requests";
          ("• Test basic connectivity: curl " ++ baseUrl)%string;
          "• Check browser dev tools Network tab for details" ]
    | CorsError =>
        [ "🌐 CORS (Cross-Origin Resource Sharing) error";
          "• Hydra backend needs to allow origin: http://localhost:3000";
          "• Required CORS headers: Access-Control-Allow-Origin, Access-Control-Allow-Headers";
          "• Required methods: POST, OPTIONS";
          "• Required headers: content-type, x-grpc-web, x-user-agent" ]
    | RequestTimeout =>
        [ "⏱️ Request timeout";
          "• Hydra backend may be overloaded or unresponsive";
          "• Check backend logs for processing delays";
          "• Consider increasing timeout values" ]
    | ConnectionRefused =>
        [ "🚫 Connection refused";
          "• Port 5001 is not accepting connections";
          "• Hydra backend may not be running";
          "• Check if another service is using port 5001";
          "• Verify backend configuration" ]
    | UnexpectedError =>
        [ "❓ Unexpected error during gRPC call";
          "• Check browser console for additional details";
          "• Verify request format and encoding";
          "• Check Hydra backend logs for server-side errors" ]
    end.

(** The error [grpcCall] throws in place of [error]: named
    [GrpcCallError], with [error] as its cause. *)
Definition enhancedError (servicePath method : string) (error : Error) : Error :=
  MkError GrpcCallErrorK
    ("gRPC call to " ++ servicePath ++ "/" ++ method ++ " failed:" ++ nl
     ++ diagnosisText (diagnose error))%string
    (Some error).

Local Open Scope M_scope.

(** [grpcCall(servicePath, method, request, requestEncoder)] *)
Definition grpcCall (servicePath method : string) (request : Request) : M Response :=
  let url := (baseUrl ++ "/" ++ servicePath ++ "/" ++ method)%string in
  tryCatch
    (messageBytes <- lift (encode request);;
     let frame := Frame.encodeFrame messageBytes in
     response <- fetch url frame;;
     lift (handleResponse servicePath method response))
    (fun error =>
       log (GrpcCallFailed servicePath method (message error));;
       throw (enhancedError servicePath method error)).

End Executor.

(* ===================================================================== *)
(** ** Operations of the client                                          *)
(* ===================================================================== *)

Section Operations.

Context {proto : Proto} {env : Env}.
Local Open Scope M_scope.

(** [network.protocol === Protocol.BITCOIN ? `Bitcoin ${id}` : `EVM ${id}`] *)
Definition networkName (network : Network) : string :=
  match protocol network with
  | BITCOIN => ("Bitcoin " ++ id network)%string
  | EVM => ("EVM " ++ id network)%string
  end.

(** [getNetworks()] *)
Definition getNetworks : M (list Network) :=
  tryCatch
    (result <- grpcCall "hydra_app.AppService" "GetNetworks" GetNetworksRequest;;
     ret (match result_networks result with Some networks => networks | None => [] end))
    (fun error =>
       log (NetworksFailed (message error));;
       ret []).

(** The [for] loop of [getBalances] over the configured networks, with
    its two accumulators. *)
Fixpoint getBalances_loop (networks : list Network) (allBalances : Obj Balance)
         (successCount : nat) : M (Obj Balance * nat) :=
  match networks with
  | [] => ret (allBalances, successCount)
  | network :: rest =>
      acc <- tryCatch
               (result <- grpcCall "hydra_app.WalletService" "GetBalances"
                                   (GetBalancesRequest network);;
                match result_balances result with
                | Some balances => ret (assign allBalances balances, S successCount)
                | None => ret (allBalances, S successCount)
                end)
               (fun error =>
                  (if includes (message error) "internal server error"
                      || includes (message error) "grpc-status: 3"
                   then log (NoWalletConfigured (networkName network))
                   else log (BalancesFailed (networkName network) (message error)));;
                  ret (allBalances, successCount));;
      getBalances_loop rest (fst acc) (snd acc)
  end.

(** [getBalances()]: the record [{ balances }]. *)
Definition getBalances : M (Obj Balance) :=
  configuredNetworks <- getNetworks;;
  if List.length configuredNetworks =? 0 then ret []
  else
    acc <- getBalances_loop configuredNetworks [] 0;;
    ret (fst acc).

(** The [for] loop of [getChannels]. *)
Fixpoint getChannels_loop (networks : list Network) (allChannels : list Channel)
  : M (list Channel) :=
  match networks with
  | [] => ret allChannels
  | network :: rest =>
      allChannels' <-
        tryCatch
          (result <- grpcCall "hydra_app.WatchOnlyNodeService" "GetChannels"
                              (GetChannelsRequest network);;
           match result_channels result with
           | Some channels => ret (allChannels ++ channels)
           | None => ret allChannels
           end)
          (fun error =>
             log (ChannelsFailedFor (networkName network) (message error));;
             ret allChannels);;
      getChannels_loop rest allChannels'
  end.

(** [getChannels()] *)
Definition getChannels : M (list Channel) :=
  tryCatch
    (networks <- getNetworks;;
     if List.length networks =? 0 then ret []
     else getChannels_loop networks [])
    (fun error =>
       log (ChannelsFailed (message error));;
       ret []).

















(** The value of [getFeeEstimates]: [{ low, medium, high }]. *)
Record FeeEstimates := { feeLow : FeeRate; feeMedium : FeeRate; feeHigh : FeeRate }.

Definition feeRateOf (base tip price : string) : FeeRate :=
  {| baseFeePerUnit := base; maxTipFeePerUnit := tip; maxPricePerUnit := price |}.

(** The fallbacks of [getFeeEstimates] for a Bitcoin network. *)
Definition bitcoinFallbackFees : FeeEstimates :=
  {| feeLow := feeRateOf "5" "0" "5";
     feeMedium := feeRateOf "15" "0" "15";
     feeHigh := feeRateOf "30" "0" "30" |}.

(** The fallbacks of [getFeeEstimates] for an EVM network (in wei). *)
Definition evmFallbackFees : FeeEstimates :=
  {| feeLow := feeRateOf "8000000000" "1000000000" "9000000000";
     feeMedium := feeRateOf "12000000000" "2000000000" "14000000000";
     feeHigh := feeRateOf "20000000000" "3000000000" "23000000000" |}.

(** [x || fallback] *)
Definition orDefault {A} (x : option A) (fallback : A) : A :=
  match x with Some a => a | None => fallback end.

(** [getFeeEstimates(network)] *)
Definition getFeeEstimates (network : Network) : M FeeEstimates :=
  tryCatch
    (result <- grpcCall "hydra_app.BlockchainService" "GetFeeEstimates"
                        (GetFeeEstimatesRequest network);;
     match result_feeEstimate result with
     | None => throw (MkError ErrorK "No fee estimate returned from backend" None)
     | Some feeEstimate =>
         ret {| feeLow := orDefault (low feeEstimate) (feeLow bitcoinFallbackFees);
                feeMedium := orDefault (medium feeEstimate) (feeMedium bitcoinFallbackFees);
                feeHigh := orDefault (high feeEstimate) (feeHigh bitcoinFallbackFees) |}
     end)
    (fun error =>
       log (OperationFailed ("getFeeEstimates " ++ id network) (message error));;
       match protocol network with
       | BITCOIN => ret bitcoinFallbackFees
       | EVM => ret evmFallbackFees
       end).

End Operations.

(* ===================================================================== *)
(** ** Stream subscriber: [subscribeToNodeEvents], [subscribeToClientEvents] *)
(* ===================================================================== *)

Module Stream.

(** The [ReadableStreamDefaultReader] of the response body. *)
Inductive ReaderState := Readable | Closed | Errored.

(** The closure state of one call of [subscribeTo...Events] that reached
    [processStream()]. *)
Record Subscription := {
  isActive : bool;        (* let isActive *)
  reader : ReaderState;   (* reader *)
  running : bool;         (* processStream is awaiting reader.read() *)
  hasOnError : bool }.    (* onError was supplied *)

(** What the network does to a pending [reader.read()]. *)
Inductive NetInput :=
| Chunk (value : list byte)     (* resolves { done: false, value } *)
| EndOfStream                   (* resolves { done: true } *)
| ReadError (e : Error).        (* rejects *)

(** What the subscriber does in response.  The handlers are those of the
    hooks, which do not throw; a throwing [onEvent] would land in the
    [catch] of the decoder and be reported by the same warning. *)
Inductive Output (Ev : Type) :=
| CallOnEvent (ev : Ev)         (* onEvent(event) *)
| CallOnError (e : Error)       (* onError(error) *)
| ConsoleWarn.                  (* console.warn('Failed to decode ...') *)
Arguments CallOnEvent {Ev} ev.
Arguments CallOnError {Ev} e.
Arguments ConsoleWarn {Ev}.

(** How [fetch] and the checks before [processStream()] end. *)
Inductive ConnectOutcome :=
| StreamOpened                                  (* a reader was obtained *)
| FetchRejected (e : Error)                     (* fetch, or the encoder, threw *)
| HttpNotOk (status : nat) (statusText : string)   (* !response.ok *)
| NoBodyReader.                                 (* response.body is missing *)

(** The error that reaches the [catch] of [subscribeTo...Events]. *)
Definition connectError (o : ConnectOutcome) : option Error :=
  match o with
  | StreamOpened => None
  | FetchRejected e => Some e
  | HttpNotOk status statusText =>
      Some (MkError ErrorK
              ("HTTP " ++ numberToString (N.of_nat status) ++ ": " ++ statusText)%string None)
  | NoBodyReader => Some (MkError ErrorK "No response body reader available" None)
  end.

(** The state in which [subscribeTo...Events] returns [unsubscribe]. *)
Definition opened (withOnError : bool) : Subscription :=
  {| isActive := true; reader := Readable; running := true; hasOnError := withOnError |}.

(** [unsubscribe()]: [isActive = false; reader.cancel()].  Cancelling a
    readable stream closes it and resolves the pending read with
    [{ done: true }], on which the loop breaks. *)
Definition unsubscribe (s : Subscription) : Subscription :=
  match reader s with
  | Readable =>
      {| isActive := false; reader := Closed; running := false; hasOnError := hasOnError s |}
  | _ =>
      {| isActive := false; reader := reader s; running := running s;
         hasOnError := hasOnError s |}
  end.

Section ProcessStream.

Context {Ev : Type} (decodeEvent : list byte -> option Ev).

(** The inner [try] of the loop: strip, decode, dispatch. *)
Definition onChunk (value : list byte) : list (Output Ev) :=
  match Frame.decodeStreamFrame value with
  | Ok eventData =>
      match decodeEvent eventData with
      | Some event => [CallOnEvent event]
      | None => [ConsoleWarn]
      end
  | Throw _ => [ConsoleWarn]
  end.

(** One turn of [processStream]: the pending read settles. *)
Definition processStream (s : Subscription) (i : NetInput)
  : Subscription * list (Output Ev) :=
  if running s && match reader s with Readable => true | _ => false end then
    match i with
    | Chunk value =>
        ({| isActive := isActive s; reader := Readable;
            running := isActive s;                      (* while (isActive) *)
            hasOnError := hasOnError s |},
         onChunk value)
    | EndOfStream =>
        ({| isActive := isActive s; reader := Closed; running := false;
            hasOnError := hasOnError s |}, [])          (* if (done) break *)
    | ReadError e =>
        ({| isActive := isActive s; reader := Errored; running := false;
            hasOnError := hasOnError s |},
         if isActive s && hasOnError s then [CallOnError e] else [])
    end
  else (s, []).

(** The subscriber fed a sequence of network inputs. *)
Fixpoint feed (s : Subscription) (inputs : list NetInput)
  : Subscription * list (Output Ev) :=
  match inputs with
  | [] => (s, [])
  | i :: rest =>
      let '(s1, out1) := processStream s i in
      let '(s2, out2) := feed s1 rest in
      (s2, out1 ++ out2)
  end.

End ProcessStream.

End Stream.

(* ===================================================================== *)
(** ** Cache invalidation: the hooks of [useRealHydraData.ts]            *)
(* ===================================================================== *)

Module Hooks.

Import Stream.

(** A query key, e.g. [['hydra', 'channels']]. *)
Definition QueryKey := list string.

Definition channelsKey : QueryKey := ["hydra"; "channels"].
Definition balancesKey : QueryKey := ["hydra"; "balances"].
Definition paymentsKey : QueryKey := ["hydra"; "payments"].
Definition peersKey : QueryKey := ["hydra"; "peers"].

(** What a [setTimeout] callback of the hooks does. *)
Inductive TimerAction :=
| Reconnect                       (* if (mounted && network) connectToEvents() *)
| Invalidate (key : QueryKey).    (* queryClient.invalidateQueries({ queryKey }) *)

(** A pending [setTimeout(callback, delay)], the delay in milliseconds. *)
Record Timer := { delay : nat; action : TimerAction }.

(** The query client and the timer queue. *)
Record Browser := {
  invalidated : list QueryKey;    (* calls of invalidateQueries, oldest first *)
  timers : list Timer }.          (* pending timers, oldest first *)

Definition invalidateQueries (key : QueryKey) (b : Browser) : Browser :=
  {| invalidated := invalidated b ++ [key]; timers := timers b |}.

Definition setTimeout (a : TimerAction) (ms : nat) (b : Browser) : Browser :=
  {| invalidated := invalidated b; timers := timers b ++ [{| delay := ms; action := a |}] |}.

(** [useConnectToPeer]: [onSuccess]. *)
Definition connectToPeer_onSuccess (b : Browser) : Browser :=
  setTimeout (Invalidate peersKey) 5000
    (setTimeout (Invalidate peersKey) 2000
       (invalidateQueries peersKey b)).

(** The state of one run of the effect of [useNodeEventStream] or
    [useClientEventStream]. *)
Record Hook (Ev : Type) := {
  mounted : bool;                          (* let mounted *)
  capturedUnsubscribe : option nat;        (* [unsubscribe] as the cleanup closure sees it *)
  unsubscribeState : option nat;           (* the React state [unsubscribe] *)
  isConnected : bool;
  lastEvent : option Ev;
  subscriptions : list Subscription;       (* every stream opened, oldest first *)
  connecting : nat;                        (* calls of connectToEvents awaiting subscribe *)
  calls : list (Output Ev);                (* what the subscribers invoked, oldest first *)
  browser : Browser }.
Arguments mounted {Ev} h.
Arguments capturedUnsubscribe {Ev} h.
Arguments unsubscribeState {Ev} h.
Arguments isConnected {Ev} h.
Arguments lastEvent {Ev} h.
Arguments subscriptions {Ev} h.
Arguments connecting {Ev} h.
Arguments calls {Ev} h.
Arguments browser {Ev} h.

Section Setters.
Context {Ev : Type}.

Definition withBrowser (f : Browser -> Browser) (h : Hook Ev) : Hook Ev :=
  {| mounted := mounted h; capturedUnsubscribe := capturedUnsubscribe h;
     unsubscribeState := unsubscribeState h; isConnected := isConnected h;
     lastEvent := lastEvent h; subscriptions := subscriptions h;
     connecting := connecting h; calls := calls h; browser := f (browser h) |}.

Definition setLastEvent (ev : Ev) (h : Hook Ev) : Hook Ev :=
  {| mounted := mounted h; capturedUnsubscribe := capturedUnsubscribe h;
     unsubscribeState := unsubscribeState h; isConnected := isConnected h;
     lastEvent := Some ev; subscriptions := subscriptions h;
     connecting := connecting h; calls := calls h; browser := browser h |}.

Definition setIsConnected (c : bool) (h : Hook Ev) : Hook Ev :=
  {| mounted := mounted h; capturedUnsubscribe := capturedUnsubscribe h;
     unsubscribeState := unsubscribeState h; isConnected := c;
     lastEvent := lastEvent h; subscriptions := subscriptions h;
     connecting := connecting h; calls := calls h; browser := browser h |}.

Definition setUnsubscribe (i : nat) (h : Hook Ev) : Hook Ev :=
  {| mounted := mounted h; capturedUnsubscribe := capturedUnsubscribe h;
     unsubscribeState := Some i; isConnected := isConnected h;
     lastEvent := lastEvent h; subscriptions := subscriptions h;
     connecting := connecting h; calls := calls h; browser := browser h |}.

Definition setMounted (m : bool) (h : Hook Ev) : Hook Ev :=
  {| mounted := m; capturedUnsubscribe := capturedUnsubscribe h;
     unsubscribeState := unsubscribeState h; isConnected := isConnected h;
     lastEvent := lastEvent h; subscriptions := subscriptions h;
     connecting := connecting h; calls := calls h; browser := browser h |}.

Definition setSubscriptions (l : list Subscription) (h : Hook Ev) : Hook Ev :=
  {| mounted := mounted h; capturedUnsubscribe := capturedUnsubscribe h;
     unsubscribeState := unsubscribeState h; isConnected := isConnected h;
     lastEvent := lastEvent h; subscriptions := l;
     connecting := connecting h; calls := calls h; browser := browser h |}.

Definition setConnecting (n : nat) (h : Hook Ev) : Hook Ev :=
  {| mounted := mounted h; capturedUnsubscribe := capturedUnsubscribe h;
     unsubscribeState := unsubscribeState h; isConnected := isConnected h;
     lastEvent := lastEvent h; subscriptions := subscriptions h;
     connecting := n; calls := calls h; browser := browser h |}.

Definition record (o : Output Ev) (h : Hook Ev) : Hook Ev :=
  {| mounted := mounted h; capturedUnsubscribe := capturedUnsubscribe h;
     unsubscribeState := unsubscribeState h; isConnected := isConnected h;
     lastEvent := lastEvent h; subscriptions := subscriptions h;
     connecting := connecting h; calls := calls h ++ [o]; browser := browser h |}.

End Setters.

(** [if (x) { invalidate a; invalidate b }] for an optional payload. *)
Definition whenPresent {A} (x : option A) (keys : list QueryKey) (b : Browser) : Browser :=
  match x with
  | Some _ => fold_left (fun b k => invalidateQueries k b) keys b
  | None => b
  end.

(** [useNodeEventStream]: [handleNodeEvent]. *)
Definition handleNodeEvent (event : NodeEvent) (h : Hook NodeEvent) : Hook NodeEvent :=
  if negb (mounted h) then h
  else
    withBrowser
      (fun b =>
         whenPresent (paymentUpdate event) [paymentsKey; balancesKey]
           (whenPresent (assetChannelUpdate event) [channelsKey; balancesKey]
              (whenPresent (channelClosed event) [channelsKey; balancesKey]
                 (whenPresent (channelUpdate event) [channelsKey; balancesKey] b))))
      (setLastEvent event h).

(** [useNodeEventStream]: [handleError]. *)
Definition handleNodeError (error : Error) (h : Hook NodeEvent) : Hook NodeEvent :=
  if negb (mounted h) then h
  else withBrowser (setTimeout Reconnect 5000) (setIsConnected false h).

Section ClientHandlers.
Context {proto : Proto}.

(** [useClientEventStream]: [handleClientEvent]. *)
Definition handleClientEvent (event : ClientEvent) (h : Hook ClientEvent)
  : Hook ClientEvent :=
  if negb (mounted h) then h
  else withBrowser (invalidateQueries balancesKey) (setLastEvent event h).

(** [useClientEventStream]: [handleError]. *)
Definition handleClientError (error : Error) (h : Hook ClientEvent) : Hook ClientEvent :=
  if negb (mounted h) then h
  else setIsConnected false h.
End ClientHandlers.

(** What can happen to a mounted effect. *)
Inductive Input :=
| Net (i : nat) (x : NetInput)           (* the network, on the i-th stream opened *)
| CallHandle (i : nat)                   (* the unsubscribe function of the i-th stream *)
| Disconnect                             (* the hook's [disconnect], when not null *)
| TimerFires (n : nat)                   (* the n-th pending timer *)
| ConnectResolves (o : ConnectOutcome)   (* a pending subscribe call settles *)
| Cleanup.                               (* the cleanup function of the effect *)

Section Effect.

Context {Ev : Type}
        (decodeEvent : list byte -> option Ev)
        (handleEvent : Ev -> Hook Ev -> Hook Ev)
        (handleError : Error -> Hook Ev -> Hook Ev).

(** The subscriber invokes a handler of the hook. *)
Definition dispatch (h : Hook Ev) (o : Output Ev) : Hook Ev :=
  match o with
  | CallOnEvent ev => handleEvent ev (record o h)
  | CallOnError e => handleError e (record o h)
  | ConsoleWarn => h
  end.

(** [connectToEvents()] up to its [await]. *)
Definition connectToEvents (h : Hook Ev) : Hook Ev :=
  setConnecting (S (connecting h)) (setIsConnected false h).

(** [connectToEvents()] after its [await]: [subscribeTo...Events]
    returned a handle or threw. *)
Definition connectSettled (o : ConnectOutcome) (h : Hook Ev) : Hook Ev :=
  match connecting h with
  | O => h
  | S pending =>
      let h := setConnecting pending h in
      match connectError o with
      | None =>
          let i := List.length (subscriptions h) in
          let h := setSubscriptions (subscriptions h ++ [opened true]) h in
          if mounted h then setIsConnected true (setUnsubscribe i h) else h
      | Some error =>
          (* catch of subscribeTo...Events: onError(error); throw error *)
          let h := dispatch h (CallOnError error) in
          (* catch of connectToEvents *)
          setIsConnected false h
      end
  end.

(** The i-th handle is called. *)
Definition callHandle (i : nat) (h : Hook Ev) : Hook Ev :=
  match nth_error (subscriptions h) i with
  | Some s =>
      setSubscriptions
        (firstn i (subscriptions h) ++ unsubscribe s :: skipn (S i) (subscriptions h)) h
  | None => h
  end.

Definition removeNth {A} (n : nat) (l : list A) : list A :=
  firstn n l ++ skipn (S n) l.

(** One event of the life of the effect. *)
Definition step (h : Hook Ev) (i : Input) : Hook Ev :=
  match i with
  | Net k x =>
      match nth_error (subscriptions h) k with
      | Some s =>
          let '(s', out) := processStream decodeEvent s x in
          let h :=
            setSubscriptions
              (firstn k (subscriptions h) ++ s' :: skipn (S k) (subscriptions h)) h in
          fold_left dispatch out h
      | None => h
      end
  | CallHandle k => callHandle k h
  | Disconnect =>
      match unsubscribeState h with
      | Some k => callHandle k h
      | None => h
      end
  | TimerFires n =>
      match nth_error (timers (browser h)) n with
      | Some t =>
          let h :=
            withBrowser
              (fun b => {| invalidated := invalidated b;
                           timers := removeNth n (timers b) |}) h in
          match action t with
          | Reconnect => if mounted h then connectToEvents h else h
          | Invalidate key => withBrowser (invalidateQueries key) h
          end
      | None => h
      end
  | ConnectResolves o => connectSettled o h
  | Cleanup =>
      let h := setMounted false h in
      let h :=
        match capturedUnsubscribe h with
        | Some k => callHandle k h
        | None => h
        end in
      setIsConnected false h
  end.

Definition run (h : Hook Ev) (inputs : list Input) : Hook Ev :=
  fold_left step inputs h.

(** The effect right after it ran, with the streams [previous] runs left
    behind: [mounted = true] and
    [connectToEvents()] started. *)
Definition mount (previous : list Subscription) (captured : option nat) : Hook Ev :=
  {| mounted := true; capturedUnsubscribe := captured; unsubscribeState := captured;
     isConnected := false; lastEvent := None; subscriptions := previous;
     connecting := 1; calls := [];
     browser := {| invalidated := []; timers := [] |} |}.

End Effect.

End Hooks.


(* ===================================================================== *)
(** ** Definitions used to state the properties                          *)
(* ===================================================================== *)

(** A stand-in for the generated code, to run the client on concrete
    inputs.  Like every protobuf decoder it maps the empty buffer to the
    default message; it accepts no other buffer.  Every request is encoded
    as the empty message. *)
Definition emptyOnly {A} (default : A) (bytes : list byte) : option A :=
  match bytes with
  | [] => Some default
  | _ :: _ => None
  end.

Definition emptyNodeEvent : NodeEvent :=
  {| channelUpdate := None; channelClosed := None;
     assetChannelUpdate := None; paymentUpdate := None |}.

Definition emptyMessages : Proto :=
  {| Balance := string * string;
     Channel := string;
     Opaque := unit;
     ClientEvent := unit;
     encode := fun _ => Ok [];
     decodeGetNetworksResponse := emptyOnly [];
     decodeGetBalancesResponse := emptyOnly [];
     decodeGetChannelsResponse := emptyOnly [];
     decodeGetFeeEstimatesResponse := emptyOnly None;
     decodeOpaque := fun _ => emptyOnly tt;
     decodeNodeEvent := emptyOnly emptyNodeEvent;
     decodeClientEvent := emptyOnly tt;
     textBalance := pair |}.

(** The ASCII bytes of a string, as a response body. *)
Definition bodyOf (s : string) : list byte := list_byte_of_string s.

(** A response with HTTP status 200 and no [grpc-status] header. *)
Definition plain200 (b : list byte) : HttpResponse :=
  {| status := 200; grpcStatus := None; grpcMessage := None; body := b |}.

(** A server that answers every request with the same response. *)
Definition constantServer (r : HttpResponse) : Env :=
  {| baseUrl := "http://localhost:5001"; server := fun _ _ => Responded r |}.


(** An endpoint that lists two networks and answers every other call with
    an error page: HTTP 200, no [grpc-status] header. *)
Definition errorPageServer : Env :=
  {| baseUrl := "http://localhost:5001";
     server := fun _ sent =>
       if includes (url sent) "GetNetworks"
       then Responded (plain200 (bodyOf "grpc-status:0 0a03cf40 11155111"))
       else Responded (plain200 (bodyOf "<html>502 Bad Gateway</html>")) |}.

Definition assetA : string :=
  "0x00000000000000000000000000000000000000000000000000000000000000aa".

(** An endpoint with three networks.  The balances of the first and of the
    third are served as text, both for the asset [assetA]; the request for
    the second is refused. *)
Definition threeNetworksServer : Env :=
  {| baseUrl := "http://localhost:5001";
     server := fun n _ =>
       match n with
       | 0 => Responded (plain200 (bodyOf "grpc-status:0 0a03cf40 11155111 421614"))
       | 1 => Responded (plain200 (bodyOf ("grpc-status:0 " ++ assetA ++ " 1.5 2.5")))
       | 2 => Rejected (MkError TypeErrorK "Failed to fetch" None)
       | _ => Responded (plain200 (bodyOf ("grpc-status:0 " ++ assetA ++ " 7.0 8.0")))
       end |}.

(** A response of five zero bytes: the header of a frame whose message is
    empty. *)
Definition emptyFrame : list byte := [x00; x00; x00; x00; x00].

Definition signet : Network := {| protocol := BITCOIN; id := "0a03cf40" |}.

(** A [NodeEvent] of the "channel updated" variant. *)
Definition channelUpdated (channelId : string) : NodeEvent :=
  {| channelUpdate := Some channelId; channelClosed := None;
     assetChannelUpdate := None; paymentUpdate := None |}.

(** The effect of [useNodeEventStream] on first mount, once its stream is
    open. *)
Definition nodeHookConnected : Hooks.Hook NodeEvent :=
  Hooks.connectSettled Hooks.handleNodeEvent Hooks.handleNodeError
    Stream.StreamOpened (Hooks.mount [] None).


(** The step functions of the two hooks. *)
Definition nodeStep {proto : Proto} :=
  Hooks.step decodeNodeEvent Hooks.handleNodeEvent Hooks.handleNodeError.


Definition nodeRun {proto : Proto} :=
  Hooks.run decodeNodeEvent Hooks.handleNodeEvent Hooks.handleNodeError.


Definition connectionReset : Error := MkError TypeErrorK "network error" None.

Definition connectionResetAgain : Error := MkError TypeErrorK "network error (2)" None.

(** The stream of a mounted node hook fails, and the handle of that stream
    is then called twice, through [disconnect] and directly. *)
Definition cancelAfterError : list Hooks.Input :=
  [ Hooks.ConnectResolves Stream.StreamOpened;
    Hooks.Net 0 (Stream.ReadError connectionReset);
    Hooks.Disconnect;
    Hooks.CallHandle 0 ].

(** The reconnect timer fires, the new stream opens and fails in turn. *)
Definition reconnectAndFail : list Hooks.Input :=
  [ Hooks.TimerFires 0;
    Hooks.ConnectResolves Stream.StreamOpened;
    Hooks.Net 1 (Stream.ReadError connectionResetAgain) ].

(** The stream of a mounted node hook fails, and the effect is cleaned up
    while the reconnect is pending. *)
Definition unmountAfterError : list Hooks.Input :=
  [ Hooks.ConnectResolves Stream.StreamOpened;
    Hooks.Net 0 (Stream.ReadError connectionReset);
    Hooks.Cleanup ].

(** A subscription on which [processStream] awaits a read. *)
Definition reading (s : Stream.Subscription) : Prop :=
  Stream.isActive s = true /\ Stream.reader s = Stream.Readable
  /\ Stream.running s = true /\ Stream.hasOnError s = true.


Definition isReconnect (t : Hooks.Timer) : Prop := Hooks.action t = Hooks.Reconnect.

(** What two states of an effect have in common when nothing the hook can
    observe happened between them: the effect is unmounted, the same
    queries were invalidated, the same event is shown, no connection
    attempt and no timer was added, and the timers left are reconnects. *)
Definition quietSince {Ev} (h h' : Hooks.Hook Ev) : Prop :=
  Hooks.mounted h' = false
  /\ Hooks.invalidated (Hooks.browser h') = Hooks.invalidated (Hooks.browser h)
  /\ Hooks.lastEvent h' = Hooks.lastEvent h
  /\ Hooks.connecting h' <= Hooks.connecting h
  /\ List.length (Hooks.timers (Hooks.browser h'))
     <= List.length (Hooks.timers (Hooks.browser h))
  /\ Forall isReconnect (Hooks.timers (Hooks.browser h')).

Section FanOut.

Context {proto : Proto} {env : Env}.
Local Open Scope M_scope.

(** [m] run with its outcome kept as a value: what a [try] sees. *)
Definition attempt {A} (m : M A) : M (Result A) :=
  fun w => let '(r, w') := m w in (Ok r, w').

(** The fan-out as the specification words it: the call is made once per
    network, in order; a failure is logged and the remaining networks are
    still called; every outcome is kept. *)
Fixpoint attemptAll (call : Network -> M Response)
         (logFailure : Network -> Error -> M unit)
         (networks : list Network) : M (list (Result Response)) :=
  match networks with
  | [] => ret []
  | network :: rest =>
      r <- attempt (call network);;
      match r with
      | Throw e => logFailure network e
      | Ok _ => ret tt
      end;;
      rs <- attemptAll call logFailure rest;;
      ret (r :: rs)
  end.

(** The successful results among the outcomes, in order. *)
Definition successes (rs : list (Result Response)) : list Response :=
  flat_map (fun r => match r with Ok v => [v] | Throw _ => [] end) rs.

(** The aggregate of [getBalances]: the balance records of the results,
    assigned one after the other onto an empty record. *)
Definition addBalances (all : Obj Balance) (v : Response) : Obj Balance :=
  match result_balances v with
  | Some balances => assign all balances
  | None => all
  end.

Definition mergeBalances (results : list Response) : Obj Balance :=
  fold_left addBalances results [].

(** The aggregate of [getChannels]: the channel lists, concatenated. *)
Definition mergeChannels (results : list Response) : list Channel :=
  flat_map (fun v => match result_channels v with
                     | Some channels => channels
                     | None => []
                     end)
           results.

Definition callBalances (network : Network) : M Response :=
  grpcCall "hydra_app.WalletService" "GetBalances" (GetBalancesRequest network).

Definition callChannels (network : Network) : M Response :=
  grpcCall "hydra_app.WatchOnlyNodeService" "GetChannels" (GetChannelsRequest network).

(** The line [getBalances] prints for a network that failed. *)
Definition logBalancesFailure (network : Network) (error : Error) : M unit :=
  if includes (message error) "internal server error"
     || includes (message error) "grpc-status: 3"
  then log (NoWalletConfigured (networkName network))
  else log (BalancesFailed (networkName network) (message error)).

(** The line [getChannels] prints for a network that failed. *)
Definition logChannelsFailure (network : Network) (error : Error) : M unit :=
  log (ChannelsFailedFor (networkName network) (message error)).

(** [getBalances] as a fan-out over the configured networks. *)
Definition fanOutBalances : M (Obj Balance) :=
  networks <- getNetworks;;
  rs <- attemptAll callBalances logBalancesFailure networks;;
  ret (mergeBalances (successes rs)).

(** [getChannels] as a fan-out over the configured networks. *)
Definition fanOutChannels : M (list Channel) :=
  networks <- getNetworks;;
  rs <- attemptAll callChannels logChannelsFailure networks;;
  ret (mergeChannels (successes rs)).

(** The entry a record holds for [k] when its properties were set in list
    order: the last one.  (A decoded record has one entry per key.) *)
Definition getLast {V} (o : Obj V) (k : string) : option V := JS.get (rev o) k.

(** The balance the last of the results to report asset [k] gives it. *)
Definition lastReported (k : string) (results : list Response) : option Balance :=
  fold_left
    (fun current v =>
       match result_balances v with
       | Some balances =>
           match getLast balances k with
           | Some x => Some x
           | None => current
           end
       | None => current
       end)
    results None.



(** The request [grpcCall] posts for a message of [messageBytes]. *)
Definition requestSent (servicePath method : string) (messageBytes : list byte) : Sent :=
  {| url := (baseUrl ++ "/" ++ servicePath ++ "/" ++ method)%string;
     frame := Frame.encodeFrame messageBytes |}.


(** The URL [grpcCall] posts a [GetBalances] request to. *)
Definition getBalancesUrl : string :=
  (baseUrl ++ "/hydra_app.WalletService/GetBalances")%string.

(** A [GetBalances] response in which no asset can be recognised: HTTP 200
    without a [grpc-status] header, a text without an asset id
    ([0x] and 64 hex digits), and a body that does not decode to a
    response with balances. *)
Definition noAssetRecognised (response : HttpResponse) : Prop :=
  status response = 200
  /\ grpcStatus response = None
  /\ matchFirst assetIdPattern (text (body response)) = None
  /\ (decodeFramed GetBalancesResponse (body response) = None
      \/ decodeFramed GetBalancesResponse (body response) = Some (MBalances [])).

End FanOut.

(* ===================================================================== *)
(** ** More operations of the client                                     *)
(* ===================================================================== *)

(** The request objects of the operations on deposit addresses, peers,
    transactions, assets, rentals and markets. *)
Inductive ReadRequest :=
| GetDepositAddressRequest (network : Network)
| GetConnectedPeersRequest (network : Network)
| GetTransactionsRequest (network : Network)
| GetAssetsRequest (network : Network)
| GetAssetRequest (network : Network) (assetId : string)
| GetRentalNodeInfoRequest
| GetRentableAssetInfoRequest (network : Network) (assetId : string)
| GetInitializedMarketsRequest
| GetMarketsInfoRequest
| GetMarketInfoRequest (firstCurrency otherCurrency : string).

(** The part of the generated code these operations use: the encoders of
    their requests and the fields they read from a decoded response. *)
Class Fields {proto : Proto} := {
  (** element of [GetTransactionsResponse.transactions] *)
  Transaction : Type;
  (** [Asset] of [@/proto/models] *)
  Asset : Type;
  (** element of [markets] *)
  Market : Type;
  (** [X.encode(request).finish()] *)
  encodeRead : ReadRequest -> Result (list byte);
  (** [GetDepositAddressResponse.address], a string field *)
  address : Opaque -> string;
  (** [GetConnectedPeersResponse.nodeIds] *)
  nodeIds : Opaque -> list string;
  (** [GetTransactionsResponse.transactions] *)
  transactions : Opaque -> list Transaction;
  (** [GetAssetsResponse.assets] *)
  assets : Opaque -> list Asset;
  (** [GetAssetResponse.asset], a message field, which may be missing *)
  asset : Opaque -> option Asset;
  (** [markets] of the two market list responses *)
  markets : Opaque -> list Market }.

(** The peers [getPeers] returns: [{ id, network, networkName }]. *)
Module Peer.
Record Peer := { id : string; network : Network; networkName : string }.
End Peer.

Section MoreOperations.

Context {proto : Proto} {fields : Fields} {env : Env}.
Local Open Scope M_scope.

(** [grpcCall(servicePath, method, request, requestEncoder)], given the
    outcome of [requestEncoder(request).finish()]: the body of [grpcCall]
    uses the request and its encoder nowhere else. *)
Definition grpcCallWith (servicePath method : string)
           (encoded : Result (list byte)) : M Response :=
  let url := (baseUrl ++ "/" ++ servicePath ++ "/" ++ method)%string in
  tryCatch
    (messageBytes <- lift encoded;;
     let frame := Frame.encodeFrame messageBytes in
     response <- fetch url frame;;
     lift (handleResponse servicePath method response))
    (fun error =>
       log (GrpcCallFailed servicePath method (message error));;
       throw (enhancedError servicePath method error)).

(** [result.address] *)
Definition result_address (result : Response) : option string :=
  match result with
  | Decoded (MOpaque GetDepositAddressResponse payload) => Some (address payload)
  | _ => None
  end.

(** [result.nodeIds] *)
Definition result_nodeIds (result : Response) : option (list string) :=
  match result with
  | Decoded (MOpaque GetConnectedPeersResponse payload) => Some (nodeIds payload)
  | NodeIdsNone => Some []
  | _ => None
  end.

(** [result.transactions] *)
Definition result_transactions (result : Response) : option (list Transaction) :=
  match result with
  | Decoded (MOpaque GetTransactionsResponse payload) => Some (transactions payload)
  | TransactionsNone => Some []
  | _ => None
  end.

(** [result.assets] *)
Definition result_assets (result : Response) : option (list Asset) :=
  match result with
  | Decoded (MOpaque GetAssetsResponse payload) => Some (assets payload)
  | AssetsNone => Some []
  | _ => None
  end.

(** [result.asset] *)
Definition result_asset (result : Response) : option Asset :=
  match result with
  | Decoded (MOpaque GetAssetResponse payload) => asset payload
  | _ => None
  end.

(** [result.markets] *)
Definition result_markets (result : Response) : option (list Market) :=
  match result with
  | Decoded (MOpaque GetInitializedMarketsResponse payload)
  | Decoded (MOpaque GetMarketsInfoResponse payload) => Some (markets payload)
  | MarketsNone => Some []
  | _ => None
  end.

(** [getDepositAddress(network)]: [result.address || 'N/A']; the empty
    string is falsy. *)
Definition getDepositAddress (network : Network) : M string :=
  tryCatch
    (result <- grpcCallWith "hydra_app.ClientService" "GetDepositAddress"
                            (encodeRead (GetDepositAddressRequest network));;
     ret (match result_address result with
          | Some a => if String.eqb a "" then "N/A" else a
          | None => "N/A"
          end))
    (fun error =>
       log (OperationFailed ("get deposit address for " ++ networkName network)
                            (message error));;
       throw error).

(** The [forEach] of [getPeers]: one entry per node id, tagged with the
    network that was asked. *)
Definition peersOf (network : Network) (ids : list string) : list Peer.Peer :=
  map (fun nodeId => {| Peer.id := nodeId; Peer.network := network;
                        Peer.networkName := networkName network |})
      ids.

(** The [for] loop of [getPeers]. *)
Fixpoint getPeers_loop (networks : list Network) (allPeers : list Peer.Peer)
  : M (list Peer.Peer) :=
  match networks with
  | [] => ret allPeers
  | network :: rest =>
      allPeers' <-
        tryCatch
          (result <- grpcCallWith "hydra_app.NodeService" "GetConnectedPeers"
                                  (encodeRead (GetConnectedPeersRequest network));;
           match result_nodeIds result with
           | Some ids => ret (allPeers ++ peersOf network ids)
           | None => ret allPeers
           end)
          (fun error =>
             log (OperationFailed ("get peers for " ++ networkName network)
                                  (message error));;
             ret allPeers);;
      getPeers_loop rest allPeers'
  end.

(** [getPeers()] *)
Definition getPeers : M (list Peer.Peer) :=
  tryCatch
    (networks <- getNetworks;;
     if List.length networks =? 0 then ret []
     else getPeers_loop networks [])
    (fun error =>
       log (OperationFailed "get connected peers" (message error));;
       ret []).

(** The [for] loop of [getTransactions]. *)
Fixpoint getTransactions_loop (networks : list Network)
         (allTransactions : list Transaction) : M (list Transaction) :=
  match networks with
  | [] => ret allTransactions
  | net :: rest =>
      allTransactions' <-
        tryCatch
          (result <- grpcCallWith "hydra_app.WalletService" "GetTransactions"
                                  (encodeRead (GetTransactionsRequest net));;
           match result_transactions result with
           | Some txs => ret (allTransactions ++ txs)
           | None => ret allTransactions
           end)
          (fun error =>
             log (OperationFailed ("get transactions for " ++ networkName net)
                                  (message error));;
             ret allTransactions);;
      getTransactions_loop rest allTransactions'
  end.

(** [getTransactions(network?)] *)
Definition getTransactions (network : option Network) : M (list Transaction) :=
  tryCatch
    match network with
    | Some network =>
        result <- grpcCallWith "hydra_app.WalletService" "GetTransactions"
                               (encodeRead (GetTransactionsRequest network));;
        ret (orDefault (result_transactions result) [])
    | None =>
        networks <- getNetworks;;
        if List.length networks =? 0 then ret []
        else getTransactions_loop networks []
    end
    (fun error =>
       log (OperationFailed "get transactions" (message error));;
       ret []).

(** [getMarkets()].  Its encoder is [(request) => new BinaryWriter()],
    whose [finish()] is the empty message. *)
Definition getMarkets : M (list Market) :=
  tryCatch
    (result <- grpcCallWith "hydra_app.OrderbookService" "GetMarkets" (Ok []);;
     ret (orDefault (result_markets result) []))
    (fun error =>
       log (OperationFailed "get markets" (message error));;
       ret []).

(** [getAssets(network)] *)
Definition getAssets (network : Network) : M (list Asset) :=
  tryCatch
    (result <- grpcCallWith "hydra_app.AssetService" "GetAssets"
                            (encodeRead (GetAssetsRequest network));;
     ret (orDefault (result_assets result) []))
    (fun error =>
       log (OperationFailed ("AssetService for network " ++ id network)
                            (message error));;
       ret []).

(** [getAsset(network, assetId)]: [result.asset || null]. *)
Definition getAsset (network : Network) (assetId : string) : M (option Asset) :=
  tryCatch
    (result <- grpcCallWith "hydra_app.AssetService" "GetAsset"
                            (encodeRead (GetAssetRequest network assetId));;
     ret (result_asset result))
    (fun error =>
       log (OperationFailed ("GetAsset for " ++ assetId) (message error));;
       ret None).

(** The shape of the rental and market reads:
    [try { return await this.grpcCall(...) } catch (error) { console.error(...); throw error }]. *)
Definition readOrRethrow (operation servicePath method : string)
           (request : ReadRequest) : M Response :=
  tryCatch
    (result <- grpcCallWith servicePath method (encodeRead request);;
     ret result)
    (fun error =>
       log (OperationFailed operation (message error));;
       throw error).

Definition getRentalNodeInfo : M Response :=
  readOrRethrow "getRentalNodeInfo" "hydra_app.RentalService" "GetRentalNodeInfo"
    GetRentalNodeInfoRequest.

Definition getRentableAssetInfo (network : Network) (assetId : string) : M Response :=
  readOrRethrow "getRentableAssetInfo" "hydra_app.RentalService" "GetRentableAssetInfo"
    (GetRentableAssetInfoRequest network assetId).

Definition getInitializedMarkets : M Response :=
  readOrRethrow "getInitializedMarkets" "hydra_app.OrderbookService"
    "GetInitializedMarkets" GetInitializedMarketsRequest.

Definition getMarketsInfo : M Response :=
  readOrRethrow "getMarketsInfo" "hydra_app.OrderbookService" "GetMarketsInfo"
    GetMarketsInfoRequest.

Definition getMarketInfo (baseCurrency quoteCurrency : string) : M Response :=
  readOrRethrow "getMarketInfo" "hydra_app.OrderbookService" "GetMarketInfo"
    (GetMarketInfoRequest baseCurrency quoteCurrency).

(** The value of the query of [useGrpcStatus]. *)
Record ConnectionStatus := { connected : bool; error : option string }.

(** [useGrpcStatus]: [queryFn]. *)
Definition useGrpcStatus_queryFn : M ConnectionStatus :=
  tryCatch
    (getBalances;;
     ret {| connected := true; error := None |})
    (fun error =>
       ret {| connected := false; error := Some (message error) |}).

(** The calls for which the branch [grpcStatus === '0'] of [grpcCall] has a
    decoder. *)
Definition decodedWithStatusZero : list (string * string) :=
  [ ("hydra_app.AppService", "GetNetworks");
    ("hydra_app.WalletService", "GetBalances");
    ("hydra_app.BlockchainService", "GetFeeEstimates");
    ("hydra_app.WalletService", "GetTransactions");
    ("hydra_app.WatchOnlyNodeService", "GetChannels");
    ("hydra_app.NodeService", "GetConnectedPeers");
    ("hydra_app.PricingService", "GetAssetFiatPrice");
    ("hydra_app.AssetService", "GetAssets");
    ("hydra_app.AssetService", "GetAsset") ].

(** The world after [grpcCall] posted a message of [messageBytes]. *)
Definition afterRequest (servicePath method : string) (messageBytes : list byte)
           (w : World) : World :=
  {| requests := requests w ++ [requestSent servicePath method messageBytes];
     console := console w |}.

(** The requests issued between two worlds. *)
Definition requestsSince (w w' : World) : list Sent :=
  skipn (List.length (requests w)) (requests w').

(** *** The fan-outs of [getPeers] and [getTransactions] *)

Definition callPeers (network : Network) : M Response :=
  grpcCallWith "hydra_app.NodeService" "GetConnectedPeers"
               (encodeRead (GetConnectedPeersRequest network)).

(** The line [getPeers] prints for a network that failed. *)
Definition logPeersFailure (network : Network) (error : Error) : M unit :=
  log (OperationFailed ("get peers for " ++ networkName network) (message error)).

(** What one network contributes to the peers: the node ids of its
    response, tagged with the network; nothing when its call failed. *)
Definition peersOfOutcome (network : Network) (r : Result Response) : list Peer.Peer :=
  match r with
  | Ok v =>
      match result_nodeIds v with
      | Some ids => peersOf network ids
      | None => []
      end
  | Throw _ => []
  end.

(** The aggregate of [getPeers]: the contributions of the networks, in
    the order of the networks. *)
Fixpoint mergePeers (networks : list Network) (rs : list (Result Response))
  : list Peer.Peer :=
  match networks, rs with
  | network :: networks', r :: rs' => peersOfOutcome network r ++ mergePeers networks' rs'
  | _, _ => []
  end.

Definition callTransactions (network : Network) : M Response :=
  grpcCallWith "hydra_app.WalletService" "GetTransactions"
               (encodeRead (GetTransactionsRequest network)).

(** The line [getTransactions] prints for a network that failed. *)
Definition logTransactionsFailure (network : Network) (error : Error) : M unit :=
  log (OperationFailed ("get transactions for " ++ networkName network)
                       (message error)).

(** The aggregate of [getTransactions]: the transaction lists,
    concatenated. *)
Definition mergeTransactions (results : list Response) : list Transaction :=
  flat_map (fun v => orDefault (result_transactions v) []) results.

End MoreOperations.

(** A stand-in for the fields of the generated code, over [emptyMessages]:
    every message that decodes carries the deposit address below and two
    node ids. *)
Definition sampleAddress : string := "tb1qw508d6qejxtdg4y5r3zarvary0c5xw7kxpjzsx".

Definition sampleFields : @Fields emptyMessages :=
  {| Transaction := string;
     Asset := string;
     Market := string;
     encodeRead := fun _ => Ok [];
     address := fun _ => sampleAddress;
     nodeIds := fun _ => ["02aa"; "03bb"];
     transactions := fun _ => [];
     assets := fun _ => [];
     asset := fun _ => None;
     markets := fun _ => [] |}.

(** A response with the header [grpc-status: s] and HTTP status 200. *)
Definition withGrpcStatus (s : string) (b : list byte) : HttpResponse :=
  {| status := 200; grpcStatus := Some s; grpcMessage := None; body := b |}.

(** A stand-in for the generated code whose fee estimates carry the
    medium level only. *)
Definition mediumOnly : FeeEstimate :=
  {| low := None;
     medium := Some (feeRateOf "2000000000" "100000000" "2100000000");
     high := None |}.

Definition partialFees : Proto :=
  {| Balance := string * string;
     Channel := string;
     Opaque := unit;
     ClientEvent := unit;
     encode := fun _ => Ok [];
     decodeGetNetworksResponse := emptyOnly [];
     decodeGetBalancesResponse := emptyOnly [];
     decodeGetChannelsResponse := emptyOnly [];
     decodeGetFeeEstimatesResponse := emptyOnly (Some mediumOnly);
     decodeOpaque := fun _ => emptyOnly tt;
     decodeNodeEvent := emptyOnly emptyNodeEvent;
     decodeClientEvent := emptyOnly tt;
     textBalance := pair |}.

Definition sepolia : Network := {| protocol := EVM; id := "11155111" |}.

(** Every character of [s] satisfies [p]. *)
Fixpoint every (p : ascii -> bool) (s : string) : bool :=
  match s with
  | EmptyString => true
  | String c rest => p c && every p rest
  end.

(** A network id the text workaround finds: six to eight characters, all
    of them hex digits. *)
Definition plausibleId (s : string) : Prop :=
  6 <= String.length s <= 8 /\ every isHex s = true.

(* ===================================================================== *)
(** ** The query cache: keys, mutations and the price lookup of
       [useRealHydraData.ts]                                             *)
(* ===================================================================== *)

Module Cache.

Import Hooks.

(** An element of the key of a query: the keys of this file hold strings,
    [undefined] (for [network?.id] of a missing network) and other values
    (a currency code, the rental option). *)
Inductive Part := PString (s : string) | PUndefined | POther.

Definition optional (o : option string) : Part :=
  match o with Some s => PString s | None => PUndefined end.

(** The queries [useRealHydraData.ts] declares, with the arguments their
    keys depend on. *)
Inductive Query :=
| RealNetworks | RealBalances | RealChannels | RealPeers
| RealTransactions | RealMarkets | GrpcStatus | AssetRegistry
| AssetPrice (networkId : option string) (assetId : string)
| FeeEstimatesOf (networkId : option string)
| RentalNodeInfo
| RentableAssetInfo (networkId : option string) (assetId : string)
| RentChannelFeeEstimate (networkId : option string)
    (assetId lifetimeSeconds amount : string)
| InitializedMarkets
| MarketsInfo
| MarketInfo (baseAssetId quoteAssetId : option string).

(** [queryKey] of each query. *)
Definition queryKey (q : Query) : list Part :=
  match q with
  | RealNetworks => [PString "hydra"; PString "networks"]
  | RealBalances => [PString "hydra"; PString "balances"]
  | RealChannels => [PString "hydra"; PString "channels"]
  | RealPeers => [PString "hydra"; PString "peers"]
  | RealTransactions => [PString "hydra"; PString "transactions"]
  | RealMarkets => [PString "hydra"; PString "markets"]
  | GrpcStatus => [PString "hydra"; PString "grpc-status"]
  | AssetRegistry => [PString "hydra"; PString "asset-registry"]
  | AssetPrice networkId assetId =>
      [PString "hydra"; PString "asset-price"; optional networkId; PString assetId; POther]
  | FeeEstimatesOf networkId =>
      [PString "hydra"; PString "fee-estimates"; optional networkId]
  | RentalNodeInfo => [PString "rentalNodeInfo"]
  | RentableAssetInfo networkId assetId =>
      [PString "rentableAssetInfo"; optional networkId; PString assetId]
  | RentChannelFeeEstimate networkId assetId lifetimeSeconds amount =>
      [PString "rentChannelFeeEstimate"; optional networkId; PString assetId;
       PString lifetimeSeconds; PString amount; POther]
  | InitializedMarkets => [PString "initializedMarkets"]
  | MarketsInfo => [PString "marketsInfo"]
  | MarketInfo baseAssetId quoteAssetId =>
      [PString "marketInfo"; optional baseAssetId; optional quoteAssetId]
  end.

(** Whether [invalidateQueries({ queryKey: filter })] selects the query of
    key [key]: the filter is compared element by element with the start
    of the key (partial matching of the query client). *)
Fixpoint matchesKey (filter : QueryKey) (key : list Part) : bool :=
  match filter, key with
  | [], _ => true
  | s :: filter', PString s' :: key' => String.eqb s s' && matchesKey filter' key'
  | _ :: _, _ => false
  end.

(** The query was selected by one of the invalidations so far. *)
Definition stale (b : Browser) (q : Query) : bool :=
  existsb (fun filter => matchesKey filter (queryKey q)) (invalidated b).

(** [useOpenChannel]: [onSuccess]. *)
Definition openChannel_onSuccess (b : Browser) : Browser :=
  invalidateQueries channelsKey b.

(** [useDepositChannel]: [onSuccess]. *)
Definition depositChannel_onSuccess (b : Browser) : Browser :=
  invalidateQueries balancesKey (invalidateQueries channelsKey b).

(** [useWithdrawChannel]: [onSuccess]. *)
Definition withdrawChannel_onSuccess (b : Browser) : Browser :=
  invalidateQueries balancesKey (invalidateQueries channelsKey b).

(** [useCloseChannel]: [onSuccess]. *)
Definition closeChannel_onSuccess (b : Browser) : Browser :=
  invalidateQueries balancesKey (invalidateQueries channelsKey b).

(** [useForceCloseChannel]: [onSuccess]. *)
Definition forceCloseChannel_onSuccess (b : Browser) : Browser :=
  invalidateQueries balancesKey (invalidateQueries channelsKey b).

(** [useRentChannel]: [onSuccess]. *)
Definition rentChannel_onSuccess (b : Browser) : Browser :=
  invalidateQueries ["balances"] (invalidateQueries ["channels"] b).

(** [useInitMarket]: [onSuccess]. *)
Definition initMarket_onSuccess (b : Browser) : Browser :=
  invalidateQueries ["marketsInfo"] (invalidateQueries ["initializedMarkets"] b).

(** A timer of the browser fires: the callbacks of [useConnectToPeer]
    invalidate a key. *)
Definition fire (t : Timer) (b : Browser) : Browser :=
  match action t with
  | Invalidate key => invalidateQueries key b
  | Reconnect => b
  end.



End Cache.

(** The run function of [useClientEventStream]. *)
Definition clientRun {proto : Proto} :=
  Hooks.run decodeClientEvent Hooks.handleClientEvent Hooks.handleClientError.


(** The timer [handleError] of [useNodeEventStream] sets. *)
Definition reconnectTimer : Hooks.Timer :=
  {| Hooks.delay := 5000; Hooks.action := Hooks.Reconnect |}.

Definition isOnError {Ev} (o : Stream.Output Ev) : bool :=
  match o with Stream.CallOnError _ => true | _ => false end.

(** An input that is not a call of an unsubscribe handle. *)
Definition notAHandleCall (i : Hooks.Input) : Prop :=
  match i with
  | Hooks.CallHandle _ | Hooks.Disconnect => False
  | _ => True
  end.

(** The event carries one of the three channel payloads. *)
Definition hasChannelPayload (event : NodeEvent) : bool :=
  match channelUpdate event, channelClosed event, assetChannelUpdate event with
  | None, None, None => false
  | _, _, _ => true
  end.

(** The event carries a payload. *)
Definition hasPayload (event : NodeEvent) : bool :=
  hasChannelPayload event
  || match paymentUpdate event with Some _ => true | None => false end.

(** No read is pending on the subscription. *)
Definition idle (s : Stream.Subscription) : Prop :=
  Stream.running s
  && match Stream.reader s with Stream.Readable => true | _ => false end = false.


(** No handle was captured by the cleanup, and every stream is active. *)
Definition uncancelled {Ev} (h : Hooks.Hook Ev) : Prop :=
  Hooks.capturedUnsubscribe h = None
  /\ Forall (fun s => Stream.isActive s = true) (Hooks.subscriptions h).

(* ===================================================================== *)
(** ** Reducers of the store: [appSlice] and [orderbookSlice]            *)
(* ===================================================================== *)

Module AppSlice.

Inductive Level := INFO | WARNING | ERROR.

Record LogEntry := { timestamp : string; level : Level; message : string }.

(** [AppState]; [refreshInterval] is a number of milliseconds. *)
Record AppState := {
  isConnected : bool;
  currentNetwork : string;
  autoRefresh : bool;
  refreshInterval : Z;
  logs : list LogEntry }.

Definition initialState : AppState :=
  {| isConnected := false; currentNetwork := ""; autoRefresh := true;
     refreshInterval := 5000; logs := [] |}.

(** The actions of the slice, with their payloads. *)
Inductive Action :=
| setConnectionStatus (payload : bool)
| setCurrentNetwork (payload : string)
| setAutoRefresh (payload : bool)
| setRefreshInterval (payload : Z)
| addLog (payload : LogEntry)
| clearLogs.

(** [state.logs.unshift(payload)], then
    [if (state.logs.length > 1000) state.logs = state.logs.slice(0, 1000)]. *)
Definition addLogTo (payload : LogEntry) (logs : list LogEntry) : list LogEntry :=
  let logs := payload :: logs in
  if 1000 <? List.length logs then firstn 1000 logs else logs.

Definition reducer (state : AppState) (action : Action) : AppState :=
  match action with
  | setConnectionStatus payload =>
      {| isConnected := payload; currentNetwork := currentNetwork state;
         autoRefresh := autoRefresh state; refreshInterval := refreshInterval state;
         logs := logs state |}
  | setCurrentNetwork payload =>
      {| isConnected := isConnected state; currentNetwork := payload;
         autoRefresh := autoRefresh state; refreshInterval := refreshInterval state;
         logs := logs state |}
  | setAutoRefresh payload =>
      {| isConnected := isConnected state; currentNetwork := currentNetwork state;
         autoRefresh := payload; refreshInterval := refreshInterval state;
         logs := logs state |}
  | setRefreshInterval payload =>
      {| isConnected := isConnected state; currentNetwork := currentNetwork state;
         autoRefresh := autoRefresh state; refreshInterval := payload;
         logs := logs state |}
  | addLog payload =>
      {| isConnected := isConnected state; currentNetwork := currentNetwork state;
         autoRefresh := autoRefresh state; refreshInterval := refreshInterval state;
         logs := addLogTo payload (logs state) |}
  | clearLogs =>
      {| isConnected := isConnected state; currentNetwork := currentNetwork state;
         autoRefresh := autoRefresh state; refreshInterval := refreshInterval state;
         logs := [] |}
  end.

(** The store after a sequence of dispatched actions. *)
Definition dispatchAll (actions : list Action) : AppState :=
  fold_left reducer actions initialState.

(** The entries logged since the logs were last cleared, newest first,
    with none dropped. *)
Definition loggedSinceClear (actions : list Action) : list LogEntry :=
  fold_left (fun entries action =>
               match action with
               | addLog payload => payload :: entries
               | clearLogs => []
               | _ => entries
               end)
            actions [].

End AppSlice.

Module OrderbookSlice.

Inductive Side := buy | sell.

Record Trade := {
  id : string; marketId : string; price : string; quantity : string;
  timestamp : Z; side : Side }.

Section Slice.

(** [MarketInfo], [Orderbook] and [LiquidityPosition] of [@/proto]. *)
Context {MarketInfo Orderbook LiquidityPosition : Type}.

Record OrderbookState := {
  markets : list MarketInfo;
  orderbooks : Obj Orderbook;
  orders : Obj LiquidityPosition;
  trades : list Trade;
  isLoading : bool }.

Definition initialState : OrderbookState :=
  {| markets := []; orderbooks := []; orders := []; trades := []; isLoading := false |}.

Inductive Action :=
| setMarkets (payload : list MarketInfo)
| setOrderbook (marketId : string) (orderbook : Orderbook)
| setOrders (payload : Obj LiquidityPosition)
| updateOrders (payload : Obj LiquidityPosition)
| removeOrders (payload : list string)
| setTrades (payload : list Trade)
| setLoading (payload : bool).

(** [delete o[k]] *)
Definition delete {V} (o : Obj V) (k : string) : Obj V :=
  filter (fun entry => negb (String.eqb (fst entry) k)) o.

Definition reducer (state : OrderbookState) (action : Action) : OrderbookState :=
  match action with
  | setMarkets payload =>
      {| markets := payload; orderbooks := orderbooks state; orders := orders state;
         trades := trades state; isLoading := isLoading state |}
  | setOrderbook marketId orderbook =>
      {| markets := markets state;
         orderbooks := JS.set (orderbooks state) marketId orderbook;
         orders := orders state; trades := trades state; isLoading := isLoading state |}
  | setOrders payload =>
      {| markets := markets state; orderbooks := orderbooks state; orders := payload;
         trades := trades state; isLoading := isLoading state |}
  | updateOrders payload =>
      {| markets := markets state; orderbooks := orderbooks state;
         orders := assign (orders state) payload;
         trades := trades state; isLoading := isLoading state |}
  | removeOrders payload =>
      {| markets := markets state; orderbooks := orderbooks state;
         orders := fold_left delete payload (orders state);
         trades := trades state; isLoading := isLoading state |}
  | setTrades payload =>
      {| markets := markets state; orderbooks := orderbooks state; orders := orders state;
         trades := payload; isLoading := isLoading state |}
  | setLoading payload =>
      {| markets := markets state; orderbooks := orderbooks state; orders := orders state;
         trades := trades state; isLoading := payload |}
  end.

End Slice.

End OrderbookSlice.

(* ===================================================================== *)
(** ** Properties of the frame codec                                     *)
(* ===================================================================== *)

Lemma to_N_byteOfN (n : N) : Byte.to_N (Frame.byteOfN n) = (n mod 256)%N.
Proof.
  unfold Frame.byteOfN.
  destruct (Byte.of_N (n mod 256)) as [b|] eqn:E.
  - now apply Byte.to_of_N in E.
  - apply Byte.of_N_None_iff in E.
    pose proof (N.mod_upper_bound n 256). lia.
Qed.

Lemma testbit_byte_of_shift (m k i : N) :
  N.testbit (N.shiftl ((N.shiftr m k) mod 2 ^ 8) k) i
  = (N.leb k i && N.ltb i (k + 8) && N.testbit m i)%bool.
Proof.
  destruct (N.leb_spec k i) as [Hle|Hlt]; cbn [andb].
  - rewrite N.shiftl_spec_high' by exact Hle.
    destruct (N.ltb_spec i (k + 8)) as [Hin|Hout]; cbn [andb].
    + rewrite N.mod_pow2_bits_low by lia.
      rewrite N.shiftr_spec'. f_equal. lia.
    + apply N.mod_pow2_bits_high. lia.
  - apply N.shiftl_spec_low. exact Hlt.
Qed.

Lemma getUint32_setUint32 (n : N) :
  Frame.getUint32 (Frame.setUint32 n) = Some (n mod 2 ^ 32)%N.
Proof.
  unfold Frame.setUint32, Frame.getUint32.
  rewrite !to_N_byteOfN.
  set (m := (n mod 2 ^ 32)%N).
  f_equal. apply N.bits_inj. intro i.
  change 256%N with (2 ^ 8)%N.
  replace (m mod 2 ^ 8)%N with (N.shiftl ((N.shiftr m 0) mod 2 ^ 8) 0)
    by (now rewrite N.shiftl_0_r, N.shiftr_0_r).
  rewrite !N.lor_spec, !testbit_byte_of_shift.
  destruct (N.ltb_spec i 32) as [Hlow|Hhigh].
  - destruct (N.testbit m i); rewrite ?andb_true_r, ?andb_false_r; [|reflexivity].
    destruct (N.leb_spec 24 i), (N.leb_spec 16 i), (N.leb_spec 8 i), (N.leb_spec 0 i),
      (N.ltb_spec i (24 + 8)), (N.ltb_spec i (16 + 8)), (N.ltb_spec i (8 + 8)),
      (N.ltb_spec i (0 + 8)); cbn; try reflexivity; lia.
  - assert (Hm : N.testbit m i = false)
      by (subst m; apply N.mod_pow2_bits_high; lia).
    rewrite Hm, !andb_false_r. reflexivity.
Qed.

Lemma length_setUint32 (n : N) : List.length (Frame.setUint32 n) = 4.
Proof. reflexivity. Qed.

(** Stripping the frame of an encoded payload gives the payload back,
    whatever its length. *)
Lemma decodeFrame_encodeFrame (P : list byte) :
  Frame.decodeFrame (Frame.encodeFrame P) = Ok P.
Proof.
  unfold Frame.decodeFrame, Frame.Uint8Array_ofBuffer, Frame.encodeFrame.
  cbn [List.length Frame.setUint32 app]. reflexivity.
Qed.

(** The frame stripper looks at nothing but the size of its buffer: behind
    any five bytes it returns all that follows. *)
Lemma decodeFrame_header (flag b3 b2 b1 b0 : byte) (rest : list byte) :
  Frame.decodeFrame (flag :: b3 :: b2 :: b1 :: b0 :: rest) = Ok rest.
Proof. reflexivity. Qed.

Lemma decodeFrame_short (buffer : list byte) :
  List.length buffer < 5 ->
  Frame.decodeFrame buffer
  = Throw (MkError RangeErrorK "Start offset is outside the bounds of the buffer" None).
Proof.
  intro H. unfold Frame.decodeFrame, Frame.Uint8Array_ofBuffer.
  destruct (Nat.leb_spec 5 (List.length buffer)); [lia | reflexivity].
Qed.

(** C5. For every payload [P] that a 4-byte length can describe, the frame
    built by [grpcCall] is one compression flag byte equal to 0, then the
    length of [P] as 4 big-endian bytes, then [P]; and stripping the frame
    the way [grpcCall] strips a response returns [P]. *)
Theorem frame_roundtrip (P : list byte) :
  (N.of_nat (List.length P) < 2 ^ 32)%N ->
  Frame.decodeFrame (Frame.encodeFrame P) = Ok P
  /\ exists prefix : list byte,
       Frame.encodeFrame P = x00 :: prefix ++ P
       /\ List.length prefix = 4
       /\ Frame.getUint32 prefix = Some (N.of_nat (List.length P)).
Proof.
  intro Hlen. split.
  - apply decodeFrame_encodeFrame.
  - exists (Frame.setUint32 (N.of_nat (List.length P))).
    split; [reflexivity|]. split; [apply length_setUint32|].
    rewrite getUint32_setUint32. f_equal. apply N.mod_small. exact Hlen.
Qed.

Lemma frame_roundtrip_witness :
  Frame.decodeFrame (Frame.encodeFrame [x68; x79; x64; x72; x61])
  = Ok [x68; x79; x64; x72; x61]
  /\ exists prefix : list byte,
       Frame.encodeFrame [x68; x79; x64; x72; x61]
       = x00 :: prefix ++ [x68; x79; x64; x72; x61]
       /\ List.length prefix = 4
       /\ Frame.getUint32 prefix = Some 5%N.
Proof.
  apply (frame_roundtrip [x68; x79; x64; x72; x61]).
  vm_compute. reflexivity.
Defined.

(** C6, as the code has it. A response buffer shorter than 5 bytes makes
    the frame stripper of [grpcCall] throw a [RangeError]; a buffer of 5
    bytes or more is never refused: whatever the 4 length bytes say, all
    the bytes behind the header are returned. *)
Theorem decodeFrame_rejects_only_short_buffers
        (buffer : list byte) (flag b3 b2 b1 b0 : byte) (rest : list byte) :
  List.length buffer < 5 ->
  (exists e, Frame.decodeFrame buffer = Throw e /\ name e = RangeErrorK)
  /\ Frame.decodeFrame (flag :: b3 :: b2 :: b1 :: b0 :: rest) = Ok rest.
Proof.
  intro Hshort. split.
  - eexists. split; [apply decodeFrame_short; exact Hshort | reflexivity].
  - apply decodeFrame_header.
Qed.

Lemma decodeFrame_rejects_only_short_buffers_witness :
  (exists e, Frame.decodeFrame [x00; x00; x00] = Throw e /\ name e = RangeErrorK)
  /\ Frame.decodeFrame [x00; x00; x00; x00; x0a; x01; x02; x03] = Ok [x01; x02; x03].
Proof.
  apply (decodeFrame_rejects_only_short_buffers
           [x00; x00; x00] x00 x00 x00 x00 x0a [x01; x02; x03]).
  cbn. lia.
Defined.

(** C6, counterexample. The length prefix announces 10 message bytes and
    only 3 follow: the buffer is accepted and the 3 bytes are returned.
    The prefix announces 1 byte and 3 follow: all 3 are returned. *)
Lemma decodeFrame_ignores_length_prefix :
  Frame.getUint32 [x00; x00; x00; x0a] = Some 10%N
  /\ Frame.decodeFrame [x00; x00; x00; x00; x0a; x01; x02; x03] = Ok [x01; x02; x03]
  /\ Frame.getUint32 [x00; x00; x00; x01] = Some 1%N
  /\ Frame.decodeFrame [x00; x00; x00; x00; x01; x01; x02; x03] = Ok [x01; x02; x03].
Proof. repeat split. Qed.

(* ===================================================================== *)
(** ** Properties of the call executor and of the operations             *)
(* ===================================================================== *)

Section ClientProperties.

Context {proto : Proto} {env : Env}.

(** *** What [grpcCall] throws *)


(** *** Operations that pass the outcome of [grpcCall] on *)


(** *** Operations that never throw *)

Lemma getNetworks_total (w : World) :
  exists networks w', getNetworks w = (Ok networks, w').
Proof.
  unfold getNetworks, tryCatch, bind, ret, log.
  destruct (grpcCall _ _ _ w) as [[v|e] w']; cbn; eauto.
Qed.


(** *** The fan-out loops *)

Lemma logBalancesFailure_ok (network : Network) (e : Error) (w : World) :
  exists w', logBalancesFailure network e w = (Ok tt, w').
Proof.
  unfold logBalancesFailure, log.
  destruct (_ || _); eauto.
Qed.

Lemma attemptAll_cons (call : Network -> M Response)
      (logFailure : Network -> Error -> M unit)
      (network : Network) (rest : list Network) (w : World) :
  attemptAll call logFailure (network :: rest) w
  = match call network w with
    | (Ok v, w1) =>
        match attemptAll call logFailure rest w1 with
        | (Ok rs, w') => (Ok (Ok v :: rs), w')
        | (Throw e, w') => (Throw e, w')
        end
    | (Throw e, w1) =>
        match logFailure network e w1 with
        | (Ok _, w2) =>
            match attemptAll call logFailure rest w2 with
            | (Ok rs, w') => (Ok (Throw e :: rs), w')
            | (Throw e', w') => (Throw e', w')
            end
        | (Throw e', w2) => (Throw e', w2)
        end
    end.
Proof.
  cbn [attemptAll]. unfold bind, attempt, ret.
  destruct (call network w) as [[v|e] w1]; [reflexivity|].
  destruct (logFailure network e w1) as [[u|e'] w2]; reflexivity.
Qed.

Lemma getBalances_loop_cons (network : Network) (rest : list Network)
      (all : Obj Balance) (count : nat) (w : World) :
  getBalances_loop (network :: rest) all count w
  = match callBalances network w with
    | (Ok v, w1) => getBalances_loop rest (addBalances all v) (S count) w1
    | (Throw e, w1) =>
        match logBalancesFailure network e w1 with
        | (Ok _, w2) => getBalances_loop rest all count w2
        | (Throw e', w2) => (Throw e', w2)
        end
    end.
Proof.
  cbn [getBalances_loop].
  unfold bind, tryCatch, callBalances, logBalancesFailure, addBalances, ret.
  destruct (grpcCall _ _ _ w) as [[v|e] w1].
  - destruct (result_balances v); reflexivity.
  - destruct (_ || _); reflexivity.
Qed.

Lemma getBalances_loop_fanOut (networks : list Network) :
  forall (all : Obj Balance) (count : nat) (w : World),
  exists rs w',
    attemptAll callBalances logBalancesFailure networks w = (Ok rs, w')
    /\ List.length rs = List.length networks
    /\ getBalances_loop networks all count w
       = (Ok (fold_left addBalances (successes rs) all,
              count + List.length (successes rs)), w').
Proof.
  induction networks as [|network rest IH]; intros all count w.
  - exists [], w. cbn. rewrite Nat.add_0_r. auto.
  - rewrite attemptAll_cons, getBalances_loop_cons.
    destruct (callBalances network w) as [[v|e] w1].
    + destruct (IH (addBalances all v) (S count) w1) as (rs & w' & Hall & Hlen & Hloop).
      exists (Ok v :: rs), w'. rewrite Hall, Hloop. cbn.
      repeat split; try congruence. rewrite <- plus_n_Sm. reflexivity.
    + destruct (logBalancesFailure_ok network e w1) as (w2 & Hlog). rewrite Hlog.
      destruct (IH all count w2) as (rs & w' & Hall & Hlen & Hloop).
      exists (Throw e :: rs), w'. rewrite Hall, Hloop. cbn.
      repeat split; congruence.
Qed.

Lemma logChannelsFailure_ok (network : Network) (e : Error) (w : World) :
  exists w', logChannelsFailure network e w = (Ok tt, w').
Proof. unfold logChannelsFailure, log. eauto. Qed.

Lemma getChannels_loop_cons (network : Network) (rest : list Network)
      (all : list Channel) (w : World) :
  getChannels_loop (network :: rest) all w
  = match callChannels network w with
    | (Ok v, w1) =>
        getChannels_loop rest
          (all ++ match result_channels v with Some c => c | None => [] end) w1
    | (Throw e, w1) =>
        match logChannelsFailure network e w1 with
        | (Ok _, w2) => getChannels_loop rest all w2
        | (Throw e', w2) => (Throw e', w2)
        end
    end.
Proof.
  cbn [getChannels_loop].
  unfold bind, tryCatch, callChannels, logChannelsFailure, log, ret.
  destruct (grpcCall _ _ _ w) as [[v|e] w1].
  - destruct (result_channels v); [reflexivity|]. now rewrite app_nil_r.
  - reflexivity.
Qed.

Lemma getChannels_loop_fanOut (networks : list Network) :
  forall (all : list Channel) (w : World),
  exists rs w',
    attemptAll callChannels logChannelsFailure networks w = (Ok rs, w')
    /\ List.length rs = List.length networks
    /\ getChannels_loop networks all w
       = (Ok (all ++ mergeChannels (successes rs)), w').
Proof.
  induction networks as [|network rest IH]; intros all w.
  - exists [], w. cbn. rewrite app_nil_r. auto.
  - rewrite attemptAll_cons, getChannels_loop_cons.
    destruct (callChannels network w) as [[v|e] w1].
    + destruct (IH (all ++ match result_channels v with Some c => c | None => [] end) w1)
        as (rs & w' & Hall & Hlen & Hloop).
      exists (Ok v :: rs), w'. rewrite Hall, Hloop. cbn.
      repeat split; try congruence. unfold mergeChannels. cbn.
      rewrite <- app_assoc. reflexivity.
    + destruct (logChannelsFailure_ok network e w1) as (w2 & Hlog). rewrite Hlog.
      destruct (IH all w2) as (rs & w' & Hall & Hlen & Hloop).
      exists (Throw e :: rs), w'. rewrite Hall, Hloop. cbn.
      repeat split; congruence.
Qed.

(** [getBalances] is the fan-out over the configured networks. *)
Lemma getBalances_fanOut (w : World) : getBalances w = fanOutBalances w.
Proof.
  unfold getBalances, fanOutBalances, bind.
  destruct (getNetworks w) as [[networks|e] w1]; [|reflexivity].
  destruct networks as [|network rest]; [reflexivity|].
  cbn [List.length Nat.eqb].
  destruct (getBalances_loop_fanOut (network :: rest) [] 0 w1)
    as (rs & w' & Hall & _ & Hloop).
  rewrite Hall, Hloop. reflexivity.
Qed.

(** [getChannels] is the fan-out over the configured networks. *)
Lemma getChannels_fanOut (w : World) : getChannels w = fanOutChannels w.
Proof.
  unfold getChannels, fanOutChannels, tryCatch, bind.
  destruct (getNetworks_total w) as (networks & w1 & Hnet). rewrite Hnet.
  destruct networks as [|network rest]; [reflexivity|].
  cbn [List.length Nat.eqb].
  destruct (getChannels_loop_fanOut (network :: rest) [] w1)
    as (rs & w' & Hall & _ & Hloop).
  rewrite Hall, Hloop. reflexivity.
Qed.

(** *** Records keyed by strings *)

Lemma get_set {V} (o : Obj V) (k k' : string) (v : V) :
  JS.get (JS.set o k v) k' = if String.eqb k k' then Some v else JS.get o k'.
Proof.
  induction o as [|[k0 v0] o IH]; cbn.
  - reflexivity.
  - destruct (String.eqb_spec k0 k) as [->|Hne]; cbn.
    + destruct (String.eqb k k'); reflexivity.
    + rewrite IH. destruct (String.eqb_spec k0 k') as [->|Hne'].
      * destruct (String.eqb_spec k k'); [congruence | reflexivity].
      * reflexivity.
Qed.

Lemma in_keys_set {V} (o : Obj V) (k k' : string) (v : V) :
  In k' (keys (JS.set o k v)) -> k' = k \/ In k' (keys o).
Proof.
  unfold keys. induction o as [|[k0 v0] o IH]; cbn.
  - intuition.
  - destruct (String.eqb_spec k0 k) as [->|Hne]; cbn; intuition.
Qed.

Lemma NoDup_keys_set {V} (o : Obj V) (k : string) (v : V) :
  NoDup (keys o) -> NoDup (keys (JS.set o k v)).
Proof.
  unfold keys. induction o as [|[k0 v0] o IH]; cbn; intro Hnd.
  - constructor; [intros [] | constructor].
  - inversion Hnd as [|? ? Hnotin Hrest]; subst.
    destruct (String.eqb_spec k0 k) as [->|Hne]; cbn.
    + constructor; assumption.
    + constructor; [|auto].
      intro Hin. apply (in_keys_set o k k0 v) in Hin. intuition.
Qed.

Lemma NoDup_keys_assign {V} (source target : Obj V) :
  NoDup (keys target) -> NoDup (keys (assign target source)).
Proof.
  unfold assign. revert target.
  induction source as [|[k v] source IH]; cbn; intros target Hnd.
  - exact Hnd.
  - apply IH, NoDup_keys_set, Hnd.
Qed.

Lemma get_app {V} (a b : Obj V) (k : string) :
  JS.get (a ++ b) k = match JS.get a k with Some x => Some x | None => JS.get b k end.
Proof.
  induction a as [|[k0 v0] a IH]; cbn; [reflexivity|].
  destruct (String.eqb k0 k); [reflexivity | exact IH].
Qed.

Lemma get_assign {V} (source target : Obj V) (k : string) :
  JS.get (assign target source) k
  = match getLast source k with Some x => Some x | None => JS.get target k end.
Proof.
  unfold assign, getLast. revert target.
  induction source as [|[k0 v0] source IH]; cbn; intro target.
  - reflexivity.
  - rewrite IH, get_app, get_set. cbn.
    destruct (JS.get (rev source) k); [reflexivity|].
    destruct (String.eqb k0 k); reflexivity.
Qed.

(** *** The aggregate of [getBalances] *)

Lemma NoDup_keys_fold_addBalances (results : list Response) :
  forall all : Obj Balance,
  NoDup (keys all) -> NoDup (keys (fold_left addBalances results all)).
Proof.
  induction results as [|v results IH]; cbn; intros all Hnd; [exact Hnd|].
  apply IH. unfold addBalances.
  destruct (result_balances v); [apply NoDup_keys_assign|]; exact Hnd.
Qed.

Lemma get_fold_addBalances (k : string) (results : list Response) :
  forall all : Obj Balance,
  JS.get (fold_left addBalances results all) k
  = fold_left
      (fun current v =>
         match result_balances v with
         | Some balances =>
             match getLast balances k with
             | Some x => Some x
             | None => current
             end
         | None => current
         end)
      results (JS.get all k).
Proof.
  induction results as [|v results IH]; cbn; intro all; [reflexivity|].
  rewrite IH. f_equal. unfold addBalances.
  destruct (result_balances v); [apply get_assign | reflexivity].
Qed.

Lemma attemptAll_successes (call : Network -> M Response)
      (logFailure : Network -> Error -> M unit) (P : Response -> Prop) :
  (forall network w, match fst (call network w) with Ok v => P v | Throw _ => True end) ->
  forall networks w rs w',
  attemptAll call logFailure networks w = (Ok rs, w') ->
  Forall P (successes rs).
Proof.
  intros Hcall networks.
  induction networks as [|network rest IH]; intros w rs w' Hrun.
  - cbn in Hrun. injection Hrun as <- <-. constructor.
  - rewrite attemptAll_cons in Hrun.
    pose proof (Hcall network w) as Hv.
    destruct (call network w) as [[v|e] w1]; cbn in Hv.
    + destruct (attemptAll call logFailure rest w1) as [[rs'|e'] w2] eqn:Hrest;
        [|discriminate].
      injection Hrun as <- <-. cbn. constructor; [exact Hv | eapply IH; eassumption].
    + destruct (logFailure network e w1) as [[u|e'] w2]; [|discriminate].
      destruct (attemptAll call logFailure rest w2) as [[rs'|e''] w3] eqn:Hrest;
        [|discriminate].
      injection Hrun as <- <-. cbn. eapply IH; eassumption.
Qed.

Lemma fold_addBalances_neutral (results : list Response) (all : Obj Balance) :
  Forall (fun v => forall a, addBalances a v = a) results ->
  fold_left addBalances results all = all.
Proof.
  revert all. induction results as [|v results IH]; cbn; intros all H; [reflexivity|].
  inversion H as [|? ? Hv Hrest]; subst. rewrite Hv. apply IH, Hrest.
Qed.

(** *** Fan-out *)

Lemma isOk_fanOutBalances (w : World) : isOk (fst (fanOutBalances w)) = true.
Proof.
  unfold fanOutBalances, bind.
  destruct (getNetworks_total w) as (networks & w1 & Hnet). rewrite Hnet.
  destruct (getBalances_loop_fanOut networks [] 0 w1) as (rs & w' & Hall & _).
  rewrite Hall. reflexivity.
Qed.

Lemma isOk_fanOutChannels (w : World) : isOk (fst (fanOutChannels w)) = true.
Proof.
  unfold fanOutChannels, bind.
  destruct (getNetworks_total w) as (networks & w1 & Hnet). rewrite Hnet.
  destruct (getChannels_loop_fanOut networks [] w1) as (rs & w' & Hall & _).
  rewrite Hall. reflexivity.
Qed.

Lemma successes_all_failed (errors : list Error) :
  successes (map (@Throw Response) errors) = [].
Proof. induction errors as [|e errors IH]; cbn; [reflexivity | exact IH]. Qed.

(** C4. [getBalances] and [getChannels] behave as the fan-out of the
    specification over the networks [getNetworks] returns: every network is
    called once, in order; a call that throws is logged (one console line
    naming the network) and the remaining networks are still called; the
    value returned is the merge of the successful results and of nothing
    else ([Object.assign] in query order for balances, concatenation for
    channels); neither operation throws; and when every call fails the
    merge is the empty record, respectively the empty list. *)
Theorem fanOut_isolates_failures
        (w : World) (networks : list Network) (errors : list Error)
        (network : Network) (e : Error) :
  getBalances w = fanOutBalances w
  /\ getChannels w = fanOutChannels w
  /\ isOk (fst (getBalances w)) = true
  /\ isOk (fst (getChannels w)) = true
  /\ (exists rs w',
        attemptAll callBalances logBalancesFailure networks w = (Ok rs, w')
        /\ List.length rs = List.length networks)
  /\ (exists rs w',
        attemptAll callChannels logChannelsFailure networks w = (Ok rs, w')
        /\ List.length rs = List.length networks)
  /\ (exists line,
        logBalancesFailure network e w
        = (Ok tt, {| requests := requests w; console := console w ++ [line] |})
        /\ (line = NoWalletConfigured (networkName network)
            \/ line = BalancesFailed (networkName network) (message e)))
  /\ logChannelsFailure network e w
     = (Ok tt, {| requests := requests w;
                  console := console w
                             ++ [ChannelsFailedFor (networkName network) (message e)] |})
  /\ mergeBalances (successes (map (@Throw Response) errors)) = []
  /\ mergeChannels (successes (map (@Throw Response) errors)) = [].
Proof.
  split; [apply getBalances_fanOut|].
  split; [apply getChannels_fanOut|].
  split; [rewrite getBalances_fanOut; apply isOk_fanOutBalances|].
  split; [rewrite getChannels_fanOut; apply isOk_fanOutChannels|].
  split.
  { destruct (getBalances_loop_fanOut networks [] 0 w) as (rs & w' & Hall & Hlen & _).
    eauto. }
  split.
  { destruct (getChannels_loop_fanOut networks [] w) as (rs & w' & Hall & Hlen & _).
    eauto. }
  split.
  { unfold logBalancesFailure, log. destruct (_ || _); eauto. }
  split; [reflexivity|].
  rewrite successes_all_failed. split; reflexivity.
Qed.

Lemma lastReported_snoc (k : string) (results : list Response) (v : Response) :
  lastReported k (results ++ [v])
  = match result_balances v with
    | Some balances =>
        match getLast balances k with
        | Some x => Some x
        | None => lastReported k results
        end
    | None => lastReported k results
    end.
Proof. unfold lastReported. rewrite fold_left_app. reflexivity. Qed.

(** C10. The record [getBalances] returns has one entry per asset id, and
    the entry of an asset is the one reported by the last network, in
    query order, whose call succeeded and whose result has that asset:
    an earlier value is overwritten, never added to. *)
Theorem getBalances_later_network_overwrites (w : World) :
  exists networks w1 rs w2 all,
    getNetworks w = (Ok networks, w1)
    /\ attemptAll callBalances logBalancesFailure networks w1 = (Ok rs, w2)
    /\ getBalances w = (Ok all, w2)
    /\ NoDup (keys all)
    /\ forall k, JS.get all k = lastReported k (successes rs).
Proof.
  destruct (getNetworks_total w) as (networks & w1 & Hnet).
  destruct (getBalances_loop_fanOut networks [] 0 w1) as (rs & w2 & Hall & _ & _).
  exists networks, w1, rs, w2, (mergeBalances (successes rs)).
  repeat split; try assumption.
  - rewrite getBalances_fanOut. unfold fanOutBalances, bind.
    rewrite Hnet, Hall. reflexivity.
  - apply NoDup_keys_fold_addBalances. constructor.
  - intro k. unfold mergeBalances, lastReported.
    rewrite get_fold_addBalances. reflexivity.
Qed.

(** *** Operations and failures *)


(** *** Mutating calls without evidence of success *)




(** *** [GetBalances] answered without a recognisable asset *)

Lemma assign_nil {V} (all : Obj V) : assign all [] = all.
Proof. reflexivity. Qed.

Lemma handleResponse_noAsset (response : HttpResponse) :
  noAssetRecognised response ->
  match handleResponse "hydra_app.WalletService" "GetBalances" response with
  | Ok v => forall all, addBalances all v = all
  | Throw _ => True
  end.
Proof.
  intros (Hstatus & Hgrpc & Hasset & Hdecode).
  unfold handleResponse, withoutStatus. rewrite Hgrpc, Hstatus.
  cbn. unfold tryDecode.
  destruct Hdecode as [Hnone|Hempty].
  - rewrite Hnone. cbn. unfold textWorkarounds. cbn.
    destruct (includes (text (body response)) "grpc-status:0"); cbn; [|exact I].
    unfold parseBalancesText. rewrite Hasset. reflexivity.
  - rewrite Hempty. cbn. reflexivity.
Qed.

Lemma callBalances_noAsset (network : Network) (w : World) :
  (forall n sent response,
      server n sent = Responded response ->
      url sent = getBalancesUrl ->
      noAssetRecognised response) ->
  match fst (callBalances network w) with
  | Ok v => forall all, addBalances all v = all
  | Throw _ => True
  end.
Proof.
  intro Hserver.
  unfold callBalances, grpcCall, tryCatch, bind, lift, fetch, log, throw.
  destruct (encode _) as [bytes|e]; cbn; [|exact I].
  destruct (server _ _) as [response|e] eqn:Hresp; cbn; [|exact I].
  apply Hserver in Hresp; [|reflexivity].
  apply handleResponse_noAsset in Hresp.
  destruct (handleResponse _ _ response); cbn; [exact Hresp | exact I].
Qed.

(** C8. When every [GetBalances] response of the endpoint is HTTP 200
    without a [grpc-status] header and with a body in which no asset can
    be recognised, [getBalances] returns [{ balances: {} }] and does not
    throw. *)
Theorem getBalances_without_assets_is_empty (w : World) :
  (forall n sent response,
      server n sent = Responded response ->
      url sent = getBalancesUrl ->
      noAssetRecognised response) ->
  fst (getBalances w) = Ok [].
Proof.
  intro Hserver.
  rewrite getBalances_fanOut. unfold fanOutBalances, bind.
  destruct (getNetworks_total w) as (networks & w1 & Hnet). rewrite Hnet.
  destruct (getBalances_loop_fanOut networks [] 0 w1) as (rs & w' & Hall & _).
  rewrite Hall. cbn. f_equal.
  apply fold_addBalances_neutral.
  eapply attemptAll_successes; [|exact Hall].
  intros network w0. apply callBalances_noAsset, Hserver.
Qed.

End ClientProperties.

(* ===================================================================== *)
(** ** The client on concrete endpoints                                  *)
(* ===================================================================== *)



Lemma getBalances_without_assets_is_empty_witness :
  fst (getBalances (proto := emptyMessages) (env := errorPageServer) initialWorld) = Ok [].
Proof.
  apply (getBalances_without_assets_is_empty
           (proto := emptyMessages) (env := errorPageServer)).
  intros n sent response H Hurl.
  cbn [server errorPageServer] in H. rewrite Hurl in H.
  vm_compute in H. injection H as <-.
  repeat split; try (vm_compute; reflexivity).
  left. vm_compute. reflexivity.
Defined.


(** Three networks, the call for the second one fails: the aggregate holds
    the results of the other two, the later one over the earlier one, and
    the failure is on the console. *)
Example getBalances_three_networks :
  getBalances (proto := emptyMessages) (env := threeNetworksServer) initialWorld
  = (Ok [(assetA, ("7.0", "8.0"))],
     {| requests :=
          map (fun path => {| url := ("http://localhost:5001/" ++ path)%string;
                              frame := emptyFrame |})
              [ "hydra_app.AppService/GetNetworks";
                "hydra_app.WalletService/GetBalances";
                "hydra_app.WalletService/GetBalances";
                "hydra_app.WalletService/GetBalances" ];
        console :=
          [ GrpcCallFailed "hydra_app.WalletService" "GetBalances" "Failed to fetch";
            BalancesFailed "EVM 11155111"
              (message (enhancedError (env := threeNetworksServer)
                          "hydra_app.WalletService" "GetBalances"
                          (MkError TypeErrorK "Failed to fetch" None))) ] |}).
Proof. vm_compute. reflexivity. Qed.

(* ===================================================================== *)
(** ** Properties of the stream subscriber and of the hooks              *)
(* ===================================================================== *)

Section StreamProperties.

Import Stream Hooks.

Lemma nth_error_replace {A} (l : list A) (k : nat) (x y : A) :
  nth_error l k = Some x ->
  nth_error (firstn k l ++ y :: skipn (S k) l) k = Some y.
Proof.
  revert k. induction l as [|a l IH]; intros [|k] H; cbn in *; try discriminate.
  - reflexivity.
  - apply IH, H.
Qed.


Lemma replace_replace {A} (l : list A) (k : nat) (x y z : A) :
  nth_error l k = Some x ->
  firstn k (firstn k l ++ y :: skipn (S k) l)
  ++ z :: skipn (S k) (firstn k l ++ y :: skipn (S k) l)
  = firstn k l ++ z :: skipn (S k) l.
Proof.
  revert k. induction l as [|a l IH]; intros [|k] H; cbn in *; try discriminate.
  - reflexivity.
  - f_equal. apply IH, H.
Qed.

(** *** The subscription handle *)

Lemma unsubscribe_idempotent (s : Subscription) :
  unsubscribe (unsubscribe s) = unsubscribe s.
Proof. unfold unsubscribe. destruct (reader s); reflexivity. Qed.

Lemma processStream_cancelled {Ev} (decodeEvent : list byte -> option Ev)
      (s : Subscription) (i : NetInput) :
  processStream decodeEvent (unsubscribe s) i = (unsubscribe s, []).
Proof.
  unfold processStream, unsubscribe.
  destruct (reader s); cbn; [reflexivity | |];
    destruct (running s); reflexivity.
Qed.

Lemma feed_cancelled {Ev} (decodeEvent : list byte -> option Ev)
      (s : Subscription) (inputs : list NetInput) :
  feed decodeEvent (unsubscribe s) inputs = (unsubscribe s, []).
Proof.
  induction inputs as [|i inputs IH]; cbn [feed]; [reflexivity|].
  rewrite processStream_cancelled, IH. reflexivity.
Qed.

Lemma subscriptions_set {Ev} (l : list Subscription) (h : Hook Ev) :
  subscriptions (setSubscriptions l h) = l.
Proof. reflexivity. Qed.

Lemma setSubscriptions_twice {Ev} (l1 l2 : list Subscription) (h : Hook Ev) :
  setSubscriptions l2 (setSubscriptions l1 h) = setSubscriptions l2 h.
Proof. reflexivity. Qed.

Lemma callHandle_idempotent {Ev} (k : nat) (h : Hook Ev) :
  callHandle k (callHandle k h) = callHandle k h.
Proof.
  unfold callHandle.
  destruct (nth_error (subscriptions h) k) as [s|] eqn:Hk.
  - rewrite subscriptions_set, (nth_error_replace _ _ _ _ Hk).
    rewrite setSubscriptions_twice, (replace_replace _ _ _ _ _ Hk).
    rewrite unsubscribe_idempotent. reflexivity.
  - rewrite Hk. reflexivity.
Qed.

(** *** Read errors and decode errors *)



(** *** Invalidation *)

Lemma fold_invalidate (keys : list QueryKey) (b : Browser) :
  fold_left (fun b k => invalidateQueries k b) keys b
  = {| invalidated := invalidated b ++ keys; timers := timers b |}.
Proof.
  revert b. induction keys as [|k keys IH]; intro b; cbn.
  - rewrite app_nil_r. destruct b; reflexivity.
  - rewrite IH. cbn. rewrite <- app_assoc. reflexivity.
Qed.

Lemma whenPresent_spec {A} (x : option A) (keys : list QueryKey) (b : Browser) :
  whenPresent x keys b
  = {| invalidated := invalidated b ++ match x with Some _ => keys | None => [] end;
       timers := timers b |}.
Proof.
  destruct x; cbn.
  - apply fold_invalidate.
  - rewrite app_nil_r. destruct b; reflexivity.
Qed.

(** C2, as the code has it. For every node event with a [channelUpdate]
    payload that reaches the handler of a mounted hook, the handler marks
    [['hydra','channels']] and then [['hydra','balances']] stale at once; it
    schedules nothing: the timer queue is left as it was. *)
Theorem channelUpdate_invalidates_channels_and_balances
        (event : NodeEvent) (h : Hook NodeEvent) (channelId : string) :
  mounted h = true ->
  channelUpdate event = Some channelId ->
  exists more,
    invalidated (browser (handleNodeEvent event h))
    = invalidated (browser h) ++ channelsKey :: balancesKey :: more
    /\ timers (browser (handleNodeEvent event h)) = timers (browser h).
Proof.
  intros Hm Hc. unfold handleNodeEvent. rewrite Hm. cbn.
  rewrite !whenPresent_spec, Hc. cbn.
  eexists. split; [|reflexivity].
  rewrite <- !app_assoc. cbn. reflexivity.
Qed.

Lemma channelUpdate_invalidates_channels_and_balances_witness :
  exists more,
    invalidated (browser (handleNodeEvent (channelUpdated "c1") nodeHookConnected))
    = invalidated (browser nodeHookConnected) ++ channelsKey :: balancesKey :: more
    /\ timers (browser (handleNodeEvent (channelUpdated "c1") nodeHookConnected))
       = timers (browser nodeHookConnected).
Proof.
  apply (channelUpdate_invalidates_channels_and_balances
           (channelUpdated "c1") nodeHookConnected "c1"); reflexivity.
Defined.

(** C2, counterexample. A "channel updated" event handled by a mounted
    hook: the two keys are invalidated once, and no timer is pending
    afterwards, so no invalidation follows at +2 s or +5 s.  The delayed
    pair exists in [useConnectToPeer] only, for [['hydra','peers']]. *)
Lemma channelUpdate_schedules_nothing :
  mounted nodeHookConnected = true
  /\ invalidated (browser (handleNodeEvent (channelUpdated "c1") nodeHookConnected))
     = [channelsKey; balancesKey]
  /\ timers (browser (handleNodeEvent (channelUpdated "c1") nodeHookConnected)) = []
  /\ connectToPeer_onSuccess {| invalidated := []; timers := [] |}
     = {| invalidated := [peersKey];
          timers := [ {| delay := 2000; action := Invalidate peersKey |};
                      {| delay := 5000; action := Invalidate peersKey |} ] |}.
Proof. repeat split. Qed.

End StreamProperties.

Section HookProperties.

Import Stream Hooks.

Context {proto : Proto}.




(** *** After the cleanup of the effect *)

Lemma quietSince_refl {Ev} (h : Hook Ev) :
  mounted h = false -> Forall isReconnect (timers (browser h)) -> quietSince h h.
Proof. intros Hm Ht. unfold quietSince. auto 10. Qed.

Lemma quietSince_trans {Ev} (h1 h2 h3 : Hook Ev) :
  quietSince h1 h2 -> quietSince h2 h3 -> quietSince h1 h3.
Proof.
  unfold quietSince.
  intros (_ & Hi & Hl & Hc & Hn & _) (Hm & Hi' & Hl' & Hc' & Hn' & Ht').
  repeat split; try assumption; try congruence; lia.
Qed.

Lemma dispatch_unmounted (h : Hook NodeEvent) (o : Output NodeEvent) :
  mounted h = false -> Forall isReconnect (timers (browser h)) ->
  quietSince h (dispatch handleNodeEvent handleNodeError h o).
Proof.
  intros Hm Ht.
  destruct o as [ev|e|]; cbn [dispatch]; unfold handleNodeEvent, handleNodeError;
    cbn [mounted record]; rewrite ?Hm; cbn [negb];
    unfold quietSince; cbn; auto 10.
Qed.

Lemma fold_dispatch_unmounted (out : list (Output NodeEvent)) :
  forall h : Hook NodeEvent,
  mounted h = false -> Forall isReconnect (timers (browser h)) ->
  quietSince h (fold_left (dispatch handleNodeEvent handleNodeError) out h).
Proof.
  induction out as [|o out IH]; intros h Hm Ht; cbn [fold_left].
  - apply quietSince_refl; assumption.
  - pose proof (dispatch_unmounted h o Hm Ht) as Hq.
    eapply quietSince_trans; [exact Hq|].
    destruct Hq as (Hm' & _ & _ & _ & _ & Ht'). apply IH; assumption.
Qed.

Lemma Forall_removeNth {A} (P : A -> Prop) (n : nat) (l : list A) :
  Forall P l -> Forall P (removeNth n l).
Proof.
  intro H. unfold removeNth. apply Forall_app. split.
  - apply Forall_forall. intros x Hx. rewrite Forall_forall in H.
    apply H. eapply (In_nth_error) in Hx. destruct Hx as [i Hi].
    apply nth_error_In with (n := i).
    rewrite nth_error_firstn in Hi. destruct (i <? n); [exact Hi | discriminate].
  - apply Forall_forall. intros x Hx. rewrite Forall_forall in H.
    apply H. revert l Hx H. generalize (S n) as m.
    induction m as [|m IH]; intros l Hx H; cbn in Hx; [exact Hx|].
    destruct l as [|a l]; [destruct Hx|]. right.
    apply (IH l Hx). intros y Hy. apply H. now right.
Qed.

Lemma length_removeNth {A} (n : nat) (l : list A) :
  List.length (removeNth n l) <= List.length l.
Proof.
  unfold removeNth. rewrite length_app, length_firstn, length_skipn. lia.
Qed.

Lemma callHandle_quiet {Ev} (k : nat) (h : Hook Ev) :
  mounted h = false -> Forall isReconnect (timers (browser h)) ->
  quietSince h (callHandle k h).
Proof.
  intros Hm Ht. unfold callHandle.
  destruct (nth_error (subscriptions h) k); unfold quietSince; cbn; auto 10.
Qed.

Lemma quietSince_setIsConnected {Ev} (c : bool) (h1 h2 : Hook Ev) :
  quietSince h1 h2 -> quietSince h1 (setIsConnected c h2).
Proof. unfold quietSince. cbn. trivial. Qed.

Lemma nodeStep_unmounted (h : Hook NodeEvent) (i : Input) :
  mounted h = false -> Forall isReconnect (timers (browser h)) ->
  quietSince h (nodeStep h i).
Proof.
  intros Hm Ht. unfold nodeStep.
  destruct i as [k x|k| |n|o|]; cbn [step].
  - destruct (nth_error (subscriptions h) k) as [s|];
      [|apply quietSince_refl; assumption].
    destruct (processStream decodeNodeEvent s x) as [s' out].
    eapply quietSince_trans; [|apply fold_dispatch_unmounted; cbn; assumption].
    unfold quietSince; cbn; auto 10.
  - apply callHandle_quiet; assumption.
  - destruct (unsubscribeState h);
      [apply callHandle_quiet | apply quietSince_refl]; assumption.
  - destruct (nth_error (timers (browser h)) n) as [t|] eqn:Hn;
      [|apply quietSince_refl; assumption].
    assert (Hrec : action t = Reconnect).
    { rewrite Forall_forall in Ht. apply Ht. eapply nth_error_In, Hn. }
    rewrite Hrec. cbn [mounted withBrowser]. rewrite Hm.
    unfold quietSince; cbn.
    repeat split; auto using length_removeNth, Forall_removeNth.
  - unfold connectSettled.
    destruct (connecting h) as [|pending] eqn:Hc;
      [apply quietSince_refl; assumption|].
    destruct (connectError o) as [error|].
    + eapply quietSince_trans with
        (h2 := dispatch handleNodeEvent handleNodeError
                        (setConnecting pending h) (CallOnError error)).
      * eapply quietSince_trans; [|apply dispatch_unmounted; cbn; assumption].
        unfold quietSince; cbn. rewrite Hc. auto 10.
      * pose proof (dispatch_unmounted (setConnecting pending h) (CallOnError error)
                                       Hm Ht) as (Hm' & _ & _ & _ & _ & Ht').
        unfold quietSince; cbn. auto 10.
    + cbn [mounted setSubscriptions setConnecting]. rewrite Hm.
      unfold quietSince; cbn. rewrite Hc. auto 10.
  - apply quietSince_setIsConnected.
    assert (Hq : quietSince h (setMounted false h))
      by (unfold quietSince; cbn; auto 10).
    cbn [capturedUnsubscribe setMounted].
    destruct (capturedUnsubscribe h) as [k|]; [|exact Hq].
    eapply quietSince_trans; [exact Hq|].
    apply callHandle_quiet; [reflexivity | exact Ht].
Qed.

Lemma nodeRun_unmounted (inputs : list Input) :
  forall h : Hook NodeEvent,
  mounted h = false -> Forall isReconnect (timers (browser h)) ->
  quietSince h (nodeRun h inputs).
Proof.
  unfold nodeRun, run.
  induction inputs as [|i inputs IH]; intros h Hm Ht; cbn [fold_left].
  - apply quietSince_refl; assumption.
  - pose proof (nodeStep_unmounted h i Hm Ht) as Hq.
    eapply quietSince_trans; [exact Hq|].
    destruct Hq as (Hm' & _ & _ & _ & _ & Ht'). apply IH; assumption.
Qed.

(** C7, as the code has it. Calling the unsubscribe function a second time
    changes nothing, in the subscription and in the hook that holds it.
    Once it was called, the subscription it belongs to calls neither
    [onEvent] nor [onError] again, whatever the network delivers.  A
    reconnect the hook had scheduled is not withdrawn by the handle; it is
    the cleanup of the effect that silences the hook: from an unmounted
    state on, whatever happens, no reconnect is started, no query is
    invalidated, no event is shown and no timer is added. *)
Theorem unsubscribe_idempotent_and_silent
        {Ev : Type} (decodeEvent : list byte -> option Ev)
        (s : Subscription) (inputs : list NetInput)
        (k : nat) (held : Hook Ev)
        (h : Hook NodeEvent) (later : list Input) :
  mounted h = false ->
  Forall isReconnect (timers (browser h)) ->
  unsubscribe (unsubscribe s) = unsubscribe s
  /\ callHandle k (callHandle k held) = callHandle k held
  /\ feed decodeEvent (unsubscribe s) inputs = (unsubscribe s, [])
  /\ quietSince h (nodeRun h later).
Proof.
  intros Hm Ht.
  split; [apply unsubscribe_idempotent|].
  split; [apply callHandle_idempotent|].
  split; [apply feed_cancelled|].
  apply nodeRun_unmounted; assumption.
Qed.

End HookProperties.

(* ===================================================================== *)
(** ** The hooks on concrete runs                                        *)
(* ===================================================================== *)



Lemma unsubscribe_idempotent_and_silent_witness :
  let s := Stream.opened true in
  let h := nodeRun (proto := emptyMessages) (Hooks.mount [] None) unmountAfterError in
  Stream.unsubscribe (Stream.unsubscribe s) = Stream.unsubscribe s
  /\ Hooks.callHandle 0 (Hooks.callHandle 0 nodeHookConnected)
     = Hooks.callHandle 0 nodeHookConnected
  /\ Stream.feed (decodeNodeEvent (Proto := emptyMessages)) (Stream.unsubscribe s)
                 [Stream.Chunk []; Stream.ReadError connectionReset]
     = (Stream.unsubscribe s, [])
  /\ quietSince h (nodeRun (proto := emptyMessages) h reconnectAndFail).
Proof.
  apply (unsubscribe_idempotent_and_silent
           (proto := emptyMessages) (decodeNodeEvent (Proto := emptyMessages))
           (Stream.opened true) [Stream.Chunk []; Stream.ReadError connectionReset]
           0 nodeHookConnected
           (nodeRun (proto := emptyMessages) (Hooks.mount [] None) unmountAfterError)
           reconnectAndFail).
  - reflexivity.
  - cbn. repeat constructor.
Defined.

(** C7, counterexample. The stream of a mounted hook fails, which
    schedules a reconnect; the unsubscribe function is then called, twice.
    The timer still fires, a new stream is opened, and when it fails
    [onError] is called again: an invocation after the cancellation. *)
Lemma reconnect_outlives_unsubscribe :
  Hooks.timers (Hooks.browser
                  (nodeRun (proto := emptyMessages) (Hooks.mount [] None) cancelAfterError))
  = [{| Hooks.delay := 5000; Hooks.action := Hooks.Reconnect |}]
  /\ Hooks.calls (nodeRun (proto := emptyMessages) (Hooks.mount [] None) cancelAfterError)
     = [Stream.CallOnError connectionReset]
  /\ Hooks.calls (nodeRun (proto := emptyMessages) (Hooks.mount [] None)
                          (cancelAfterError ++ reconnectAndFail))
     = [Stream.CallOnError connectionReset; Stream.CallOnError connectionResetAgain].
Proof. repeat split. Qed.

(* ===================================================================== *)
(** ** Properties of the call executor: status metadata                  *)
(* ===================================================================== *)

Section ExecutorProperties.

Context {proto : Proto} {fields : Fields} {env : Env}.

(** [grpcCall] is [grpcCallWith] at the encoding of the request. *)
Lemma grpcCall_grpcCallWith (servicePath method : string) (request : Request) :
  grpcCall servicePath method request
  = grpcCallWith servicePath method (encode request).
Proof. reflexivity. Qed.

(** What a call does, by the outcome of the encoder, of [fetch] and of the
    handling of the response. *)
Lemma grpcCallWith_responded (servicePath method : string)
      (messageBytes : list byte) (response : HttpResponse) (w : World) :
  server (List.length (requests w)) (requestSent servicePath method messageBytes)
  = Responded response ->
  grpcCallWith servicePath method (Ok messageBytes) w
  = match handleResponse servicePath method response with
    | Ok v => (Ok v, afterRequest servicePath method messageBytes w)
    | Throw e =>
        (Throw (enhancedError servicePath method e),
         {| requests := requests w ++ [requestSent servicePath method messageBytes];
            console := console w ++ [GrpcCallFailed servicePath method (message e)] |})
    end.
Proof.
  intro Hserver.
  unfold grpcCallWith, tryCatch, bind, lift, fetch, log, throw, afterRequest.
  unfold requestSent in Hserver. cbv beta iota zeta. rewrite Hserver.
  destruct (handleResponse servicePath method response); reflexivity.
Qed.

Lemma isCall_true (servicePath method s m : string) :
  isCall servicePath method s m = true -> (servicePath, method) = (s, m).
Proof.
  unfold isCall. intro H. apply andb_prop in H as [H1 H2].
  apply String.eqb_eq in H1, H2. congruence.
Qed.

Lemma isCall_not_in (servicePath method s m : string) (calls : list (string * string)) :
  ~ In (servicePath, method) calls -> In (s, m) calls ->
  isCall servicePath method s m = false.
Proof.
  intros Hnot Hin. destruct (isCall servicePath method s m) eqn:H; [|reflexivity].
  apply isCall_true in H. rewrite H in Hnot. contradiction.
Qed.

Lemma withStatusZero_ok (servicePath method : string) (data : list byte) :
  exists v, withStatusZero servicePath method data = Ok v.
Proof.
  unfold withStatusZero, when, tryDecode, tryDecodeOr.
  repeat match goal with
         | |- context [if ?c then _ else _] => destruct c
         | |- context [decodeFramed ?T ?d] => destruct (decodeFramed T d)
         end; cbn; eauto.
Qed.

Lemma withStatusZero_undecoded (servicePath method : string) (data : list byte) :
  ~ In (servicePath, method) decodedWithStatusZero ->
  withStatusZero servicePath method data = Ok EmptyObject.
Proof.
  intro Hnot. unfold withStatusZero.
  rewrite !(isCall_not_in servicePath method _ _ decodedWithStatusZero Hnot)
    by (cbn; tauto).
  reflexivity.
Qed.


(** X2.  A response with the header [grpc-status: 0] never makes
    [grpcCall] throw, whatever its HTTP status and body; and for every call
    outside the nine the status branch has a decoder for, the result is
    the empty object: the body is not decoded. *)
Theorem grpcCall_status_zero_never_throws
        (servicePath method : string) (messageBytes : list byte)
        (response : HttpResponse) (w : World) :
  server (List.length (requests w)) (requestSent servicePath method messageBytes)
  = Responded response ->
  grpcStatus response = Some "0" ->
  exists v,
    grpcCallWith servicePath method (Ok messageBytes) w
    = (Ok v, afterRequest servicePath method messageBytes w)
    /\ (~ In (servicePath, method) decodedWithStatusZero -> v = EmptyObject).
Proof.
  intros Hserver Hstatus.
  rewrite (grpcCallWith_responded _ _ _ _ _ Hserver).
  unfold handleResponse. rewrite Hstatus. cbn [String.eqb Ascii.eqb Bool.eqb].
  destruct (withStatusZero_ok servicePath method (body response)) as [v Hv].
  rewrite Hv. exists v. split; [reflexivity|].
  intro Hnot. rewrite (withStatusZero_undecoded _ _ _ Hnot) in Hv. congruence.
Qed.

Lemma prefix_app (a b : string) : String.prefix a (a ++ b) = true.
Proof.
  induction a as [|c a IH]; cbn.
  - destruct b; reflexivity.
  - destruct (Ascii.ascii_dec c c); [apply IH | congruence].
Qed.

Lemma includes_prefix (hay needle : string) :
  String.prefix needle hay = true -> includes hay needle = true.
Proof. intro H. destruct hay; cbn [includes]; rewrite H; reflexivity. Qed.

Lemma includes_app (a b c : string) : includes (a ++ b ++ c) b = true.
Proof.
  induction a as [|x a IH]; cbn.
  - apply includes_prefix, prefix_app.
  - rewrite IH. apply orb_true_r.
Qed.

(** X3.  Whatever the call, a response without a [grpc-status] header
    whose HTTP status is not 200 makes [grpcCall] throw, with a cause that
    names the HTTP status; the body is not looked at. *)
Theorem grpcCall_rejects_http_error
        (servicePath method : string) (messageBytes : list byte)
        (response : HttpResponse) (w : World) :
  server (List.length (requests w)) (requestSent servicePath method messageBytes)
  = Responded response ->
  grpcStatus response = None ->
  status response <> 200 ->
  exists w',
    grpcCallWith servicePath method (Ok messageBytes) w
    = (Throw (enhancedError servicePath method (noGrpcHeaders response)), w')
    /\ includes (message (noGrpcHeaders response))
                (numberToString (N.of_nat (status response))) = true.
Proof.
  intros Hserver Hstatus Hhttp.
  rewrite (grpcCallWith_responded _ _ _ _ _ Hserver).
  unfold handleResponse. rewrite Hstatus. unfold withoutStatus.
  destruct (Nat.eqb_spec (status response) 200) as [|_]; [contradiction|].
  cbn [when seq endThrowing]. eexists. split; [reflexivity|].
  unfold noGrpcHeaders. cbn [message]. apply includes_app.
Qed.

(** The requests a call adds. *)
Lemma requests_grpcCallWith
      (servicePath method : string) (encoded : Result (list byte)) (w : World) :
  requests (snd (grpcCallWith servicePath method encoded w))
  = requests w
    ++ match encoded with
       | Ok messageBytes => [requestSent servicePath method messageBytes]
       | Throw _ => []
       end.
Proof.
  unfold grpcCallWith, tryCatch, bind, lift, fetch, log, throw, requestSent.
  destruct encoded as [bytes|e]; cbn.
  - destruct (server _ _) as [response|e]; cbn.
    + destruct (handleResponse servicePath method response); reflexivity.
    + reflexivity.
  - now rewrite app_nil_r.
Qed.


End ExecutorProperties.

(* ===================================================================== *)
(** ** Properties of the operations on peers, transactions, assets,
       markets and rentals                                               *)
(* ===================================================================== *)

Section MoreOperationsProperties.

Context {proto : Proto} {fields : Fields} {env : Env}.

Lemma grpcCallWith_error (servicePath method : string)
      (encoded : Result (list byte)) (w : World) :
  match fst (grpcCallWith servicePath method encoded w) with
  | Ok _ => True
  | Throw e => name e = GrpcCallErrorK
  end.
Proof.
  unfold grpcCallWith, tryCatch, bind, lift, fetch, log, throw.
  destruct encoded as [bytes|e]; cbn.
  - destruct (server _ _) as [response|e]; cbn.
    + destruct (handleResponse servicePath method response); cbn; eauto.
    + eauto.
  - eauto.
Qed.

Lemma readOrRethrow_result (operation servicePath method : string)
      (request : ReadRequest) (w : World) :
  fst (readOrRethrow operation servicePath method request w)
  = fst (grpcCallWith servicePath method (encodeRead request) w).
Proof.
  unfold readOrRethrow, tryCatch, bind, ret, log, throw.
  destruct (grpcCallWith servicePath method (encodeRead request) w) as [[v|e] w'];
    reflexivity.
Qed.


(** X6.  When the server answers [GetDepositAddress] with the header
    [grpc-status: 0], [getDepositAddress] returns ['N/A'] whatever the
    body holds: the status branch of [grpcCall] has no decoder for this
    call, so the address in the response is not read. *)
Theorem getDepositAddress_with_status_header_is_NA
        (network : Network) (messageBytes : list byte)
        (response : HttpResponse) (w : World) :
  encodeRead (GetDepositAddressRequest network) = Ok messageBytes ->
  server (List.length (requests w))
         (requestSent "hydra_app.ClientService" "GetDepositAddress" messageBytes)
  = Responded response ->
  grpcStatus response = Some "0" ->
  getDepositAddress network w
  = (Ok "N/A",
     afterRequest "hydra_app.ClientService" "GetDepositAddress" messageBytes w).
Proof.
  intros Hencode Hserver Hstatus.
  unfold getDepositAddress, tryCatch, bind, ret.
  rewrite Hencode, (grpcCallWith_responded _ _ _ _ _ Hserver).
  unfold handleResponse. rewrite Hstatus. reflexivity.
Qed.

(** *** The fan-out loops *)

Lemma logPeersFailure_ok (network : Network) (e : Error) (w : World) :
  exists w', logPeersFailure network e w = (Ok tt, w').
Proof. unfold logPeersFailure, log. eauto. Qed.

Lemma getPeers_loop_cons (network : Network) (rest : list Network)
      (all : list Peer.Peer) (w : World) :
  getPeers_loop (network :: rest) all w
  = match callPeers network w with
    | (Ok v, w1) => getPeers_loop rest (all ++ peersOfOutcome network (Ok v)) w1
    | (Throw e, w1) =>
        match logPeersFailure network e w1 with
        | (Ok _, w2) => getPeers_loop rest all w2
        | (Throw e', w2) => (Throw e', w2)
        end
    end.
Proof.
  cbn [getPeers_loop].
  unfold bind, tryCatch, callPeers, logPeersFailure, peersOfOutcome, log, ret.
  destruct (grpcCallWith _ _ _ w) as [[v|e] w1].
  - destruct (result_nodeIds v); [reflexivity|]. now rewrite app_nil_r.
  - reflexivity.
Qed.

Lemma getPeers_loop_fanOut (networks : list Network) :
  forall (all : list Peer.Peer) (w : World),
  exists rs w',
    attemptAll callPeers logPeersFailure networks w = (Ok rs, w')
    /\ List.length rs = List.length networks
    /\ getPeers_loop networks all w = (Ok (all ++ mergePeers networks rs), w').
Proof.
  induction networks as [|network rest IH]; intros all w.
  - exists [], w. cbn. rewrite app_nil_r. auto.
  - rewrite attemptAll_cons, getPeers_loop_cons.
    destruct (callPeers network w) as [[v|e] w1].
    + destruct (IH (all ++ peersOfOutcome network (Ok v)) w1)
        as (rs & w' & Hall & Hlen & Hloop).
      exists (Ok v :: rs), w'. rewrite Hall, Hloop. cbn [mergePeers List.length].
      repeat split; try congruence. rewrite <- app_assoc. reflexivity.
    + destruct (logPeersFailure_ok network e w1) as (w2 & Hlog). rewrite Hlog.
      destruct (IH all w2) as (rs & w' & Hall & Hlen & Hloop).
      exists (Throw e :: rs), w'. rewrite Hall, Hloop. cbn.
      repeat split; congruence.
Qed.

Lemma Forall_peersOfOutcome (network : Network) (r : Result Response) :
  Forall (fun p => Peer.network p = network
                   /\ Peer.networkName p = networkName network)
         (peersOfOutcome network r).
Proof.
  unfold peersOfOutcome, peersOf.
  destruct r as [v|e]; [|constructor].
  destruct (result_nodeIds v) as [ids|]; [|constructor].
  induction ids; cbn; constructor; auto.
Qed.

Lemma Forall_mergePeers (networks : list Network) :
  forall rs,
    Forall (fun p => In (Peer.network p) networks
                     /\ Peer.networkName p = networkName (Peer.network p))
           (mergePeers networks rs).
Proof.
  induction networks as [|network rest IH]; intros rs; [constructor|].
  destruct rs as [|r rs]; [constructor|].
  cbn [mergePeers]. apply Forall_app. split.
  - eapply Forall_impl; [|apply Forall_peersOfOutcome].
    cbn. intros p [-> ->]. auto.
  - eapply Forall_impl; [|apply IH]. cbn. intros p [Hin Hname]. auto.
Qed.

(** X7.  [getPeers] never throws and is a fan-out over the configured
    networks: every network is asked once, in order; a network whose call
    fails is logged and adds nothing, the others are still asked; the
    result lists, network by network, the node ids of each answer, each
    tagged with the network that was asked and its display name.  Nothing
    is de-duplicated. *)
Theorem getPeers_is_tagged_fan_out (w : World) :
  exists networks w1 rs w',
    getNetworks w = (Ok networks, w1)
    /\ attemptAll callPeers logPeersFailure networks w1 = (Ok rs, w')
    /\ List.length rs = List.length networks
    /\ getPeers w = (Ok (mergePeers networks rs), w')
    /\ Forall (fun p => In (Peer.network p) networks
                        /\ Peer.networkName p = networkName (Peer.network p))
              (mergePeers networks rs).
Proof.
  destruct (getNetworks_total w) as (networks & w1 & Hnet).
  destruct (getPeers_loop_fanOut networks [] w1) as (rs & w' & Hall & Hlen & Hloop).
  exists networks, w1, rs, w'. repeat split; try assumption.
  - unfold getPeers, tryCatch, bind. rewrite Hnet.
    destruct networks as [|network rest].
    + cbn in Hall. injection Hall as <- <-. reflexivity.
    + cbn [List.length Nat.eqb]. rewrite Hloop. reflexivity.
  - apply Forall_mergePeers.
Qed.

Lemma logTransactionsFailure_ok (network : Network) (e : Error) (w : World) :
  exists w', logTransactionsFailure network e w = (Ok tt, w').
Proof. unfold logTransactionsFailure, log. eauto. Qed.

Lemma getTransactions_loop_cons (network : Network) (rest : list Network)
      (all : list Transaction) (w : World) :
  getTransactions_loop (network :: rest) all w
  = match callTransactions network w with
    | (Ok v, w1) =>
        getTransactions_loop rest (all ++ orDefault (result_transactions v) []) w1
    | (Throw e, w1) =>
        match logTransactionsFailure network e w1 with
        | (Ok _, w2) => getTransactions_loop rest all w2
        | (Throw e', w2) => (Throw e', w2)
        end
    end.
Proof.
  cbn [getTransactions_loop].
  unfold bind, tryCatch, callTransactions, logTransactionsFailure, log, ret.
  destruct (grpcCallWith _ _ _ w) as [[v|e] w1].
  - destruct (result_transactions v); [reflexivity|]. cbn. now rewrite app_nil_r.
  - reflexivity.
Qed.

Lemma getTransactions_loop_fanOut (networks : list Network) :
  forall (all : list Transaction) (w : World),
  exists rs w',
    attemptAll callTransactions logTransactionsFailure networks w = (Ok rs, w')
    /\ List.length rs = List.length networks
    /\ getTransactions_loop networks all w
       = (Ok (all ++ mergeTransactions (successes rs)), w').
Proof.
  induction networks as [|network rest IH]; intros all w.
  - exists [], w. cbn. rewrite app_nil_r. auto.
  - rewrite attemptAll_cons, getTransactions_loop_cons.
    destruct (callTransactions network w) as [[v|e] w1].
    + destruct (IH (all ++ orDefault (result_transactions v) []) w1)
        as (rs & w' & Hall & Hlen & Hloop).
      exists (Ok v :: rs), w'. rewrite Hall, Hloop. cbn.
      repeat split; try congruence. unfold mergeTransactions. cbn.
      rewrite <- app_assoc. reflexivity.
    + destruct (logTransactionsFailure_ok network e w1) as (w2 & Hlog). rewrite Hlog.
      destruct (IH all w2) as (rs & w' & Hall & Hlen & Hloop).
      exists (Throw e :: rs), w'. rewrite Hall, Hloop. cbn.
      repeat split; congruence.
Qed.

(** X8.  [getTransactions] never throws.  Given a network it asks that
    network alone: it does not list the networks and posts at most the one
    [GetTransactions] request.  Given none it is a fan-out over the
    configured networks: the transaction lists of the calls that
    succeeded, concatenated in the order of the networks. *)
Theorem getTransactions_one_or_all_networks (w : World) :
  (forall network,
      exists txs w',
        getTransactions (Some network) w = (Ok txs, w')
        /\ requests w'
           = requests w
             ++ match encodeRead (GetTransactionsRequest network) with
                | Ok messageBytes =>
                    [requestSent "hydra_app.WalletService" "GetTransactions" messageBytes]
                | Throw _ => []
                end)
  /\ exists networks w1 rs w',
      getNetworks w = (Ok networks, w1)
      /\ attemptAll callTransactions logTransactionsFailure networks w1 = (Ok rs, w')
      /\ List.length rs = List.length networks
      /\ getTransactions None w = (Ok (mergeTransactions (successes rs)), w').
Proof.
  split.
  - intro network.
    unfold getTransactions, tryCatch, bind, ret, log.
    pose proof (requests_grpcCallWith "hydra_app.WalletService" "GetTransactions"
                  (encodeRead (GetTransactionsRequest network)) w) as Hposts.
    destruct (grpcCallWith _ _ _ w) as [[v|e] w1]; cbn in *; eauto.
  - destruct (getNetworks_total w) as (networks & w1 & Hnet).
    destruct (getTransactions_loop_fanOut networks [] w1)
      as (rs & w' & Hall & Hlen & Hloop).
    exists networks, w1, rs, w'. repeat split; try assumption.
    unfold getTransactions, tryCatch, bind. rewrite Hnet.
    destruct networks as [|network rest].
    + cbn in Hall. injection Hall as <- <-. reflexivity.
    + cbn [List.length Nat.eqb]. rewrite Hloop. reflexivity.
Qed.

End MoreOperationsProperties.

Section ReadsProperties.

Context {proto : Proto} {fields : Fields} {env : Env}.

(** What [grpcCall] makes of any response to [GetMarkets]: the empty
    object or an exception; no branch decodes it. *)
Lemma handleResponse_GetMarkets (response : HttpResponse) :
  match handleResponse "hydra_app.OrderbookService" "GetMarkets" response with
  | Ok v => v = EmptyObject
  | Throw _ => True
  end.
Proof.
  unfold handleResponse, withoutStatus.
  destruct (grpcStatus response) as [s|].
  - destruct (String.eqb s "0"); [reflexivity | exact I].
  - destruct (status response =? 200); cbn; exact I.
Qed.

Lemma handleResponse_GetMarketInfo (response : HttpResponse) :
  match handleResponse "hydra_app.OrderbookService" "GetMarketInfo" response with
  | Ok v => v = EmptyObject
  | Throw _ => True
  end.
Proof.
  unfold handleResponse, withoutStatus.
  destruct (grpcStatus response) as [s|].
  - destruct (String.eqb s "0"); [reflexivity | exact I].
  - destruct (status response =? 200); cbn; exact I.
Qed.

Lemma grpcCallWith_cases (servicePath method : string)
      (encoded : Result (list byte)) (w : World) :
  match fst (grpcCallWith servicePath method encoded w) with
  | Ok v => exists response, handleResponse servicePath method response = Ok v
  | Throw _ => True
  end.
Proof.
  unfold grpcCallWith, tryCatch, bind, lift, fetch, log, throw.
  destruct encoded as [bytes|e]; cbn; [|exact I].
  destruct (server _ _) as [response|e]; cbn; [|exact I].
  destruct (handleResponse servicePath method response) eqn:H; cbn; eauto.
Qed.

(** X9.  [getMarkets] returns the empty list whatever the server answers:
    no branch of [grpcCall] decodes a [GetMarkets] response, so the call
    yields the empty object, whose [markets] is missing, or throws, which
    [getMarkets] catches. *)
Theorem getMarkets_is_always_empty (w : World) :
  fst (getMarkets w) = Ok [].
Proof.
  unfold getMarkets, tryCatch, bind, ret, log.
  pose proof (grpcCallWith_cases "hydra_app.OrderbookService" "GetMarkets" (Ok []) w)
    as Hcases.
  destruct (grpcCallWith _ _ _ w) as [[v|e] w']; cbn in *; [|reflexivity].
  destruct Hcases as [response Hresponse].
  pose proof (handleResponse_GetMarkets response) as H.
  rewrite Hresponse in H. subst v. reflexivity.
Qed.

(** X10.  [getMarketInfo] never returns a decoded market: for any
    currencies and any server it returns the empty object or throws. *)
Theorem getMarketInfo_never_decodes (baseCurrency quoteCurrency : string) (w : World) :
  match fst (getMarketInfo baseCurrency quoteCurrency w) with
  | Ok v => v = EmptyObject
  | Throw e => name e = GrpcCallErrorK
  end.
Proof.
  unfold getMarketInfo. rewrite readOrRethrow_result.
  pose proof (grpcCallWith_cases "hydra_app.OrderbookService" "GetMarketInfo"
                (encodeRead (GetMarketInfoRequest baseCurrency quoteCurrency)) w)
    as Hcases.
  pose proof (grpcCallWith_error "hydra_app.OrderbookService" "GetMarketInfo"
                (encodeRead (GetMarketInfoRequest baseCurrency quoteCurrency)) w)
    as Herr.
  destruct (fst (grpcCallWith _ _ _ w)) as [v|e]; [|assumption].
  destruct Hcases as [response Hresponse].
  pose proof (handleResponse_GetMarketInfo response) as H.
  rewrite Hresponse in H. assumption.
Qed.

(** X11.  Answered with HTTP 200 and no [grpc-status] header,
    [getInitializedMarkets] and [getMarketsInfo] never throw: a body that
    decodes is returned decoded, and any other body, an error page
    included, is reported as [{ markets: [] }]. *)
Theorem market_lists_hide_undecodable_bodies
        (messageBytes : list byte) (response : HttpResponse) (w : World) :
  status response = 200 ->
  grpcStatus response = None ->
  (encodeRead GetInitializedMarketsRequest = Ok messageBytes ->
   server (List.length (requests w))
          (requestSent "hydra_app.OrderbookService" "GetInitializedMarkets" messageBytes)
   = Responded response ->
   fst (getInitializedMarkets w)
   = Ok match decodeFramed GetInitializedMarketsResponse (body response) with
        | Some decoded => Decoded decoded
        | None => MarketsNone
        end)
  /\ (encodeRead GetMarketsInfoRequest = Ok messageBytes ->
      server (List.length (requests w))
             (requestSent "hydra_app.OrderbookService" "GetMarketsInfo" messageBytes)
      = Responded response ->
      fst (getMarketsInfo w)
      = Ok match decodeFramed GetMarketsInfoResponse (body response) with
           | Some decoded => Decoded decoded
           | None => MarketsNone
           end).
Proof.
  intros Hhttp Hstatus. split; intros Hencode Hserver.
  - unfold getInitializedMarkets. rewrite readOrRethrow_result, Hencode.
    rewrite (grpcCallWith_responded _ _ _ _ _ Hserver).
    unfold handleResponse, withoutStatus. rewrite Hstatus, Hhttp.
    unfold decodeWithoutStatus. cbn. unfold tryDecodeOr.
    destruct (decodeFramed GetInitializedMarketsResponse (body response)); reflexivity.
  - unfold getMarketsInfo. rewrite readOrRethrow_result, Hencode.
    rewrite (grpcCallWith_responded _ _ _ _ _ Hserver).
    unfold handleResponse, withoutStatus. rewrite Hstatus, Hhttp.
    unfold decodeWithoutStatus. cbn. unfold tryDecodeOr.
    destruct (decodeFramed GetMarketsInfoResponse (body response)); reflexivity.
Qed.

(** X12.  Answered with HTTP 200 and no [grpc-status] header, the rental
    reads decode the body or throw: [getRentalNodeInfo] returns the decoded
    message when the body decodes, and otherwise throws with the cause
    [Failed to decode GetRentalNodeInfo response], also when the text of
    the body holds [grpc-status:0]; likewise [getRentableAssetInfo]. *)
Theorem rental_reads_decode_or_throw
        (network : Network) (assetId : string)
        (messageBytes : list byte) (response : HttpResponse) (w : World) :
  status response = 200 ->
  grpcStatus response = None ->
  (encodeRead GetRentalNodeInfoRequest = Ok messageBytes ->
   server (List.length (requests w))
          (requestSent "hydra_app.RentalService" "GetRentalNodeInfo" messageBytes)
   = Responded response ->
   fst (getRentalNodeInfo w)
   = match decodeFramed GetRentalNodeInfoResponse (body response) with
     | Some decoded => Ok (Decoded decoded)
     | None =>
         Throw (enhancedError "hydra_app.RentalService" "GetRentalNodeInfo"
                              (failedToDecode "GetRentalNodeInfo"))
     end)
  /\ (encodeRead (GetRentableAssetInfoRequest network assetId) = Ok messageBytes ->
      server (List.length (requests w))
             (requestSent "hydra_app.RentalService" "GetRentableAssetInfo" messageBytes)
      = Responded response ->
      fst (getRentableAssetInfo network assetId w)
      = match decodeFramed GetRentableAssetInfoResponse (body response) with
        | Some decoded => Ok (Decoded decoded)
        | None =>
            Throw (enhancedError "hydra_app.RentalService" "GetRentableAssetInfo"
                                 (failedToDecode "GetRentableAssetInfo"))
        end).
Proof.
  intros Hhttp Hstatus. split; intros Hencode Hserver.
  - unfold getRentalNodeInfo. rewrite readOrRethrow_result, Hencode.
    rewrite (grpcCallWith_responded _ _ _ _ _ Hserver).
    unfold handleResponse, withoutStatus. rewrite Hstatus, Hhttp.
    unfold decodeWithoutStatus. cbn. unfold rentalBlock, decodeFramed.
    destruct (Frame.decodeFrame (body response)) as [bytes|e]; cbn; [|reflexivity].
    destruct (decodeOpaque GetRentalNodeInfoResponse bytes); reflexivity.
  - unfold getRentableAssetInfo. rewrite readOrRethrow_result, Hencode.
    rewrite (grpcCallWith_responded _ _ _ _ _ Hserver).
    unfold handleResponse, withoutStatus. rewrite Hstatus, Hhttp.
    unfold decodeWithoutStatus. cbn. unfold rentalBlock, decodeFramed.
    destruct (Frame.decodeFrame (body response)) as [bytes|e]; cbn; [|reflexivity].
    destruct (decodeOpaque GetRentableAssetInfoResponse bytes); reflexivity.
Qed.

(** X13.  [getAsset] finds an asset only in a response that carries the
    header [grpc-status: 0]: answered without the header it returns
    [null], whatever the HTTP status and the body, since the branch
    without a status has no decoder for [GetAsset]. *)
Theorem getAsset_without_status_header_is_null
        (network : Network) (assetId : string)
        (messageBytes : list byte) (response : HttpResponse) (w : World) :
  encodeRead (GetAssetRequest network assetId) = Ok messageBytes ->
  server (List.length (requests w))
         (requestSent "hydra_app.AssetService" "GetAsset" messageBytes)
  = Responded response ->
  grpcStatus response = None ->
  fst (getAsset network assetId w) = Ok None.
Proof.
  intros Hencode Hserver Hstatus.
  unfold getAsset, tryCatch, bind, ret, log.
  rewrite Hencode, (grpcCallWith_responded _ _ _ _ _ Hserver).
  unfold handleResponse, withoutStatus. rewrite Hstatus.
  destruct (status response =? 200); reflexivity.
Qed.

(** X14.  The probe of [useGrpcStatus] reports [connected: true] whatever
    the server does, also when it is unreachable: it waits for
    [getBalances], which never throws. *)
Theorem useGrpcStatus_always_connected (w : World) :
  fst (useGrpcStatus_queryFn w) = Ok {| connected := true; error := None |}.
Proof.
  unfold useGrpcStatus_queryFn, tryCatch, bind, ret.
  pose proof (isOk_fanOutBalances w) as Hok.
  rewrite <- getBalances_fanOut in Hok.
  destruct (getBalances w) as [[b|e] w']; [reflexivity | discriminate].
Qed.

(** X15.  A level the backend leaves out of a fee estimate is filled with
    the Bitcoin default (5, 15 or 30) on every network, EVM networks
    included, where fees are counted in wei: the defaults of the [return]
    do not look at the protocol. *)
Theorem getFeeEstimates_fills_missing_levels_with_bitcoin_defaults
        (network : Network) (messageBytes : list byte) (response : HttpResponse)
        (result : Response) (estimate : FeeEstimate) (w : World) :
  encode (GetFeeEstimatesRequest network) = Ok messageBytes ->
  server (List.length (requests w))
         (requestSent "hydra_app.BlockchainService" "GetFeeEstimates" messageBytes)
  = Responded response ->
  handleResponse "hydra_app.BlockchainService" "GetFeeEstimates" response = Ok result ->
  result_feeEstimate result = Some estimate ->
  fst (getFeeEstimates network w)
  = Ok {| feeLow := orDefault (low estimate) (feeRateOf "5" "0" "5");
          feeMedium := orDefault (medium estimate) (feeRateOf "15" "0" "15");
          feeHigh := orDefault (high estimate) (feeRateOf "30" "0" "30") |}.
Proof.
  intros Hencode Hserver Hresponse Hestimate.
  unfold getFeeEstimates, tryCatch, bind, ret.
  rewrite grpcCall_grpcCallWith, Hencode.
  rewrite (grpcCallWith_responded _ _ _ _ _ Hserver), Hresponse, Hestimate.
  reflexivity.
Qed.

End ReadsProperties.

(* ===================================================================== *)
(** ** The executor and the reads on concrete endpoints                  *)
(* ===================================================================== *)


Lemma grpcCall_status_zero_never_throws_witness :
  exists v,
    grpcCallWith (proto := emptyMessages)
                 (env := constantServer (withGrpcStatus "0" emptyFrame))
                 "hydra_app.NodeService" "OpenChannel" (Ok []) initialWorld
    = (Ok v,
       afterRequest (env := constantServer (withGrpcStatus "0" emptyFrame))
                    "hydra_app.NodeService" "OpenChannel" [] initialWorld)
    /\ (~ In ("hydra_app.NodeService", "OpenChannel") decodedWithStatusZero
        -> v = EmptyObject).
Proof.
  apply (grpcCall_status_zero_never_throws
           (proto := emptyMessages)
           (env := constantServer (withGrpcStatus "0" emptyFrame))
           "hydra_app.NodeService" "OpenChannel" []
           (withGrpcStatus "0" emptyFrame) initialWorld); reflexivity.
Defined.

(** A gateway page: HTTP 502 and no [grpc-status] header. *)
Lemma grpcCall_rejects_http_error_witness :
  exists w',
    grpcCallWith (proto := emptyMessages)
                 (env := constantServer
                           {| status := 502; grpcStatus := None; grpcMessage := None;
                              body := bodyOf "grpc-status:0" |})
                 "hydra_app.NodeService" "ConnectToPeer" (Ok []) initialWorld
    = (Throw (enhancedError
                (env := constantServer
                          {| status := 502; grpcStatus := None; grpcMessage := None;
                             body := bodyOf "grpc-status:0" |})
                "hydra_app.NodeService" "ConnectToPeer"
                (noGrpcHeaders {| status := 502; grpcStatus := None; grpcMessage := None;
                                  body := bodyOf "grpc-status:0" |})), w')
    /\ includes (message (noGrpcHeaders {| status := 502; grpcStatus := None;
                                           grpcMessage := None;
                                           body := bodyOf "grpc-status:0" |}))
                (numberToString (N.of_nat 502)) = true.
Proof.
  apply (grpcCall_rejects_http_error
           (proto := emptyMessages)
           (env := constantServer
                     {| status := 502; grpcStatus := None; grpcMessage := None;
                        body := bodyOf "grpc-status:0" |})
           "hydra_app.NodeService" "ConnectToPeer" []
           {| status := 502; grpcStatus := None; grpcMessage := None;
              body := bodyOf "grpc-status:0" |} initialWorld).
  - reflexivity.
  - reflexivity.
  - cbn. discriminate.
Defined.

(** The response carries [sampleAddress]; the caller gets ['N/A']. *)
Lemma getDepositAddress_with_status_header_is_NA_witness :
  getDepositAddress (fields := sampleFields)
                    (env := constantServer (withGrpcStatus "0" emptyFrame))
                    signet initialWorld
  = (Ok "N/A",
     afterRequest (env := constantServer (withGrpcStatus "0" emptyFrame))
                  "hydra_app.ClientService" "GetDepositAddress" [] initialWorld).
Proof.
  apply (getDepositAddress_with_status_header_is_NA
           (fields := sampleFields)
           (env := constantServer (withGrpcStatus "0" emptyFrame))
           signet [] (withGrpcStatus "0" emptyFrame) initialWorld); reflexivity.
Defined.

(** The same body without the header: the address is decoded. *)
Example getDepositAddress_without_status_header :
  fst (getDepositAddress (fields := sampleFields)
                         (env := constantServer (plain200 emptyFrame))
                         signet initialWorld)
  = Ok sampleAddress.
Proof. vm_compute. reflexivity. Qed.

Lemma market_lists_hide_undecodable_bodies_witness :
  fst (getInitializedMarkets
         (fields := sampleFields)
         (env := constantServer (plain200 (bodyOf "<html>502 Bad Gateway</html>")))
         initialWorld)
  = Ok MarketsNone
  /\ fst (getMarketsInfo
            (fields := sampleFields)
            (env := constantServer (plain200 (bodyOf "<html>502 Bad Gateway</html>")))
            initialWorld)
     = Ok MarketsNone.
Proof.
  pose proof (market_lists_hide_undecodable_bodies
                (fields := sampleFields)
                (env := constantServer (plain200 (bodyOf "<html>502 Bad Gateway</html>")))
                [] (plain200 (bodyOf "<html>502 Bad Gateway</html>")) initialWorld
                eq_refl eq_refl) as [H1 H2].
  split.
  - exact (H1 eq_refl eq_refl).
  - exact (H2 eq_refl eq_refl).
Defined.

(** A rental read answered with a text that holds [grpc-status:0] and no
    frame the decoder accepts. *)
Lemma rental_reads_decode_or_throw_witness :
  fst (getRentalNodeInfo
         (fields := sampleFields)
         (env := constantServer (plain200 (bodyOf "grpc-status:0")))
         initialWorld)
  = Throw (enhancedError (env := constantServer (plain200 (bodyOf "grpc-status:0")))
             "hydra_app.RentalService" "GetRentalNodeInfo"
             (MkError ErrorK "Failed to decode GetRentalNodeInfo response" None))
  /\ fst (getRentableAssetInfo
            (fields := sampleFields)
            (env := constantServer (plain200 (bodyOf "grpc-status:0")))
            signet assetA initialWorld)
     = Throw (enhancedError (env := constantServer (plain200 (bodyOf "grpc-status:0")))
                "hydra_app.RentalService" "GetRentableAssetInfo"
                (MkError ErrorK "Failed to decode GetRentableAssetInfo response" None)).
Proof.
  pose proof (rental_reads_decode_or_throw
                (fields := sampleFields)
                (env := constantServer (plain200 (bodyOf "grpc-status:0")))
                signet assetA
                [] (plain200 (bodyOf "grpc-status:0")) initialWorld
                eq_refl eq_refl) as [H1 H2].
  split.
  - exact (H1 eq_refl eq_refl).
  - exact (H2 eq_refl eq_refl).
Defined.

Lemma getAsset_without_status_header_is_null_witness :
  fst (getAsset (fields := sampleFields)
                (env := constantServer (plain200 emptyFrame))
                signet assetA initialWorld)
  = Ok None.
Proof.
  apply (getAsset_without_status_header_is_null
           (fields := sampleFields)
           (env := constantServer (plain200 emptyFrame))
           signet assetA [] (plain200 emptyFrame) initialWorld); reflexivity.
Defined.

(** An EVM network whose estimate carries the medium level only: the low
    and the high level come back as the Bitcoin defaults. *)
Lemma getFeeEstimates_fills_missing_levels_with_bitcoin_defaults_witness :
  fst (getFeeEstimates (proto := partialFees)
                       (env := constantServer (withGrpcStatus "0" emptyFrame))
                       sepolia initialWorld)
  = Ok {| feeLow := feeRateOf "5" "0" "5";
          feeMedium := feeRateOf "2000000000" "100000000" "2100000000";
          feeHigh := feeRateOf "30" "0" "30" |}.
Proof.
  apply (getFeeEstimates_fills_missing_levels_with_bitcoin_defaults
           (proto := partialFees)
           (env := constantServer (withGrpcStatus "0" emptyFrame))
           sepolia [] (withGrpcStatus "0" emptyFrame)
           (Decoded (MFeeEstimates (Some mediumOnly))) mediumOnly initialWorld);
    reflexivity.
Defined.

(* ===================================================================== *)
(** ** Properties of the request builders and of the text workarounds    *)
(* ===================================================================== *)





(** *** Matches of the patterns *)

Lemma every_impl (p q : ascii -> bool) (s : string) :
  (forall c, p c = true -> q c = true) -> every p s = true -> every q s = true.
Proof.
  intro Hpq. induction s as [|c s IH]; cbn; [reflexivity|].
  intro H. apply andb_prop in H as [Hc Hs]. rewrite (Hpq c Hc), (IH Hs). reflexivity.
Qed.

Lemma takeExact_every (p : ascii -> bool) (n : nat) :
  forall s m, takeExact n p s = Some m -> String.length m = n /\ every p m = true.
Proof.
  induction n as [|n IH]; intros s m H; cbn in H.
  - injection H as <-. auto.
  - destruct s as [|c s]; [discriminate|].
    destruct (p c) eqn:Hc; [|discriminate].
    destruct (takeExact n p s) as [m'|] eqn:Hm; [|discriminate].
    injection H as <-. destruct (IH s m' Hm) as [Hlen Hall].
    cbn. rewrite Hc, Hall, Hlen. auto.
Qed.

Lemma takeExact_self (p : ascii -> bool) (s : string) :
  every p s = true -> takeExact (String.length s) p s = Some s.
Proof.
  induction s as [|c s IH]; cbn; [reflexivity|].
  intro H. apply andb_prop in H as [Hc Hs]. rewrite Hc, (IH Hs). reflexivity.
Qed.

Lemma span_every (p : ascii -> bool) (s : string) : every p (fst (span p s)) = true.
Proof.
  induction s as [|c s IH]; cbn; [reflexivity|].
  destruct (p c) eqn:Hc; [|reflexivity].
  destruct (span p s) as [a b]. cbn in *. rewrite Hc, IH. reflexivity.
Qed.

Lemma substring_0_every (p : ascii -> bool) (n : nat) :
  forall s, every p s = true -> every p (String.substring 0 n s) = true.
Proof.
  induction n as [|n IH]; intros [|c s] H; cbn; try reflexivity.
  cbn in H. apply andb_prop in H as [Hc Hs]. rewrite Hc, (IH s Hs). reflexivity.
Qed.

Lemma length_substring_0 (n : nat) :
  forall s, String.length (String.substring 0 n s) = Nat.min n (String.length s).
Proof.
  induction n as [|n IH]; intros [|c s]; cbn; try reflexivity.
  rewrite IH. reflexivity.
Qed.

Lemma matchFirst_some (matchAt : string -> option string) (s m : string) :
  matchFirst matchAt s = Some m -> exists s', matchAt s' = Some m.
Proof.
  induction s as [|c s IH]; cbn; intro H.
  - destruct (matchAt "") eqn:E; [|discriminate]. injection H as <-. eauto.
  - destruct (matchAt (String c s)) eqn:E; [injection H as <-; eauto|]. auto.
Qed.

Lemma matchAllFrom_in (matchAt : string -> option string) (s : string) :
  forall skip m, In m (matchAllFrom matchAt skip s) -> exists s', matchAt s' = Some m.
Proof.
  induction s as [|c s IH]; intros skip m H; cbn in H; [contradiction|].
  destruct skip as [|k]; [|eauto].
  destruct (matchAt (String c s)) as [m'|] eqn:E; [|eauto].
  destruct H as [<-|H]; eauto.
Qed.

Lemma isDigit_isHex (c : ascii) : isDigit c = true -> isHex c = true.
Proof. unfold isHex. intros ->. reflexivity. Qed.

Lemma isHex_not_space (c : ascii) : isHex c = true -> negb (isSpace c) = true.
Proof.
  unfold isHex, isDigit, isSpace. generalize (nat_of_ascii c). intros n H.
  apply negb_true_iff.
  destruct (Nat.eqb_spec n 32) as [->|_]; [discriminate H|].
  destruct (Nat.leb_spec 9 n), (Nat.leb_spec n 13); cbn; try reflexivity.
  exfalso.
  repeat match type of H with
         | context [?a <=? ?b] => destruct (Nat.leb_spec a b)
         end; cbn in H; try discriminate; lia.
Qed.

Lemma trimStart_id (s : string) :
  every (fun c => negb (isSpace c)) s = true -> trimStart s = s.
Proof.
  destruct s as [|c s]; cbn; [reflexivity|].
  intro H. apply andb_prop in H as [Hc _].
  apply negb_true_iff in Hc. rewrite Hc. reflexivity.
Qed.

Lemma trimEndAux_id (s : string) :
  every (fun c => negb (isSpace c)) s = true ->
  trimEndAux s = match s with EmptyString => None | _ => Some s end.
Proof.
  induction s as [|c s IH]; cbn; [reflexivity|].
  intro H. apply andb_prop in H as [Hc Hs].
  rewrite (IH Hs). apply negb_true_iff in Hc.
  destruct s; [rewrite Hc|]; reflexivity.
Qed.

Lemma trim_id (s : string) :
  every (fun c => negb (isSpace c)) s = true -> trim s = s.
Proof.
  intro H. unfold trim. rewrite (trimStart_id s H), (trimEndAux_id s H).
  destruct s; reflexivity.
Qed.

(** [[...new Set(l)]] has no duplicates and holds members of [l] only. *)
Lemma dedupe_spec (l : list string) :
  forall seen,
    NoDup (dedupe seen l)
    /\ forall x, In x (dedupe seen l) -> In x l /\ ~ In x seen.
Proof.
  induction l as [|x l IH]; intro seen; cbn.
  - split; [constructor | contradiction].
  - destruct (arrayIncludes seen x) eqn:Hseen.
    + destruct (IH seen) as [Hnd Hin]. split; [assumption|].
      intros y Hy. destruct (Hin y Hy). auto.
    + destruct (IH (x :: seen)) as [Hnd Hin].
      assert (Hx : ~ In x seen).
      { intro Hx. unfold arrayIncludes in Hseen.
        assert (existsb (String.eqb x) seen = true) as E; [|congruence].
        apply existsb_exists. exists x. split; [assumption | apply String.eqb_refl]. }
      split.
      * constructor; [|assumption]. intro Hx'. destruct (Hin x Hx') as [_ Hnot].
        apply Hnot. left. reflexivity.
      * intros y [<-|Hy]; [auto|].
        destruct (Hin y Hy) as [Hl Hnot]. split; [auto|].
        intro Hs. apply Hnot. right. assumption.
Qed.

Lemma hex8Pattern_plausible (s m : string) :
  hex8Pattern s = Some m -> plausibleId m.
Proof.
  intro H. apply takeExact_every in H as [Hlen Hall].
  split; [lia | assumption].
Qed.

Lemma digits6to8Pattern_plausible (s m : string) :
  digits6to8Pattern s = Some m -> plausibleId m.
Proof.
  unfold digits6to8Pattern. pose proof (span_every isDigit s) as Hrun.
  destruct (span isDigit s) as [run rest]. cbn in Hrun.
  destruct (Nat.leb_spec 6 (String.length run)) as [Hlen|]; [|discriminate].
  remember (Nat.min 8 (String.length run)) as k eqn:Hk.
  intro H. injection H as <-. split.
  - rewrite length_substring_0. lia.
  - apply substring_0_every. eapply every_impl; [apply isDigit_isHex | assumption].
Qed.

Lemma isHex8_plausible (s : string) :
  every isHex s = true -> String.length s = 8 -> isHex8 s = true.
Proof.
  intros Hall Hlen. unfold isHex8, hex8Pattern.
  rewrite <- Hlen, (takeExact_self isHex s Hall). apply String.eqb_refl.
Qed.

(** X17.  The networks the text workaround of [GetNetworks] builds have
    pairwise distinct ids, each of six to eight hex digits; and a network
    is tagged [BITCOIN] exactly when its id has eight characters and is
    not [11155111]: an eight-digit decimal chain id other than Sepolia's
    is taken for a Bitcoin network. *)
Theorem parseNetworksText_ids_are_distinct_and_tagged_by_length (responseText : string) :
  NoDup (map id (parseNetworksText responseText))
  /\ Forall (fun network =>
               6 <= String.length (id network) <= 8
               /\ every isHex (id network) = true
               /\ (protocol network = BITCOIN
                   <-> String.length (id network) = 8 /\ id network <> "11155111"))
            (parseNetworksText responseText).
Proof.
  unfold parseNetworksText.
  set (ids := _ ++ _).
  assert (Hids : Forall plausibleId ids).
  { unfold ids. apply Forall_app. split.
    - destruct (matchFirst hex8Pattern responseText) as [m|] eqn:E; [|constructor].
      apply matchFirst_some in E as [s' E]. constructor; [|constructor].
      eapply hex8Pattern_plausible; eassumption.
    - apply Forall_forall. intros m Hin. apply filter_In in Hin as [Hin _].
      apply matchAllFrom_in in Hin as [s' E].
      eapply digits6to8Pattern_plausible; eassumption. }
  destruct (dedupe_spec ids []) as [Hnd Hin].
  assert (Hded : Forall plausibleId (dedupe [] ids)).
  { apply Forall_forall. intros m Hm. destruct (Hin m Hm) as [Hm' _].
    exact (proj1 (Forall_forall plausibleId ids) Hids m Hm'). }
  clear Hin Hids. revert Hnd Hded. generalize (dedupe [] ids). clear ids.
  intros l Hnd Hl.
  set (mk := fun networkId : string => _).
  assert (Hmk : forall m, plausibleId m -> id (mk m) = m).
  { intros m [_ Hall]. unfold mk. cbn.
    apply trim_id. eapply every_impl; [apply isHex_not_space | assumption]. }
  assert (Hkeep : filter (fun network => 0 <? String.length (id network)) (map mk l)
                  = map mk l).
  { clear Hnd. induction Hl as [|m l Hm Hl IH]; [reflexivity|].
    cbn [map filter]. rewrite (Hmk m Hm), IH.
    destruct Hm as [[Hlen _] _].
    destruct (Nat.ltb_spec 0 (String.length m)); [reflexivity | lia]. }
  rewrite Hkeep. split.
  - assert (Hmap : map id (map mk l) = l).
    { clear Hnd Hkeep. induction Hl as [|m l Hm Hl IH]; [reflexivity|].
      cbn [map]. rewrite (Hmk m Hm), IH. reflexivity. }
    rewrite Hmap. assumption.
  - clear Hnd Hkeep. apply Forall_forall. intros network Hin.
    apply in_map_iff in Hin as (m & <- & Hm).
    assert (Hp : plausibleId m) by exact (proj1 (Forall_forall plausibleId l) Hl m Hm).
    pose proof (Hmk m Hp) as Hid. destruct Hp as [Hlen Hall].
    rewrite Hid. split; [assumption|]. split; [assumption|].
    unfold mk. cbn [protocol].
    assert (Htrim : trim m = m).
    { apply trim_id. eapply every_impl; [apply isHex_not_space | assumption]. }
    rewrite Htrim.
    destruct (arrayIncludes _ m) eqn:Hknown.
    + split; [discriminate|]. intros [Hlen8 Hne]. exfalso.
      unfold arrayIncludes in Hknown. cbn [existsb] in Hknown.
      repeat match type of Hknown with
             | (String.eqb m ?k || _) = true =>
                 destruct (String.eqb_spec m k) as [->|_];
                 [first [contradiction | discriminate Hlen8] |]; cbn [orb] in Hknown
             end.
      discriminate.
    + destruct (Nat.eqb_spec (String.length m) 8) as [Hlen8|Hlen8]; cbn [andb].
      * rewrite (isHex8_plausible m Hall Hlen8). split; [|reflexivity].
        intros _. split; [assumption|]. intros ->. discriminate Hknown.
      * split; [discriminate|]. intros [Hlen8' _]. contradiction.
Qed.

(** OP Sepolia's chain id, eight decimal digits, read from a text
    response. *)
Example parseNetworksText_decimal_id_tagged_bitcoin :
  parseNetworksText "grpc-status:0 11155420"
  = [ {| protocol := BITCOIN; id := "11155420" |} ].
Proof. vm_compute. reflexivity. Qed.

Lemma assetIdPattern_length (s m : string) :
  assetIdPattern s = Some m -> String.length m = 66.
Proof.
  unfold assetIdPattern.
  destruct s as [|z [|x rest]]; try discriminate.
  destruct (_ && _); [|discriminate].
  destruct (takeExact 64 isHex rest) as [h|] eqn:E; [|discriminate].
  intro H. injection H as <-. apply takeExact_every in E as [Hlen _].
  cbn. rewrite Hlen. reflexivity.
Qed.

Section TextBalancesProperties.

Context {proto : Proto}.

(** X18.  The text workaround of [GetBalances] reports at most one asset,
    however many the text holds: the first asset id in the text, a string
    of 66 characters, with the first two decimal numbers of the text as
    its balances; with fewer than two decimal numbers it reports none. *)
Theorem parseBalancesText_reports_at_most_one_asset (responseText : string) :
  List.length (parseBalancesText responseText) <= 1
  /\ (forall assetId balance,
         In (assetId, balance) (parseBalancesText responseText) ->
         matchFirst assetIdPattern responseText = Some assetId
         /\ String.length assetId = 66
         /\ exists a0 a1 more,
             matchAll decimalPattern responseText = a0 :: a1 :: more
             /\ balance = textBalance a0 a1)
  /\ (List.length (matchAll decimalPattern responseText) < 2 ->
      parseBalancesText responseText = []).
Proof.
  unfold parseBalancesText.
  destruct (matchFirst assetIdPattern responseText) as [assetId|] eqn:Hasset.
  - destruct (matchAll decimalPattern responseText) as [|a0 [|a1 more]] eqn:Hamounts;
      cbn; (split; [lia|]); (split; [|intro; first [reflexivity | lia]]);
      intros k b H; try contradiction.
    destruct H as [H|[]]. injection H as <- <-.
    split; [reflexivity|]. split.
    + apply matchFirst_some in Hasset as [s' Hs']. eapply assetIdPattern_length; eassumption.
    + eauto.
  - cbn. split; [lia|]. split; [intros k b []|reflexivity].
Qed.

End TextBalancesProperties.

(* ===================================================================== *)
(** ** Properties of the stream subscriber and of the event hooks: the
       life of a stream                                                  *)
(* ===================================================================== *)

Section StreamLifeProperties.

Import Stream Hooks.

Context {Ev : Type} (decodeEvent : list byte -> option Ev).

Lemma feed_app (s : Subscription) (a b : list NetInput) :
  feed decodeEvent s (a ++ b)
  = let '(s1, out1) := feed decodeEvent s a in
    let '(s2, out2) := feed decodeEvent s1 b in
    (s2, out1 ++ out2).
Proof.
  revert s. induction a as [|i a IH]; intro s; cbn [feed app].
  - destruct (feed decodeEvent s b). reflexivity.
  - destruct (processStream decodeEvent s i) as [s1 out1].
    rewrite IH. destruct (feed decodeEvent s1 a) as [s2 out2].
    destruct (feed decodeEvent s2 b) as [s3 out3].
    rewrite app_assoc. reflexivity.
Qed.

Lemma feed_idle (s : Subscription) (inputs : list NetInput) :
  idle s -> feed decodeEvent s inputs = (s, []).
Proof.
  intro H. induction inputs as [|i inputs IH]; cbn [feed]; [reflexivity|].
  unfold processStream. unfold idle in H. rewrite H, IH. reflexivity.
Qed.

Lemma processStream_end_idle (s : Subscription) (i : NetInput) :
  match i with Chunk _ => True | _ => idle (fst (processStream decodeEvent s i)) end.
Proof.
  unfold processStream, idle.
  destruct i as [value| |e]; [exact I| |];
    destruct (running s && _) eqn:H; cbn; auto.
Qed.

Lemma onChunk_no_error (value : list byte) :
  filter isOnError (onChunk decodeEvent value) = [].
Proof.
  unfold onChunk. destruct (Frame.decodeStreamFrame value) as [data|e]; [|reflexivity].
  destruct (decodeEvent data); reflexivity.
Qed.

Lemma feed_at_most_one_error (inputs : list NetInput) :
  forall s, List.length (filter isOnError (snd (feed decodeEvent s inputs))) <= 1.
Proof.
  induction inputs as [|i inputs IH]; intro s; cbn [feed]; [cbn; lia|].
  pose proof (processStream_end_idle s i) as Hidle.
  destruct (processStream decodeEvent s i) as [s1 out1] eqn:Hstep.
  destruct i as [value| |e].
  - specialize (IH s1). destruct (feed decodeEvent s1 inputs) as [s2 out2].
    cbn [snd] in *. rewrite filter_app.
    assert (Hout : filter isOnError out1 = []).
    { unfold processStream in Hstep. destruct (running s && _).
      - injection Hstep as _ <-. apply onChunk_no_error.
      - injection Hstep as _ <-. reflexivity. }
    rewrite Hout. exact IH.
  - cbn [fst] in Hidle. rewrite (feed_idle s1 inputs Hidle). cbn [snd].
    unfold processStream in Hstep. destruct (running s && _);
      injection Hstep as _ <-; cbn; lia.
  - cbn [fst] in Hidle. rewrite (feed_idle s1 inputs Hidle). cbn [snd].
    rewrite app_nil_r.
    unfold processStream in Hstep. destruct (running s && _).
    + injection Hstep as _ <-. destruct (isActive s && hasOnError s); cbn; lia.
    + injection Hstep as _ <-. cbn; lia.
Qed.

(** X19.  A subscription ends once.  Whatever the network sends, its
    subscriber calls [onError] at most one time; and once a read failed or
    the stream was closed, nothing that arrives later is looked at: no
    event is delivered and no error reported after the end. *)
Theorem subscription_ends_once
        (s : Subscription) (before after : list NetInput) :
  List.length (filter isOnError (snd (feed decodeEvent s before))) <= 1
  /\ (forall e,
         feed decodeEvent s (before ++ ReadError e :: after)
         = feed decodeEvent s (before ++ [ReadError e]))
  /\ feed decodeEvent s (before ++ EndOfStream :: after)
     = feed decodeEvent s (before ++ [EndOfStream]).
Proof.
  split; [apply feed_at_most_one_error|].
  assert (Hend : forall i, match i with Chunk _ => False | _ => True end ->
                           feed decodeEvent s (before ++ i :: after)
                           = feed decodeEvent s (before ++ [i])).
  { intros i Hi. rewrite !feed_app.
    destruct (feed decodeEvent s before) as [s1 out1].
    cbn [feed]. pose proof (processStream_end_idle s1 i) as Hidle.
    destruct (processStream decodeEvent s1 i) as [s2 out2].
    destruct i; [contradiction| |]; cbn [fst] in Hidle;
      rewrite (feed_idle s2 after Hidle); reflexivity. }
  split.
  - intro e. apply Hend. exact I.
  - apply Hend. exact I.
Qed.

End StreamLifeProperties.

Section HookLifeProperties.

Import Stream Hooks.

Context {proto : Proto}.

Lemma processStream_cases {Ev} (decodeEvent : list byte -> option Ev)
      (s : Subscription) (x : NetInput) :
  isActive (fst (processStream decodeEvent s x)) = isActive s
  /\ (snd (processStream decodeEvent s x) = []
      \/ exists o, snd (processStream decodeEvent s x) = [o]).
Proof.
  unfold processStream, onChunk.
  destruct (running s && _); [|cbn; auto].
  destruct x as [value| |e].
  - destruct (Frame.decodeStreamFrame value) as [data|e];
      [destruct (decodeEvent data)|]; cbn; eauto.
  - cbn. auto.
  - destruct (isActive s && hasOnError s); cbn; eauto.
Qed.

Lemma Forall_replace {A} (P : A -> Prop) (l : list A) (k : nat) (y : A) :
  Forall P l -> P y -> Forall P (firstn k l ++ y :: skipn (S k) l).
Proof.
  intros Hl Hy. revert k. induction Hl as [|a l Ha Hl IH]; intros [|k]; cbn.
  - constructor; [assumption | constructor].
  - constructor; [assumption | constructor].
  - constructor; assumption.
  - constructor; [assumption | apply IH].
Qed.


(** What the handlers of the node hook leave alone. *)
Lemma dispatch_node_frame (h : Hook NodeEvent) (o : Output NodeEvent) :
  let h' := dispatch handleNodeEvent handleNodeError h o in
  subscriptions h' = subscriptions h
  /\ capturedUnsubscribe h' = capturedUnsubscribe h
  /\ unsubscribeState h' = unsubscribeState h
  /\ connecting h' = connecting h
  /\ mounted h' = mounted h
  /\ timers (browser h')
     = timers (browser h)
       ++ match o with
          | CallOnError _ => if mounted h then [reconnectTimer] else []
          | _ => []
          end.
Proof.
  destruct o as [ev|e|]; cbn [dispatch]; unfold handleNodeEvent, handleNodeError;
    cbn [mounted record]; destruct (mounted h) eqn:Hm; cbn;
    rewrite ?whenPresent_spec; cbn; rewrite ?app_nil_r; auto 10.
Qed.

(** What the handlers of the client hook leave alone. *)
Lemma dispatch_client_frame (h : Hook ClientEvent) (o : Output ClientEvent) :
  let h' := dispatch handleClientEvent handleClientError h o in
  subscriptions h' = subscriptions h
  /\ capturedUnsubscribe h' = capturedUnsubscribe h
  /\ unsubscribeState h' = unsubscribeState h
  /\ connecting h' = connecting h
  /\ mounted h' = mounted h
  /\ timers (browser h') = timers (browser h).
Proof.
  destruct o as [ev|e|]; cbn [dispatch]; unfold handleClientEvent, handleClientError;
    cbn [mounted record]; destruct (mounted h) eqn:Hm; cbn; auto 10.
Qed.

(** X20.  When the server closes a stream in the regular way, neither hook
    is told: [isConnected] stays as it was, no handler is called, nothing
    is invalidated and no reconnect is scheduled, while the stream is
    closed for good.  A hook that showed "connected" goes on showing it. *)
Theorem stream_end_goes_unnoticed {Ev}
        (decodeEvent : list byte -> option Ev)
        (handleEvent : Ev -> Hook Ev -> Hook Ev)
        (handleError : Error -> Hook Ev -> Hook Ev)
        (h : Hook Ev) (k : nat) :
  let h' := step decodeEvent handleEvent handleError h (Net k EndOfStream) in
  isConnected h' = isConnected h
  /\ browser h' = browser h
  /\ calls h' = calls h
  /\ connecting h' = connecting h
  /\ lastEvent h' = lastEvent h
  /\ forall s, nth_error (subscriptions h) k = Some s ->
               reading s ->
               exists s',
                 nth_error (subscriptions h') k = Some s'
                 /\ reader s' = Closed /\ idle s'.
Proof.
  cbv zeta. cbn [step]. destruct (nth_error (subscriptions h) k) as [s|] eqn:Hk.
  - unfold processStream.
    destruct (running s && _) eqn:Hrun;
      cbn [fold_left isConnected browser calls connecting lastEvent subscriptions
           setSubscriptions fst snd];
      repeat split; try reflexivity.
    + intros s0 Hs0 _. injection Hs0 as <-.
      rewrite (nth_error_replace _ _ _ _ Hk). eexists. repeat split.
    + intros s0 Hs0 (_ & Hreader & Hrunning & _). injection Hs0 as <-.
      rewrite Hreader, Hrunning in Hrun. discriminate.
  - repeat split. intros s Hs. discriminate.
Qed.

(** *** The reconnect timer of the node hook *)

Lemma nodeStep_timers (h : Hook NodeEvent) (i : Input) :
  Forall (eq reconnectTimer) (timers (browser h)) ->
  Forall (eq reconnectTimer) (timers (browser (nodeStep h i))).
Proof.
  intro Ht. unfold nodeStep. destruct i as [k x|k| |n|o|]; cbn [step].
  - destruct (nth_error (subscriptions h) k) as [s|]; [|assumption].
    destruct (processStream_cases decodeNodeEvent s x) as [_ Hout].
    destruct (processStream decodeNodeEvent s x) as [s' out]. cbn [snd] in Hout.
    destruct Hout as [->|[o ->]]; cbn [fold_left]; [assumption|].
    destruct (dispatch_node_frame
                (setSubscriptions (firstn k (subscriptions h) ++ s' :: skipn (S k) (subscriptions h)) h)
                o) as (_ & _ & _ & _ & _ & Htimers).
    rewrite Htimers. apply Forall_app. split; [assumption|].
    destruct o; [constructor| |constructor].
    destruct (mounted _); repeat constructor.
  - unfold callHandle. destruct (nth_error (subscriptions h) k); assumption.
  - destruct (unsubscribeState h) as [k|]; [|assumption].
    unfold callHandle. destruct (nth_error (subscriptions h) k); assumption.
  - destruct (nth_error (timers (browser h)) n) as [t|] eqn:Hn; [|assumption].
    assert (Hrest : Forall (eq reconnectTimer) (removeNth n (timers (browser h))))
      by (apply Forall_removeNth; assumption).
    destruct (action t); cbn [withBrowser mounted].
    + destruct (mounted h); assumption.
    + assumption.
  - unfold connectSettled. destruct (connecting h) as [|pending]; [assumption|].
    destruct (connectError o) as [error|].
    + cbn [browser setIsConnected].
      destruct (dispatch_node_frame (setConnecting pending h) (CallOnError error))
        as (_ & _ & _ & _ & _ & Htimers).
      rewrite Htimers. apply Forall_app. split; [assumption|].
      destruct (mounted _); repeat constructor.
    + cbn. destruct (mounted h); assumption.
  - cbn. destruct (capturedUnsubscribe h) as [k|]; [|assumption].
    unfold callHandle. cbn. destruct (nth_error (subscriptions h) k); assumption.
Qed.

(** X21.  Whatever happens to the effect of [useNodeEventStream], the only
    thing it ever schedules is a reconnect after 5000 ms: every pending
    timer is one; there is no back-off and no delayed invalidation. *)
Theorem node_hook_schedules_only_reconnects
        (previous : list Subscription) (captured : option nat) (inputs : list Input) :
  Forall (fun t => t = {| delay := 5000; action := Reconnect |})
         (timers (browser (nodeRun (mount previous captured) inputs))).
Proof.
  assert (Hrun : forall h : Hook NodeEvent,
             Forall (eq reconnectTimer) (timers (browser h)) ->
             Forall (eq reconnectTimer) (timers (browser (nodeRun h inputs)))).
  { induction inputs as [|i inputs IH]; intros h Hh; [assumption|].
    apply IH, nodeStep_timers, Hh. }
  eapply Forall_impl; [|apply Hrun; constructor].
  intros t <-. reflexivity.
Qed.



End HookLifeProperties.

Section OneStreamProperties.

Import Stream Hooks.

Context {proto : Proto}.





(** *** Streams the cleanup leaves open *)

Lemma step_uncancelled {Ev}
      (decodeEvent : list byte -> option Ev)
      (handleEvent : Ev -> Hook Ev -> Hook Ev)
      (handleError : Error -> Hook Ev -> Hook Ev) :
  (forall h o,
      subscriptions (dispatch handleEvent handleError h o) = subscriptions h
      /\ capturedUnsubscribe (dispatch handleEvent handleError h o)
         = capturedUnsubscribe h) ->
  forall (h : Hook Ev) (i : Input),
    notAHandleCall i -> uncancelled h ->
    uncancelled (step decodeEvent handleEvent handleError h i).
Proof.
  intros Hframe h i Hi [Hc Hs]. unfold uncancelled.
  destruct i as [k x|k| |m|o|]; cbn [step]; try contradiction.
  - destruct (nth_error (subscriptions h) k) as [s|] eqn:Hk; [|auto].
    destruct (processStream_cases decodeEvent s x) as [Hactive Hout].
    destruct (processStream decodeEvent s x) as [s' out]. cbn [fst snd] in *.
    set (h1 := setSubscriptions _ h).
    assert (H1 : uncancelled h1).
    { unfold h1. split; [assumption|].
      cbn [subscriptions setSubscriptions]. apply Forall_replace; [assumption|].
      rewrite Hactive.
      exact (proj1 (Forall_forall _ _) Hs s (nth_error_In _ _ Hk)). }
    destruct Hout as [->|[o ->]]; cbn [fold_left]; [exact H1|].
    destruct (Hframe h1 o) as [-> ->]. exact H1.
  - destruct (nth_error (timers (browser h)) m) as [t|]; [|auto].
    destruct (action t); cbn [withBrowser mounted].
    + destruct (mounted h); cbn; auto.
    + cbn. auto.
  - unfold connectSettled. destruct (connecting h) as [|pending]; [auto|].
    destruct (connectError o) as [error|].
    + cbn [subscriptions capturedUnsubscribe setIsConnected].
      destruct (Hframe (setConnecting pending h) (CallOnError error)) as [-> ->].
      cbn. auto.
    + cbn. destruct (mounted h); cbn; (split; [assumption|]);
        apply Forall_app; (split; [assumption|]); repeat constructor.
  - cbn. rewrite Hc. cbn. auto.
Qed.

(** X24.  The cleanup of a first mount cancels nothing.  The effect
    captured [unsubscribe] while it was still [null], so as long as nobody
    calls an unsubscribe handle, every stream the effect of either hook
    opened stays active, whatever happens, the cleanup included: the
    stream of an unmounted component keeps reading. *)
Theorem first_mount_cleanup_cancels_nothing (inputs : list Input) :
  Forall notAHandleCall inputs ->
  Forall (fun s => isActive s = true)
         (subscriptions (nodeRun (mount [] None) inputs))
  /\ Forall (fun s => isActive s = true)
            (subscriptions (clientRun (mount [] None) inputs)).
Proof.
  intro Hinputs.
  assert (Hnode : forall h : Hook NodeEvent,
             uncancelled h -> uncancelled (nodeRun h inputs)).
  { clear -Hinputs. induction Hinputs as [|i inputs Hi _ IH]; intros h Hh; [assumption|].
    apply IH. apply step_uncancelled; [|assumption|assumption].
    intros h0 o. destruct (dispatch_node_frame h0 o) as (H1 & H2 & _). auto. }
  assert (Hclient : forall h : Hook ClientEvent,
             uncancelled h -> uncancelled (clientRun h inputs)).
  { clear -Hinputs. induction Hinputs as [|i inputs Hi _ IH]; intros h Hh; [assumption|].
    apply IH. apply step_uncancelled; [|assumption|assumption].
    intros h0 o. destruct (dispatch_client_frame h0 o) as (H1 & H2 & _). auto. }
  split.
  - apply Hnode. split; [reflexivity | constructor].
  - apply Hclient. split; [reflexivity | constructor].
Qed.

End OneStreamProperties.

(** The stream of a first mount opens, delivers an event, and the
    component unmounts: the stream is still active and still reading. *)
Lemma first_mount_cleanup_cancels_nothing_witness :
  Forall (fun s => Stream.isActive s = true)
         (Hooks.subscriptions
            (nodeRun (proto := emptyMessages) (Hooks.mount [] None)
                     [ Hooks.ConnectResolves Stream.StreamOpened;
                       Hooks.Net 0 (Stream.Chunk []);
                       Hooks.Cleanup ]))
  /\ Forall (fun s => Stream.isActive s = true)
            (Hooks.subscriptions
               (clientRun (proto := emptyMessages) (Hooks.mount [] None)
                          [ Hooks.ConnectResolves Stream.StreamOpened;
                            Hooks.Net 0 (Stream.Chunk []);
                            Hooks.Cleanup ])).
Proof.
  apply (first_mount_cleanup_cancels_nothing (proto := emptyMessages)).
  repeat constructor.
Defined.

Example stream_of_unmounted_hook_keeps_reading :
  Hooks.subscriptions
    (nodeRun (proto := emptyMessages) (Hooks.mount [] None)
             [ Hooks.ConnectResolves Stream.StreamOpened;
               Hooks.Net 0 (Stream.Chunk []);
               Hooks.Cleanup ])
  = [ Stream.opened true ].
Proof. reflexivity. Qed.

(* ===================================================================== *)
(** ** Properties of the query cache                                     *)
(* ===================================================================== *)

Section CacheProperties.

Import Hooks Cache.

Lemma stale_invalidateQueries (key : QueryKey) (b : Browser) (q : Query) :
  stale (invalidateQueries key b) q = stale b q || matchesKey key (queryKey q).
Proof.
  unfold stale, invalidateQueries. cbn [invalidated].
  rewrite existsb_app. cbn. rewrite orb_false_r. reflexivity.
Qed.

(** X25.  The [onSuccess] of [useRentChannel] refreshes nothing: the keys
    it invalidates, [["channels"]] and [["balances"]], select none of the
    queries the dashboard declares, whose channels and balances live under
    [['hydra', ...]].  After a channel was rented, the channel list and the
    balances are as stale as before. *)
Theorem rentChannel_onSuccess_refreshes_no_query (b : Browser) (q : Query) :
  stale (rentChannel_onSuccess b) q = stale b q.
Proof.
  unfold rentChannel_onSuccess. rewrite !stale_invalidateQueries.
  destruct q; cbn; rewrite ?orb_false_r; reflexivity.
Qed.

(** X26.  What the other mutations refresh, exactly.  Opening a channel
    marks the channel list stale and nothing else, the balances not
    included; deposit, withdraw, close and force-close mark the channel
    list and the balances; connecting to a peer marks the peer list;
    initialising a market marks the two market lists, and neither the
    query of a single market nor [['hydra','markets']]. *)
Theorem mutations_refresh_exactly (b : Browser) (q : Query) :
  stale (openChannel_onSuccess b) q
  = (stale b q || match q with RealChannels => true | _ => false end)
  /\ stale (depositChannel_onSuccess b) q
     = (stale b q || match q with RealChannels | RealBalances => true | _ => false end)
  /\ stale (withdrawChannel_onSuccess b) q
     = (stale b q || match q with RealChannels | RealBalances => true | _ => false end)
  /\ stale (closeChannel_onSuccess b) q
     = (stale b q || match q with RealChannels | RealBalances => true | _ => false end)
  /\ stale (forceCloseChannel_onSuccess b) q
     = (stale b q || match q with RealChannels | RealBalances => true | _ => false end)
  /\ stale (connectToPeer_onSuccess b) q
     = (stale b q || match q with RealPeers => true | _ => false end)
  /\ stale (initMarket_onSuccess b) q
     = (stale b q || match q with InitializedMarkets | MarketsInfo => true | _ => false end).
Proof.
  unfold openChannel_onSuccess, depositChannel_onSuccess, withdrawChannel_onSuccess,
    closeChannel_onSuccess, forceCloseChannel_onSuccess, initMarket_onSuccess,
    connectToPeer_onSuccess.
  assert (Ht : forall a ms b0, stale (setTimeout a ms b0) q = stale b0 q) by reflexivity.
  rewrite !Ht, !stale_invalidateQueries.
  destruct q; cbn; rewrite ?orb_false_r; repeat split; reflexivity.
Qed.

(** X27.  What a node event refreshes, exactly.  Handled by a mounted
    hook, an event marks the balances stale when it carries any payload,
    and the channel list when it carries one of the three channel
    payloads; no other query is touched.  A payment update refreshes the
    balances only: the key [['hydra','payments']] it also invalidates
    selects no query. *)
Theorem node_event_refreshes_exactly
        (event : NodeEvent) (h : Hook NodeEvent) (q : Query) :
  mounted h = true ->
  stale (browser (handleNodeEvent event h)) q
  = (stale (browser h) q
     || match q with
        | RealBalances => hasPayload event
        | RealChannels => hasChannelPayload event
        | _ => false
        end).
Proof.
  intro Hm. unfold handleNodeEvent. rewrite Hm. cbn [negb withBrowser browser setLastEvent].
  rewrite !whenPresent_spec. unfold stale. cbn [invalidated].
  rewrite !existsb_app. unfold hasPayload, hasChannelPayload.
  destruct event as [[cu|] [cc|] [ac|] [pu|]]; destruct q; cbn;
    destruct (existsb _ (invalidated (browser h))); reflexivity.
Qed.


End CacheProperties.

Lemma node_event_refreshes_exactly_witness :
  Cache.stale (Hooks.browser
                 (Hooks.handleNodeEvent
                    {| channelUpdate := None; channelClosed := None;
                       assetChannelUpdate := None; paymentUpdate := Some "p1" |}
                    nodeHookConnected))
              Cache.RealChannels
  = (Cache.stale (Hooks.browser nodeHookConnected) Cache.RealChannels || false).
Proof.
  apply (node_event_refreshes_exactly
           {| channelUpdate := None; channelClosed := None;
              assetChannelUpdate := None; paymentUpdate := Some "p1" |}
           nodeHookConnected Cache.RealChannels).
  reflexivity.
Defined.

(* ===================================================================== *)
(** ** Properties of the reducers                                        *)
(* ===================================================================== *)

Section AppSliceProperties.

Import AppSlice.

Lemma firstn_cons_firstn {A} (n : nat) (x : A) (l : list A) :
  firstn (S n) (x :: firstn (S n) l) = firstn (S n) (x :: l).
Proof.
  rewrite !firstn_cons. f_equal. rewrite firstn_firstn.
  replace (Nat.min n (S n)) with n by lia. reflexivity.
Qed.

Lemma addLogTo_firstn (payload : LogEntry) (entries : list LogEntry) :
  addLogTo payload (firstn 1000 entries) = firstn 1000 (payload :: entries).
Proof.
  unfold addLogTo.
  destruct (Nat.ltb_spec 1000 (List.length (payload :: firstn 1000 entries))) as [H|H].
  - change 1000 with (S 999). apply firstn_cons_firstn.
  - rewrite <- (firstn_all2 (n := 1000) (payload :: firstn 1000 entries)) by exact H.
    change 1000 with (S 999). apply firstn_cons_firstn.
Qed.

(** X29.  The log of the store holds the 1000 most recent entries, newest
    first: after any sequence of actions it is the first 1000 of the
    entries logged since the last [clearLogs], in reverse order of
    arrival; older entries are dropped, and no other action touches it. *)
Theorem logs_keep_the_newest_thousand (actions : list Action) :
  logs (dispatchAll actions) = firstn 1000 (loggedSinceClear actions)
  /\ List.length (logs (dispatchAll actions)) <= 1000.
Proof.
  assert (H : forall (state : AppState) (entries : list LogEntry),
             logs state = firstn 1000 entries ->
             logs (fold_left reducer actions state)
             = firstn 1000
                 (fold_left (fun entries action =>
                               match action with
                               | addLog payload => payload :: entries
                               | clearLogs => []
                               | _ => entries
                               end)
                            actions entries)).
  { induction actions as [|action actions IH]; intros state entries Hlogs.
    - exact Hlogs.
    - cbn [fold_left]. apply IH.
      destruct action; cbn [reducer logs]; try exact Hlogs.
      + rewrite Hlogs. apply addLogTo_firstn.
      + reflexivity. }
  assert (Hlogs : logs (dispatchAll actions) = firstn 1000 (loggedSinceClear actions)).
  { apply H. reflexivity. }
  split; [exact Hlogs|]. rewrite Hlogs. apply firstn_le_length.
Qed.

End AppSliceProperties.

Section OrderbookSliceProperties.

Import OrderbookSlice.

Context {MarketInfo Orderbook LiquidityPosition : Type}.

Lemma get_delete {V} (o : Obj V) (k k' : string) :
  JS.get (delete o k) k' = if String.eqb k k' then None else JS.get o k'.
Proof.
  unfold delete. induction o as [|[k0 v0] o IH]; cbn.
  - destruct (String.eqb k k'); reflexivity.
  - destruct (String.eqb_spec k0 k) as [->|Hne]; cbn.
    + rewrite IH. destruct (String.eqb k k'); reflexivity.
    + rewrite IH. destruct (String.eqb_spec k0 k') as [->|Hne'].
      * destruct (String.eqb_spec k k'); [congruence | reflexivity].
      * reflexivity.
Qed.

Lemma get_fold_delete {V} (ids : list string) :
  forall (o : Obj V) (k : string),
    JS.get (fold_left delete ids o) k
    = if arrayIncludes ids k then None else JS.get o k.
Proof.
  unfold arrayIncludes.
  induction ids as [|x ids IH]; intros o k; cbn [fold_left existsb]; [reflexivity|].
  rewrite IH, get_delete. rewrite (String.eqb_sym k x).
  destruct (existsb (String.eqb k) ids); [now rewrite orb_true_r|].
  rewrite orb_false_r. reflexivity.
Qed.

Lemma getLast_some_in_keys {V} (o : Obj V) (k : string) (v : V) :
  getLast o k = Some v -> arrayIncludes (keys o) k = true.
Proof.
  unfold getLast, arrayIncludes, keys. intro H.
  apply existsb_exists. exists k. split; [|apply String.eqb_refl].
  assert (Hin : forall (l : Obj V), JS.get l k = Some v -> In k (map fst l)).
  { induction l as [|[k0 v0] l IH]; cbn; [discriminate|].
    destruct (String.eqb_spec k0 k) as [->|_]; auto. }
  apply Hin in H. rewrite map_rev in H. apply in_rev in H. exact H.
Qed.

(** X30.  The orders of the store behave as a map.  After [updateOrders]
    an order of the payload reads as the payload has it and every other
    order as before; after [removeOrders] the listed orders are absent
    (listing an unknown or a repeated id does no harm) and every other
    order reads as before; and adding orders and then removing their ids
    leaves every order that was not in the payload as it was. *)
Theorem orders_update_and_remove
        (state : @OrderbookState MarketInfo Orderbook LiquidityPosition)
        (payload : Obj LiquidityPosition) (ids : list string) (orderId : string) :
  JS.get (orders (reducer state (updateOrders payload))) orderId
  = match getLast payload orderId with
    | Some position => Some position
    | None => JS.get (orders state) orderId
    end
  /\ JS.get (orders (reducer state (removeOrders ids))) orderId
     = (if arrayIncludes ids orderId then None else JS.get (orders state) orderId)
  /\ JS.get (orders (reducer (reducer state (updateOrders payload))
                             (removeOrders (keys payload)))) orderId
     = (if arrayIncludes (keys payload) orderId then None
        else JS.get (orders state) orderId).
Proof.
  cbn [reducer orders]. repeat split.
  - apply get_assign.
  - apply get_fold_delete.
  - rewrite get_fold_delete, get_assign.
    destruct (arrayIncludes (keys payload) orderId) eqn:Hin; [reflexivity|].
    destruct (getLast payload orderId) as [v|] eqn:Hlast; [|reflexivity].
    apply getLast_some_in_keys in Hlast. congruence.
Qed.

End OrderbookSliceProperties.
